(** * pro-wallet: the NFC scanner component, its archive hook and the NDEF
      rendering, embedded in Rocq.

    The development follows the TypeScript sources:

    - [NfcScanner] (the component: [initApp], [checkNfcSupport], [readNdef],
      [handleDeleteItem], [handleEmitItem], the effect clean-up),
    - [parseNdefMessage] (the diagnostic rendering of NDEF records),
    - [useSecureStorage] (the archive hook),
    - [withHceService] (the config plugin that declares the card service
      in the Android manifest).

    How the component is modelled:

    - The [useState] cells and the hook's value form the [State]; the ref
      [isCancelling], the calls made to the platform (a [log]) and the
      asynchronous functions that wait at an [await] ([pending]) complete it
      to a [World].
    - An asynchronous function is split at its [await]s.  The part that runs
      after an [await] is a continuation ([Cont]); it carries the bindings
      of the render that created the function ([env]), as the JavaScript
      closure does, while state setters and the ref act on the world.  The
      platform is the environment: it settles a waiting promise with a
      [Response], in any order.
    - A press runs the handler of the current render, and only when its
      button is shown and enabled.  The clean-up of the mount effect
      (dependencies [[]]) is the closure of the first render.  A run ends
      with the unmount: what the functions still waiting at an [await] do
      after it is not followed.
    - The NFC library's codec is a parameter ([NdefCodec]); the codec the
      specification describes is [Ndef_codec].  Console output, styles and
      the buttons of alerts are left out. *)

From Stdlib Require Import ZArith List String Ascii Bool Lia.
From Stdlib Require DecimalString HexadecimalString DecimalZ DecimalPos.
Import ListNotations.

Local Open Scope string_scope.
Local Open Scope Z_scope.

(** ** JavaScript values used by the component *)

(** A call either returns or throws; an [await] either resolves or rejects.
    The thrown value is kept as the text [String(ex)] gives for it. *)
Inductive Result (A : Type) : Type :=
| Ok (a : A)
| Throws (e : string).
Arguments Ok {A} a.
Arguments Throws {A} e.

Definition bind {A B : Type} (r : Result A) (k : A -> Result B) : Result B :=
  match r with
  | Ok a => k a
  | Throws e => Throws e
  end.

Notation "x <- r ;; k" := (bind r (fun x => k))
  (at level 61, r at next level, right associativity).

(** The line feed of the template literals. *)
Definition nl : string := String "010"%char EmptyString.

(** Strings stand for their UTF-8 bytes, one character per byte. *)
Definition bytes_of_string (s : string) : list Z :=
  map (fun a => Z.of_nat (nat_of_ascii a)) (list_ascii_of_string s).

Definition string_of_bytes (bs : list Z) : string :=
  string_of_list_ascii (map (fun b => ascii_of_nat (Z.to_nat b)) bs).

(** [`${n}`] and [n.toString()] for an integral number. *)
Definition toString10 (n : Z) : string :=
  DecimalString.NilZero.string_of_int (Z.to_int n).

(** [n.toString(16)]. *)
Definition toString16 (n : Z) : string :=
  HexadecimalString.NilZero.string_of_int (Z.to_hex_int n).

Fixpoint repeat_string (n : nat) (s : string) : string :=
  match n with
  | O => ""
  | S n' => s ++ repeat_string n' s
  end.

(** [s.padStart(width, "0")]. *)
Definition padStart0 (width : nat) (s : string) : string :=
  repeat_string (width - String.length s) "0" ++ s.

(** A string is truthy unless it is empty. *)
Definition truthy (s : string) : bool :=
  negb (String.eqb s "").

(** [hay.includes(needle)]. *)
Fixpoint includes (hay needle : string) : bool :=
  prefix needle hay ||
  match hay with
  | EmptyString => false
  | String _ hay' => includes hay' needle
  end.

(** The strings of a list, one after the other. *)
Fixpoint concatAll (parts : list string) : string :=
  match parts with
  | [] => ""
  | p :: rest => p ++ concatAll rest
  end.

(** [parts.join(sep)]. *)
Fixpoint join (sep : string) (parts : list string) : string :=
  match parts with
  | [] => ""
  | [p] => p
  | p :: rest => p ++ sep ++ join sep rest
  end.

(** The white space and the line terminators [trim] strips, as the UTF-8
    bytes of the string: of one byte (TAB, LF, VT, FF, CR, SP), of two
    (U+00A0), of three (U+1680, U+2000 to U+200A, U+2028, U+2029, U+202F,
    U+205F, U+3000, U+FEFF). *)
Definition isWhitespace (a : ascii) : bool :=
  let c := nat_of_ascii a in
  ((9 <=? c) && (c <=? 13))%nat || (c =? 32)%nat.

Definition isWhitespace2 (a b : ascii) : bool :=
  ((nat_of_ascii a =? 194) && (nat_of_ascii b =? 160))%nat.

Definition isWhitespace3 (a b c : ascii) : bool :=
  let a := nat_of_ascii a in
  let b := nat_of_ascii b in
  let c := nat_of_ascii c in
  (((a =? 225) && (b =? 154) && (c =? 128))
   || ((a =? 226) && (b =? 128)
       && (((128 <=? c) && (c <=? 138)) || (c =? 168) || (c =? 169) || (c =? 175)))
   || ((a =? 226) && (b =? 129) && (c =? 159))
   || ((a =? 227) && (b =? 128) && (c =? 128))
   || ((a =? 239) && (b =? 187) && (c =? 191)))%nat.

Fixpoint trimStart (s : string) : string :=
  match s with
  | EmptyString => EmptyString
  | String a s1 =>
      if isWhitespace a then trimStart s1
      else
        match s1 with
        | EmptyString => s
        | String b s2 =>
            if isWhitespace2 a b then trimStart s2
            else
              match s2 with
              | EmptyString => s
              | String c s3 => if isWhitespace3 a b c then trimStart s3 else s
              end
        end
  end.

(** [trimEnd] drops the end of the string from the first character on
    after which there is only white space. *)
Fixpoint trimEnd (s : string) : string :=
  match s with
  | EmptyString => EmptyString
  | String a s' =>
      match trimStart s with
      | EmptyString => EmptyString
      | _ => String a (trimEnd s')
      end
  end.

(** [s.trim()]. *)
Definition trim (s : string) : string := trimEnd (trimStart s).

(** ** Records of the NFC library *)

Module NdefRecord.
Record t : Type := mk {
  tnf : Z;
  type : list Z;
  id : option (list Z);
  payload : list Z
}.
End NdefRecord.

Module TagEvent.
Record t : Type := mk {
  ndefMessage : option (list NdefRecord.t);
  maxSize : option Z;
  type : option string;
  techTypes : option (list string);
  id : option (list Z)
}.
End TagEvent.

(** ** The [Ndef] helper of the NFC library

    The library is a dependency of the repository; its source is not part of
    it.  What the component needs of it is modelled from the specification
    of the codec. *)
Module Ndef.

Definition TNF_WELL_KNOWN : Z := 1.
Definition RTD_TEXT : list Z := [84].
Definition RTD_URI : list Z := [85].

Definition eqb_bytes (a b : list Z) : bool :=
  if list_eq_dec Z.eq_dec a b then true else false.

(** Modelled from the spec: [Ndef.isType] is missing; a record is of a
    type when its TNF is the given one and its type field equals the given
    type ("TNF == well-known AND type == T"). *)
Definition isType (record : NdefRecord.t) (tnf : Z) (type : list Z) : bool :=
  (NdefRecord.tnf record =? tnf) && eqb_bytes (NdefRecord.type record) type.

(** Two lower-case hex digits for a byte. *)
Definition byteToHex (b : Z) : string :=
  padStart0 2 (toString16 (b mod 256)).

(** Modelled from the spec: [Ndef.util.bytesToHexString] is missing; bytes
    are "shown as hex" and the tag id is "hex-encoded": the digits of the
    bytes, in order. *)
Definition bytesToHexString (bytes : list Z) : string :=
  concatAll (map byteToHex bytes).

(** The language code of the text records the library builds. *)
Definition lang : string := "en".

(** Well-formed UTF-8: one-byte characters and leading bytes followed by
    the right number of continuation bytes. *)
Definition isCont (b : Z) : bool := (128 <=? b) && (b <? 192).

Fixpoint utf8_ok (bs : list Z) : bool :=
  match bs with
  | [] => true
  | b :: rest =>
      if (0 <=? b) && (b <? 128) then utf8_ok rest
      else if (192 <=? b) && (b <? 224) then
        match rest with
        | c1 :: rest1 => isCont c1 && utf8_ok rest1
        | _ => false
        end
      else if (224 <=? b) && (b <? 240) then
        match rest with
        | c1 :: c2 :: rest2 => isCont c1 && isCont c2 && utf8_ok rest2
        | _ => false
        end
      else if (240 <=? b) && (b <? 248) then
        match rest with
        | c1 :: c2 :: c3 :: rest3 =>
            isCont c1 && isCont c2 && isCont c3 && utf8_ok rest3
        | _ => false
        end
      else false
  end.

(** Modelled from the spec: the library's byte-to-string conversion is
    missing; the bytes are "interpreted as UTF-8", and bytes that are not
    UTF-8 do not decode. *)
Definition bytesToString (bs : list Z) : Result string :=
  if utf8_ok bs then Ok (string_of_bytes bs)
  else Throws "Un-expected encoding error, UTF-8 stream truncated, or incorrect".

(** Modelled from the spec: [Ndef.textRecord] is missing; Encode builds "a
    single well-known/T record whose payload is the status byte
    (language-code length, UTF-16 bit unset) followed by a fixed language
    code (en) followed by the UTF-8 bytes of the input string". *)
Definition textRecord (text : string) : NdefRecord.t :=
  NdefRecord.mk TNF_WELL_KNOWN RTD_TEXT (Some [])
    (Z.of_nat (String.length lang) :: bytes_of_string lang ++ bytes_of_string text).

Module text.

(** UTF-16BE code units of a byte sequence. *)
Fixpoint utf16be_units (bs : list Z) : Result (list Z) :=
  match bs with
  | [] => Ok []
  | hi :: lo :: rest =>
      us <- utf16be_units rest ;; Ok ((hi mod 256) * 256 + lo mod 256 :: us)
  | [_] => Throws "UTF-16 stream truncated"
  end.

(** Code points of a sequence of UTF-16 code units. *)
Fixpoint codePoints (us : list Z) : Result (list Z) :=
  match us with
  | [] => Ok []
  | u :: rest =>
      if (55296 <=? u) && (u <? 56320) then
        match rest with
        | l :: rest' =>
            if (56320 <=? l) && (l <? 57344) then
              cps <- codePoints rest' ;;
              Ok (65536 + (u - 55296) * 1024 + (l - 56320) :: cps)
            else Throws "UTF-16 surrogate not paired"
        | [] => Throws "UTF-16 surrogate not paired"
        end
      else if (56320 <=? u) && (u <? 57344) then
        Throws "UTF-16 surrogate not paired"
      else cps <- codePoints rest ;; Ok (u :: cps)
  end.

Definition utf8_of_codePoint (c : Z) : list Z :=
  if c <? 128 then [c]
  else if c <? 2048 then [192 + c / 64; 128 + c mod 64]
  else if c <? 65536 then
    [224 + c / 4096; 128 + (c / 64) mod 64; 128 + c mod 64]
  else
    [240 + c / 262144; 128 + (c / 4096) mod 64; 128 + (c / 64) mod 64;
     128 + c mod 64].

Definition utf16ToString (bs : list Z) : Result string :=
  us <- utf16be_units bs ;;
  cps <- codePoints us ;;
  Ok (string_of_bytes (flat_map utf8_of_codePoint cps)).

(** Modelled from the spec: [Ndef.text.decodePayload] is missing; it
    decodes "a status-byte-prefixed UTF-8/UTF-16 text field (the 1-byte
    status encodes language-code length in bits 0-5 and a UTF-16 flag in
    bit 7)" and gives "the decoded text only"; a payload with a
    "truncated status byte" does not decode. *)
Definition decodePayload (data : list Z) : Result string :=
  match data with
  | [] => Throws "text payload truncated: no status byte"
  | status :: rest =>
      let languageCodeLength := Z.land status 63 in
      let utf16 := negb (Z.land status 128 =? 0) in
      let body := skipn (Z.to_nat languageCodeLength) rest in
      if utf16 then utf16ToString body else bytesToString body
  end.

End text.

Module uri.

(** The abbreviation table of the URI record type, codes 0 to 35. *)
Definition protocols : list string :=
  [ ""; "http://www."; "https://www."; "http://"; "https://"; "tel:";
    "mailto:"; "ftp://anonymous:anonymous@"; "ftp://ftp."; "ftps://";
    "sftp://"; "smb://"; "nfs://"; "ftp://"; "dav://"; "news:";
    "telnet://"; "imap:"; "rtsp://"; "urn:"; "pop:"; "sip:"; "sips:";
    "tftp:"; "btspp://"; "btl2cap://"; "btgoep://"; "tcpobex://";
    "irdaobex://"; "file://"; "urn:epc:id:"; "urn:epc:tag:";
    "urn:epc:pat:"; "urn:epc:raw:"; "urn:epc:"; "urn:nfc:" ].

(** Modelled from the spec: [Ndef.uri.decodePayload] is missing; it
    decodes "a 1-byte URI-abbreviation-code prefix followed by the URI
    suffix", expanding the code "against a fixed lookup table" and
    reading the suffix bytes as UTF-8; an "invalid abbreviation code
    index" does not decode. *)
Definition decodePayload (data : list Z) : Result string :=
  match data with
  | [] => Throws "URI payload truncated: no abbreviation code"
  | code :: suffix =>
      if (code <? 0) then Throws "invalid URI abbreviation code" else
      match nth_error protocols (Z.to_nat code) with
      | Some prefix => s <- bytesToString suffix ;; Ok (prefix ++ s)
      | None => Throws "invalid URI abbreviation code"
      end
  end.

End uri.

End Ndef.

(** What the component uses of the library's codec.  The component is
    written against this interface; [Ndef_codec] is the codec of the
    specification. *)
Record NdefCodec : Type := {
  textRecord : string -> NdefRecord.t;
  text_decodePayload : list Z -> Result string;
  uri_decodePayload : list Z -> Result string
}.

Definition Ndef_codec : NdefCodec :=
  {| textRecord := Ndef.textRecord;
     text_decodePayload := Ndef.text.decodePayload;
     uri_decodePayload := Ndef.uri.decodePayload |}.

(** ** [parseNdefMessage] *)

(** The argument of [parseNdefMessage]: one record or an array of them. *)
Inductive NdefMessage : Type :=
| OneRecord (record : NdefRecord.t)
| Records (records : list NdefRecord.t).

(** The last line of a record's entry: the decoded value or the payload in
    hex. *)
Inductive ValueLine : Type :=
| Decoded (text : string)
| Payload (hex : string).

Definition Uint8Array (bytes : list Z) : list Z :=
  map (fun b => b mod 256) bytes.

Section Rendering.

Variable codec : NdefCodec.

(** The [if / else if / else] that ends the loop body. *)
Definition valueLine (record : NdefRecord.t) : Result ValueLine :=
  if Ndef.isType record Ndef.TNF_WELL_KNOWN Ndef.RTD_TEXT then
    text <- text_decodePayload codec (Uint8Array (NdefRecord.payload record)) ;;
    Ok (Decoded text)
  else if Ndef.isType record Ndef.TNF_WELL_KNOWN Ndef.RTD_URI then
    text <- uri_decodePayload codec (Uint8Array (NdefRecord.payload record)) ;;
    Ok (Decoded text)
  else Ok (Payload (Ndef.bytesToHexString (NdefRecord.payload record))).

Definition showValueLine (v : ValueLine) : string :=
  match v with
  | Decoded text => "  Decoded: " ++ text ++ nl
  | Payload hex => "  Payload: " ++ hex ++ nl
  end.

(** The lines of an entry before its value line. *)
Definition header (index : nat) (record : NdefRecord.t) : string :=
  let result := "Record " ++ toString10 (Z.of_nat index + 1) ++ ":" ++ nl in
  let result :=
    result ++ "  TNF: " ++ toString10 (NdefRecord.tnf record) ++ " (0x"
           ++ padStart0 2 (toString16 (NdefRecord.tnf record)) ++ ")" ++ nl in
  let result :=
    result ++ "  Type: " ++ Ndef.bytesToHexString (NdefRecord.type record) ++ nl in
  match NdefRecord.id record with
  | Some (b :: bs) => result ++ "  ID: " ++ Ndef.bytesToHexString (b :: bs) ++ nl
  | _ => result
  end.

(** One turn of the [forEach] callback: what it appends to [result]. *)
Definition entry (index : nat) (record : NdefRecord.t) : Result string :=
  v <- valueLine record ;; Ok (header index record ++ showValueLine v).

(** [records.forEach((record, index) => ...)] from [index] on. *)
Fixpoint forEach (index : nat) (records : list NdefRecord.t) (result : string)
  : Result string :=
  match records with
  | [] => Ok result
  | record :: rest =>
      e <- entry index record ;; forEach (S index) rest (result ++ e)
  end.

Definition parseNdefMessage (ndefMessage : option NdefMessage) : Result string :=
  match ndefMessage with
  | None => Ok "No NDEF message found."
  | Some m =>
      let records :=
        match m with
        | OneRecord record => [record]
        | Records records => records
        end in
      match records with
      | [] => Ok "No NDEF message found."
      | _ => result <- forEach 0 records "" ;; Ok (trim result)
      end
  end.

End Rendering.


(** ** The archive item and the state of the component *)

Module ScannedItem.
Record t : Type := mk {
  id : string;
  tagDetails : string;
  ndefMessage : list NdefRecord.t;
  createdAt : string
}.
End ScannedItem.

(** The text [renderItem] shows for an item: the tag details, then the
    rendering of the NDEF message when the item has records.  An exception
    of [parseNdefMessage] is an exception of the render of the row. *)
Definition renderItem_text (codec : NdefCodec) (item : ScannedItem.t) : Result string :=
  match ScannedItem.ndefMessage item with
  | [] => Ok (ScannedItem.tagDetails item ++ nl ++ "No NDEF message found on tag.")
  | records =>
      rendered <- parseNdefMessage codec (Some (Records records)) ;;
      Ok (ScannedItem.tagDetails item ++ nl ++ "--- NDEF Message ---" ++ nl ++ rendered)
  end.

(** The session object [HCESession.getInstance()] gives. *)
Inductive HCESession : Type := TheHCESession.

(** [new NFCTagType4({ type: NFCTagType4NDEFContentType.Text, content, writable })]. *)
Record NFCTagType4 : Type := {
  content : string;
  writable : bool
}.

(** The [useState] cells and the value of [useSecureStorage]: what a render
    binds, and so what the closures created by that render see. *)
Record State : Type := mkState {
  nfcStatus : string;
  isScanning : bool;
  scannedItems : option (list ScannedItem.t);
  emittingItem : option string;
  hceSession : option HCESession
}.

(** The first render. *)
Definition initialState : State :=
  {| nfcStatus := "Checking NFC availability...";
     isScanning := false;
     scannedItems := None;
     emittingItem := None;
     hceSession := None |}.

(** Calls to the platform and alerts, in the order the component makes
    them. *)
Inductive Effect : Type :=
| NfcManager_start
| NfcManager_isSupported
| NfcManager_isEnabled
| NfcManager_requestTechnology
| NfcManager_getTag
| NfcManager_cancelTechnologyRequest
| HCESession_getInstance
| setApplication (tag : NFCTagType4)
| setEnabled (enable : bool)
| SecureStore_getItemAsync
| SecureStore_setItemAsync (value : list ScannedItem.t)
| SecureStore_deleteItemAsync
| Alert_alert (title message : string).

(** The rest of an asynchronous function after an [await], with the render
    bindings ([env]) and the arguments its closure holds. *)
Inductive Cont : Type :=
| K_getItemAsync
| K_start
| K_getInstance
| K_isSupported
| K_isEnabled
| K_cancelTechnologyRequest
| K_requestTechnology (env : State)
| K_getTag (env : State)
| K_deleteSetEnabled (env : State) (id : string)
| K_toggleOff
| K_setApplication (item : ScannedItem.t)
| K_setEnabled (item : ScannedItem.t).

(** [Date.now()] and [new Date().toISOString()] when a tag is handled. *)
Record Clock : Type := {
  now : Z;
  toISOString : string
}.

(** How the platform settles the promise a continuation waits for.  A
    stored value is absent, or parses to an archive, or ([Some None]) does
    not parse or parses to [null]. *)
Inductive Response : Type :=
| Resolved
| Rejected (e : string)
| ResolvedBool (b : bool)
| ResolvedSession (session : HCESession)
| ResolvedTag (tag : option TagEvent.t) (clock : Clock)
| ResolvedItem (stored : option (option (list ScannedItem.t))).

Record World : Type := mkWorld {
  state : State;
  isCancelling : bool;
  pending : list Cont;
  log : list Effect;
  mounted : bool
}.

Definition withState (f : State -> State) (w : World) : World :=
  {| state := f (state w); isCancelling := isCancelling w;
     pending := pending w; log := log w; mounted := mounted w |}.

Definition setNfcStatus (v : string) : World -> World :=
  withState (fun s =>
    {| nfcStatus := v; isScanning := isScanning s; scannedItems := scannedItems s;
       emittingItem := emittingItem s; hceSession := hceSession s |}).

Definition setIsScanning (v : bool) : World -> World :=
  withState (fun s =>
    {| nfcStatus := nfcStatus s; isScanning := v; scannedItems := scannedItems s;
       emittingItem := emittingItem s; hceSession := hceSession s |}).

Definition setValue (v : option (list ScannedItem.t)) : World -> World :=
  withState (fun s =>
    {| nfcStatus := nfcStatus s; isScanning := isScanning s; scannedItems := v;
       emittingItem := emittingItem s; hceSession := hceSession s |}).

Definition setEmittingItem (v : option string) : World -> World :=
  withState (fun s =>
    {| nfcStatus := nfcStatus s; isScanning := isScanning s; scannedItems := scannedItems s;
       emittingItem := v; hceSession := hceSession s |}).

Definition setHceSession (v : option HCESession) : World -> World :=
  withState (fun s =>
    {| nfcStatus := nfcStatus s; isScanning := isScanning s; scannedItems := scannedItems s;
       emittingItem := emittingItem s; hceSession := v |}).

(** [isCancelling.current = v]. *)
Definition set_isCancelling (v : bool) (w : World) : World :=
  {| state := state w; isCancelling := v; pending := pending w; log := log w;
     mounted := mounted w |}.

(** A call whose promise nobody waits for. *)
Definition perform (e : Effect) (w : World) : World :=
  {| state := state w; isCancelling := isCancelling w; pending := pending w;
     log := log w ++ [e]; mounted := mounted w |}.

(** [await e]: the call is made and the rest of the function waits. *)
Definition await (e : Effect) (k : Cont) (w : World) : World :=
  {| state := state w; isCancelling := isCancelling w; pending := pending w ++ [k];
     log := log w ++ [e]; mounted := mounted w |}.

Definition unmounted (w : World) : World :=
  {| state := state w; isCancelling := isCancelling w; pending := pending w;
     log := log w; mounted := false |}.

(** [emittingItem === id]. *)
Definition emittingItem_is (env : State) (id : string) : bool :=
  match emittingItem env with
  | Some e => String.eqb e id
  | None => false
  end.

(** [if (emittingItem)], [!!emittingItem]. *)
Definition emittingItem_truthy (env : State) : bool :=
  match emittingItem env with
  | Some e => truthy e
  | None => false
  end.

(** [scannedItems || []]. *)
Definition items_or_empty (env : State) : list ScannedItem.t :=
  match scannedItems env with
  | Some items => items
  | None => []
  end.

(** ** [useSecureStorage] *)

(** [setStorageItemAsync(key, value)]. *)
Definition setStorageItemAsync (value : option (list ScannedItem.t)) : World -> World :=
  match value with
  | None => perform SecureStore_deleteItemAsync
  | Some v => perform (SecureStore_setItemAsync v)
  end.

(** [setStoredValue], which the component calls [setScannedItems]. *)
Definition setScannedItems (newValue : option (list ScannedItem.t)) (w : World) : World :=
  setStorageItemAsync newValue (setValue newValue w).

(** The effect of the hook: [SecureStore.getItemAsync(key).then(...)]. *)
Definition useSecureStorage_effect : World -> World :=
  await SecureStore_getItemAsync K_getItemAsync.

Definition resume_getItemAsync (r : Response) (w : World) : option World :=
  match r with
  | ResolvedItem None => Some w
  | ResolvedItem (Some parsed) => Some (setValue parsed w)
  | Rejected _ => Some w
  | _ => None
  end.

(** ** The component [NfcScanner] *)

(** What the user and the platform do to the mounted component.  A press
    names the row of the list whose button is pressed; [Resume i r] settles
    the promise the [i]-th waiting continuation waits for. *)
Inductive Event : Type :=
| Press_scan
| Press_emit (row : nat)
| Press_delete (row : nat)
| Resume (i : nat) (r : Response)
| Unmount.

Fixpoint remove_nth {A : Type} (i : nat) (l : list A) : list A :=
  match l, i with
  | [], _ => []
  | _ :: rest, O => rest
  | a :: rest, S i' => a :: remove_nth i' rest
  end.

Definition drop_pending (i : nat) (w : World) : World :=
  {| state := state w; isCancelling := isCancelling w;
     pending := remove_nth i (pending w); log := log w; mounted := mounted w |}.

Section Component.

(** The codec of the NFC library and [Platform.OS === 'android']. *)
Variable codec : NdefCodec.
Variable android : bool.

(** *** [checkNfcSupport] *)

Definition checkNfcSupport : World -> World :=
  await NfcManager_isSupported K_isSupported.

Definition resume_isSupported (r : Response) (w : World) : option World :=
  match r with
  | ResolvedBool true => Some (await NfcManager_isEnabled K_isEnabled w)
  | ResolvedBool false =>
      Some (perform (Alert_alert "Not Supported" "This device does not support NFC.")
              (setNfcStatus "NFC not supported" w))
  | Rejected ex => Some (setNfcStatus ("Error checking NFC: " ++ ex) w)
  | _ => None
  end.

Definition resume_isEnabled (r : Response) (w : World) : option World :=
  match r with
  | ResolvedBool true => Some (setNfcStatus "Ready to Scan" w)
  | ResolvedBool false =>
      Some (perform
              (Alert_alert "NFC Disabled"
                 "NFC is required for this feature. Please enable it in settings.")
              (setNfcStatus "NFC is disabled" w))
  | Rejected ex => Some (setNfcStatus ("Error checking NFC: " ++ ex) w)
  | _ => None
  end.

(** *** The mount effect: [initApp] and the clean-up it returns *)

Definition initApp : World -> World :=
  await NfcManager_start K_start.

Definition resume_start (r : Response) (w : World) : option World :=
  match r with
  | Resolved =>
      let w := checkNfcSupport w in
      Some (if android then await HCESession_getInstance K_getInstance w else w)
  | Rejected _ => Some (setNfcStatus "Initialization Error" w)
  | _ => None
  end.

Definition resume_getInstance (r : Response) (w : World) : option World :=
  match r with
  | ResolvedSession session => Some (setHceSession (Some session) w)
  | Rejected _ => Some (setNfcStatus "Initialization Error" w)
  | _ => None
  end.

(** The function the effect returns.  [env] is the render whose effect
    created it: its [hceSession] is the one that render bound. *)
Definition cleanup (env : State) (w : World) : World :=
  let w := perform NfcManager_cancelTechnologyRequest w in
  match hceSession env with
  | Some _ => perform (setEnabled false) w
  | None => w
  end.

(** *** [readNdef] *)

(** The [catch] block. *)
Definition readNdef_catch (ex : string) (w : World) : World :=
  let errorString := ex in
  if isCancelling w || includes errorString "UserCancel"
     || includes errorString "cancelled"
  then setNfcStatus "Scan cancelled." w
  else setNfcStatus "Scan failed. Please try again." w.

(** The [finally] block. *)
Definition readNdef_finally : World -> World := setIsScanning false.

Definition readNdef (env : State) (w : World) : World :=
  if isScanning env then
    let w := set_isCancelling true w in
    await NfcManager_cancelTechnologyRequest K_cancelTechnologyRequest w
  else if emittingItem_truthy env then
    perform
      (Alert_alert "Cannot Scan"
         "Please stop emitting the current card before scanning.") w
  else
    let w := setIsScanning true w in
    let w := setNfcStatus "Scanning..." w in
    await NfcManager_requestTechnology (K_requestTechnology env) w.

(** After [await NfcManager.cancelTechnologyRequest()]: an error of the
    request is ignored, the flag is cleared in [finally]. *)
Definition resume_cancelTechnologyRequest (r : Response) (w : World) : option World :=
  match r with
  | Resolved | Rejected _ =>
      let w := set_isCancelling false w in
      Some (setIsScanning false w)
  | _ => None
  end.

Definition resume_requestTechnology (env : State) (r : Response) (w : World)
  : option World :=
  match r with
  | Resolved => Some (await NfcManager_getTag (K_getTag env) w)
  | Rejected ex => Some (readNdef_finally (readNdef_catch ex w))
  | _ => None
  end.

Definition tagDetailsOf (tag : TagEvent.t) : string :=
  let tagDetails := "--- Tag Details ---" ++ nl in
  let tagDetails :=
    tagDetails ++ "ID: "
    ++ match TagEvent.id tag with
       | Some bytes => Ndef.bytesToHexString bytes
       | None => "N/A"
       end ++ nl in
  let tagDetails :=
    tagDetails ++ "Tech Types: "
    ++ match TagEvent.techTypes tag with
       | Some techTypes => join ", " techTypes
       | None => "N/A"
       end ++ nl in
  let tagDetails :=
    tagDetails ++ "Type: "
    ++ match TagEvent.type tag with
       | Some type => if truthy type then type else "N/A"
       | None => "N/A"
       end ++ nl in
  tagDetails ++ "Max Size: "
  ++ match TagEvent.maxSize tag with
     | Some maxSize => if maxSize =? 0 then "N/A" else toString10 maxSize
     | None => "N/A"
     end ++ " bytes" ++ nl.

Definition newItemOf (tag : TagEvent.t) (clock : Clock) : ScannedItem.t :=
  {| ScannedItem.id :=
       match TagEvent.id tag with
       | Some bytes => Ndef.bytesToHexString bytes ++ toString10 (now clock)
       | None => toString10 (now clock)
       end;
     ScannedItem.tagDetails := tagDetailsOf tag;
     ScannedItem.ndefMessage :=
       match TagEvent.ndefMessage tag with
       | Some records => records
       | None => []
       end;
     ScannedItem.createdAt := toISOString clock |}.

Definition resume_getTag (env : State) (r : Response) (w : World) : option World :=
  match r with
  | ResolvedTag (Some tag) clock =>
      let newItem := newItemOf tag clock in
      let newItems := newItem :: items_or_empty env in
      let w := setScannedItems (Some newItems) w in
      let w := setNfcStatus "Scan successful!" w in
      Some (readNdef_finally w)
  | ResolvedTag None _ =>
      Some (readNdef_finally (setNfcStatus "No tag found. Try again." w))
  | Rejected ex => Some (readNdef_finally (readNdef_catch ex w))
  | _ => None
  end.

(** *** [handleDeleteItem] *)

(** The two statements after the [if]. *)
Definition handleDeleteItem_filter (env : State) (id : string) (w : World) : World :=
  let newItems :=
    filter (fun item => negb (String.eqb (ScannedItem.id item) id))
           (items_or_empty env) in
  setScannedItems (Some newItems) w.

Definition handleDeleteItem (env : State) (id : string) (w : World) : World :=
  if emittingItem_is env id then
    match hceSession env with
    | Some _ => await (setEnabled false) (K_deleteSetEnabled env id) w
    | None => handleDeleteItem_filter env id (setEmittingItem None w)
    end
  else handleDeleteItem_filter env id w.

(** A rejected [setEnabled(false)] rejects [handleDeleteItem]: nothing
    after the [await] runs. *)
Definition resume_deleteSetEnabled (env : State) (id : string) (r : Response)
    (w : World) : option World :=
  match r with
  | Resolved => Some (handleDeleteItem_filter env id (setEmittingItem None w))
  | Rejected _ => Some w
  | _ => None
  end.

(** *** [handleEmitItem] *)

Definition handleEmitItem (env : State) (item : ScannedItem.t) (w : World) : World :=
  match hceSession env with
  | None =>
      perform (Alert_alert "Error" "HCE Session not initialized. Android only.") w
  | Some _ =>
      if isScanning env then
        perform
          (Alert_alert "Cannot Emit" "Please stop scanning before emitting a card.") w
      else if emittingItem_is env (ScannedItem.id item) then
        await (setEnabled false) K_toggleOff w
      else
        let ndefRecord := textRecord codec (ScannedItem.id item) in
        match text_decodePayload codec (NdefRecord.payload ndefRecord) with
        | Throws _ => w
        | Ok decodedText =>
            let tag := {| content := decodedText; writable := false |} in
            await (setApplication tag) (K_setApplication item) w
        end
  end.

Definition resume_toggleOff (r : Response) (w : World) : option World :=
  match r with
  | Resolved => Some (setEmittingItem None w)
  | Rejected _ => Some w
  | _ => None
  end.

(** The [catch] block of [handleEmitItem]. *)
Definition handleEmitItem_catch : World -> World :=
  perform (Alert_alert "Emulation Error" "Failed to start HCE session.").

Definition resume_setApplication (item : ScannedItem.t) (r : Response) (w : World)
  : option World :=
  match r with
  | Resolved => Some (await (setEnabled true) (K_setEnabled item) w)
  | Rejected _ => Some (handleEmitItem_catch w)
  | _ => None
  end.

Definition resume_setEnabled (item : ScannedItem.t) (r : Response) (w : World)
  : option World :=
  match r with
  | Resolved => Some (setEmittingItem (Some (ScannedItem.id item)) w)
  | Rejected _ => Some (handleEmitItem_catch w)
  | _ => None
  end.

(** *** The component as a transition system *)

Definition resume (k : Cont) (r : Response) (w : World) : option World :=
  match k with
  | K_getItemAsync => resume_getItemAsync r w
  | K_start => resume_start r w
  | K_getInstance => resume_getInstance r w
  | K_isSupported => resume_isSupported r w
  | K_isEnabled => resume_isEnabled r w
  | K_cancelTechnologyRequest => resume_cancelTechnologyRequest r w
  | K_requestTechnology env => resume_requestTechnology env r w
  | K_getTag env => resume_getTag env r w
  | K_deleteSetEnabled env id => resume_deleteSetEnabled env id r w
  | K_toggleOff => resume_toggleOff r w
  | K_setApplication item => resume_setApplication item r w
  | K_setEnabled item => resume_setEnabled item r w
  end.

(** The first render and its effects: the hook's, then the component's. *)
Definition mount : World :=
  initApp
    (useSecureStorage_effect
       {| state := initialState; isCancelling := false; pending := [];
          log := []; mounted := true |}).

(** One event.  A handler runs with the bindings of the current render; a
    press needs its button to be shown and not disabled; the clean-up is
    the one the mount effect returned, so [env] is the first render. *)
Definition step (w : World) (ev : Event) : option World :=
  if negb (mounted w) then None else
  match ev with
  | Press_scan =>
      if emittingItem_truthy (state w) then None
      else Some (readNdef (state w) w)
  | Press_emit row =>
      if android && negb (isScanning (state w)) then
        match nth_error (items_or_empty (state w)) row with
        | Some item => Some (handleEmitItem (state w) item w)
        | None => None
        end
      else None
  | Press_delete row =>
      match nth_error (items_or_empty (state w)) row with
      | Some item => Some (handleDeleteItem (state w) (ScannedItem.id item) w)
      | None => None
      end
  | Resume i r =>
      match nth_error (pending w) i with
      | Some k => resume k r (drop_pending i w)
      | None => None
      end
  | Unmount => Some (unmounted (cleanup initialState w))
  end.

Fixpoint run (w : World) (evs : list Event) : option World :=
  match evs with
  | [] => Some w
  | ev :: rest =>
      match step w ev with
      | Some w' => run w' rest
      | None => None
      end
  end.

Definition reachable (w : World) : Prop :=
  exists evs, run mount evs = Some w.

End Component.

(** ** The config plugin [withHce]

    [withHceService] edits the Android manifest the XML parser built; the
    function it hands to [withAndroidManifest] is embedded, acting on
    [androidManifest.manifest]. *)

Module Xml.

(** An element as the parser gives it: its attributes under [$], absent
    when the element has none, and its child elements by tag name. *)
#[warnings="-register-all"]
Inductive Node : Type :=
| mk (attrs : option (list (string * string))) (children : list (string * list Node)).

Definition attrs (n : Node) : option (list (string * string)) :=
  match n with
  | mk a _ => a
  end.

Definition children (n : Node) : list (string * list Node) :=
  match n with
  | mk _ c => c
  end.

End Xml.

(** [obj[key]]: [None] stands for [undefined]. *)
Fixpoint prop_get {A : Type} (key : string) (obj : list (string * A)) : option A :=
  match obj with
  | [] => None
  | (k, v) :: rest => if String.eqb k key then Some v else prop_get key rest
  end.

(** [obj[key] = v]: an own key keeps its place, a new key comes last. *)
Fixpoint prop_set {A : Type} (key : string) (v : A) (obj : list (string * A))
  : list (string * A) :=
  match obj with
  | [] => [(key, v)]
  | (k, v') :: rest =>
      if String.eqb k key then (k, v) :: rest else (k, v') :: prop_set key v rest
  end.

Definition CardService_name : string := "com.reactnativehce.services.CardService".

(** The element [withHceService] pushes. *)
Definition CardService : Xml.Node :=
  Xml.mk
    (Some [("android:name", CardService_name);
           ("android:exported", "true");
           ("android:permission", "android.permission.BIND_NFC_SERVICE")])
    [("intent-filter",
      [Xml.mk None
         [("action",
           [Xml.mk
              (Some [("android:name",
                      "android.nfc.cardemulation.action.HOST_APDU_SERVICE")])
              []])]]);
     ("meta-data",
      [Xml.mk
         (Some [("android:name", "android.nfc.cardemulation.host_apdu_service");
                ("android:resource", "@xml/aid_list")])
         []])].

(** The callback of [find]: [s.$['android:name'] === '...CardService'].  An
    element without attributes has no [$], and reading a property of
    [undefined] throws. *)
Definition isCardService (s : Xml.Node) : Result bool :=
  match Xml.attrs s with
  | None =>
      Throws "TypeError: Cannot read properties of undefined (reading 'android:name')"
  | Some a =>
      Ok (match prop_get "android:name" a with
          | Some name => String.eqb name CardService_name
          | None => false
          end)
  end.

(** [services.find(...)]. *)
Fixpoint find (services : list Xml.Node) : Result (option Xml.Node) :=
  match services with
  | [] => Ok None
  | s :: rest => b <- isCardService s ;; if b then Ok (Some s) else find rest
  end.

(** [mainApplication.service?.find(...)]. *)
Definition findCardService (mainApplication : Xml.Node) : Result (option Xml.Node) :=
  match prop_get "service" (Xml.children mainApplication) with
  | None => Ok None
  | Some services => find services
  end.

(** The services of an application, none when it has no [service] key. *)
Definition services_or_empty (mainApplication : Xml.Node) : list Xml.Node :=
  match prop_get "service" (Xml.children mainApplication) with
  | Some services => services
  | None => []
  end.

Definition withHceService (manifest : Xml.Node) : Result Xml.Node :=
  match prop_get "application" (Xml.children manifest) with
  | None => Throws "TypeError: Cannot read properties of undefined (reading '0')"
  | Some [] => Throws "TypeError: Cannot read properties of undefined (reading 'service')"
  | Some (mainApplication :: others) =>
      service <- findCardService mainApplication ;;
      match service with
      | Some _ => Ok manifest
      | None =>
          let services := (services_or_empty mainApplication ++ [CardService])%list in
          let mainApplication :=
            Xml.mk (Xml.attrs mainApplication)
              (prop_set "service" services (Xml.children mainApplication)) in
          Ok (Xml.mk (Xml.attrs manifest)
                (prop_set "application" (mainApplication :: others)
                   (Xml.children manifest)))
      end
  end.

(** The first application element of a manifest. *)
Definition mainApplicationOf (manifest : Xml.Node) : option Xml.Node :=
  match prop_get "application" (Xml.children manifest) with
  | Some (mainApplication :: _) => Some mainApplication
  | _ => None
  end.

(** A manifest with one activity and no service, and one that declares the
    card service already, not exported. *)
Definition activity : Xml.Node :=
  Xml.mk (Some [("android:name", ".MainActivity")]) [].

Definition permission : Xml.Node :=
  Xml.mk (Some [("android:name", "android.permission.NFC")]) [].

Definition plainManifest : Xml.Node :=
  Xml.mk (Some [("package", "com.prowallet")])
    [("uses-permission", [permission]);
     ("application",
      [Xml.mk (Some [("android:name", ".MainApplication")])
         [("activity", [activity])]])].

Definition ownCardService : Xml.Node :=
  Xml.mk (Some [("android:name", CardService_name); ("android:exported", "false")]) [].

Definition declaredManifest : Xml.Node :=
  Xml.mk (Some [("package", "com.prowallet")])
    [("application",
      [Xml.mk (Some [("android:name", ".MainApplication")])
         [("service", [ownCardService]); ("activity", [activity])]])].

(** ** Notions the properties are stated with *)

(** *** Modes *)

(** The mode of the session engine, read off the two cells the component
    tests: [isScanning] and (by truthiness) [emittingItem]. *)
Inductive SessionMode : Type :=
| Idle
| Scanning
| Emitting (id : string).

(** The modes a state claims: scanning when [isScanning] is set, emitting
    when [emittingItem] is truthy. *)
Definition activeModes (s : State) : list SessionMode :=
  (if isScanning s then [Scanning] else [])
  ++ match emittingItem s with
     | Some id => if truthy id then [Emitting id] else []
     | None => []
     end.

(** The state is in mode [m]: idle when it claims no mode, in another mode
    when that is the only mode it claims. *)
Definition inMode (s : State) (m : SessionMode) : Prop :=
  match m with
  | Idle => activeModes s = []
  | _ => activeModes s = [m]
  end.

(** A continuation of a request to emit that is still enabling the
    channel. *)
Definition isEnabling (k : Cont) : bool :=
  match k with
  | K_setApplication _ | K_setEnabled _ => true
  | _ => false
  end.

(** The event starts or stops a scan while a request to emit is still
    enabling the channel. *)
Definition overlaps (w : World) (ev : Event) : bool :=
  match ev with
  | Press_scan => existsb isEnabling (pending w)
  | _ => false
  end.

(** Runs in which no scan is started or stopped while a request to emit is
    enabling the channel. *)
Fixpoint runSerial (codec : NdefCodec) (android : bool) (w : World) (evs : list Event)
  : option World :=
  match evs with
  | [] => Some w
  | ev :: rest =>
      if overlaps w ev then None
      else match step codec android w ev with
           | Some w' => runSerial codec android w' rest
           | None => None
           end
  end.

(** The states the two guards are made for: while scanning, nothing is
    emitted and no request to emit is enabling the channel. *)
Definition exclusive (w : World) : Prop :=
  isScanning (state w) = true ->
  emittingItem_truthy (state w) = false /\ existsb isEnabling (pending w) = false.

(** *** The HCE session and channel *)

(** Off Android no session is bound and none is being fetched. *)
Definition noSession (w : World) : Prop :=
  hceSession (state w) = None /\ ~ In K_getInstance (pending w).

(** A state that emits, or a request to emit that is enabling the channel,
    needs the session bound. *)
Definition sessionBound (w : World) : Prop :=
  hceSession (state w) <> None
  \/ (emittingItem (state w) = None /\ existsb isEnabling (pending w) = false).

(** The HCE channel as the calls in a log leave it: enabled when the last
    [setEnabled] call enabled it. *)
Fixpoint hceEnabled (l : list Effect) (enabled : bool) : bool :=
  match l with
  | [] => enabled
  | setEnabled b :: rest => hceEnabled rest b
  | _ :: rest => hceEnabled rest enabled
  end.

Definition isSetEnabled (b : bool) (e : Effect) : bool :=
  match e with
  | setEnabled b' => Bool.eqb b b'
  | _ => false
  end.

(** *** Scans and the archive *)

(** The three events of a scan that finds [tag], in a world with [n]
    continuations waiting: the press, the technology request granted, the
    tag read. *)
Definition scanEvents (n : nat) (tag : TagEvent.t) (clock : Clock) : list Event :=
  [Press_scan; Resume n Resolved; Resume n (ResolvedTag (Some tag) clock)].

(** The press on the emit button of row [row] and the two HCE calls it
    makes, both succeeding, with [n] continuations waiting before. *)
Definition emitEvents (n : nat) (row : nat) : list Event :=
  [Press_emit row; Resume n Resolved; Resume n Resolved].

(** The three terminal statuses of a scan that finds no tag. *)
Definition status_cancelled : string := "Scan cancelled.".
Definition status_failed : string := "Scan failed. Please try again.".
Definition status_noTag : string := "No tag found. Try again.".

(** The id of an item as the specification words it: the hex encoding of
    the tag id followed by the creation timestamp, or the timestamp alone
    when the tag id is absent. *)
Definition idFromSpec (tagId : option (list Z)) (timestamp : Z) : string :=
  match tagId with
  | Some bytes => Ndef.bytesToHexString bytes ++ toString10 timestamp
  | None => toString10 timestamp
  end.


(** *** Rendering and the codec *)

(** Printable ASCII: the characters from the space to the tilde. *)
Definition printable (a : ascii) : bool :=
  ((32 <=? nat_of_ascii a) && (nat_of_ascii a <=? 126))%nat.

Definition printableASCII (s : string) : Prop :=
  forallb printable (list_ascii_of_string s) = true.

(** The entries of a rendering, one for each record. *)
Fixpoint entries (codec : NdefCodec) (index : nat) (records : list NdefRecord.t)
  : list (Result string) :=
  match records with
  | [] => []
  | record :: rest => entry codec index record :: entries codec (S index) rest
  end.

(** *** Example data *)

(** The records of the rendering example: a text record, a text record
    whose payload lacks even the status byte, and a URI record. *)
Definition validTextRecord : NdefRecord.t := Ndef.textRecord "hello".

Definition truncatedTextRecord : NdefRecord.t :=
  NdefRecord.mk Ndef.TNF_WELL_KNOWN Ndef.RTD_TEXT None [].

Definition validUriRecord : NdefRecord.t :=
  NdefRecord.mk Ndef.TNF_WELL_KNOWN Ndef.RTD_URI None
    (4 :: bytes_of_string "example.com").

(** Three tags and the clock readings of their scans. *)
Definition tagA : TagEvent.t :=
  {| TagEvent.ndefMessage := Some [validTextRecord];
     TagEvent.maxSize := Some 137;
     TagEvent.type := Some "NFC Forum Type 2";
     TagEvent.techTypes := Some ["android.nfc.tech.NfcA"; "android.nfc.tech.Ndef"];
     TagEvent.id := Some [4; 161; 178; 195] |}.

Definition tagB : TagEvent.t :=
  {| TagEvent.ndefMessage := Some [validUriRecord];
     TagEvent.maxSize := Some 868;
     TagEvent.type := None;
     TagEvent.techTypes := Some ["android.nfc.tech.Ndef"];
     TagEvent.id := Some [4; 17; 34; 51] |}.

Definition tagC : TagEvent.t :=
  {| TagEvent.ndefMessage := None;
     TagEvent.maxSize := None;
     TagEvent.type := None;
     TagEvent.techTypes := None;
     TagEvent.id := None |}.

Definition clockA : Clock :=
  {| now := 1730000000000; toISOString := "2024-10-27T03:33:20.000Z" |}.
Definition clockB : Clock :=
  {| now := 1730000060000; toISOString := "2024-10-27T03:34:20.000Z" |}.
Definition clockC : Clock :=
  {| now := 1730000120000; toISOString := "2024-10-27T03:35:20.000Z" |}.

Definition itemA : ScannedItem.t := newItemOf tagA clockA.
Definition itemB : ScannedItem.t := newItemOf tagB clockB.
Definition itemC : ScannedItem.t := newItemOf tagC clockC.

(** An Android start-up: the stored archive [items] is read, the NFC
    manager starts, the HCE session is obtained, NFC is found supported and
    enabled. *)
Definition startUp (items : list ScannedItem.t) : list Event :=
  [ Resume 0 (ResolvedItem (Some (Some items)));
    Resume 0 Resolved;
    Resume 1 (ResolvedSession TheHCESession);
    Resume 0 (ResolvedBool true);
    Resume 0 (ResolvedBool true) ].

(** The world that start-up leaves, the world after a press on the scan
    button there, and the world after the item of id [id] has been put on
    the HCE channel with content [text]. *)
Definition readyState (items : list ScannedItem.t) : State :=
  {| nfcStatus := "Ready to Scan";
     isScanning := false;
     scannedItems := Some items;
     emittingItem := None;
     hceSession := Some TheHCESession |}.

Definition startUpLog : list Effect :=
  [SecureStore_getItemAsync; NfcManager_start; NfcManager_isSupported;
   HCESession_getInstance; NfcManager_isEnabled].

Definition readyWorld (items : list ScannedItem.t) : World :=
  {| state := readyState items; isCancelling := false; pending := [];
     log := startUpLog; mounted := true |}.

Definition scanningWorld (items : list ScannedItem.t) : World :=
  readNdef (readyState items) (readyWorld items).

Definition emittingWorld (items : list ScannedItem.t) (id text : string) : World :=
  {| state :=
       {| nfcStatus := "Ready to Scan";
          isScanning := false;
          scannedItems := Some items;
          emittingItem := Some id;
          hceSession := Some TheHCESession |};
     isCancelling := false;
     pending := [];
     log := startUpLog ++ [setApplication {| content := text; writable := false |};
                           setEnabled true];
     mounted := true |}.

(** The archive of items A and B with item A on the HCE channel. *)
Definition emittingA : World :=
  emittingWorld [itemA; itemB] (ScannedItem.id itemA) (ScannedItem.id itemA).

(** ** Further notions *)

(** *** What the component shows *)

(** The scan button: [disabled={!!emittingItem}] and its label. *)
Definition scanButton_disabled (s : State) : bool := emittingItem_truthy s.

Definition scanButton_label (s : State) : string :=
  if isScanning s then "Stop Scanning"
  else if emittingItem_truthy s then "Cannot Scan (Emitting)"
  else "Start Scan".

(** *** Continuations and effects by kind *)

Definition isCancelCont (k : Cont) : bool :=
  match k with
  | K_cancelTechnologyRequest => true
  | _ => false
  end.

Definition isScanCont (k : Cont) : bool :=
  match k with
  | K_requestTechnology _ | K_getTag _ => true
  | _ => false
  end.

(** The continuations that can still bind the HCE session. *)
Definition isSessionCont (k : Cont) : bool :=
  match k with
  | K_start | K_getInstance => true
  | _ => false
  end.

Definition isLoadCont (k : Cont) : bool :=
  match k with
  | K_getItemAsync => true
  | _ => false
  end.

(** The calls to the HCE library. *)
Definition isHce (e : Effect) : bool :=
  match e with
  | HCESession_getInstance | setApplication _ | setEnabled _ => true
  | _ => false
  end.

Definition isSetApplication (e : Effect) : bool :=
  match e with
  | setApplication _ => true
  | _ => false
  end.

Definition isStoreRead (e : Effect) : bool :=
  match e with
  | SecureStore_getItemAsync => true
  | _ => false
  end.

Definition isStoreDelete (e : Effect) : bool :=
  match e with
  | SecureStore_deleteItemAsync => true
  | _ => false
  end.

(** The value last handed to the store by the calls of a log, [acc] when
    there is none. *)
Fixpoint lastWrite (l : list Effect) (acc : option (list ScannedItem.t))
  : option (list ScannedItem.t) :=
  match l with
  | [] => acc
  | SecureStore_setItemAsync v :: rest => lastWrite rest (Some v)
  | _ :: rest => lastWrite rest acc
  end.

(** The stored archive has been read, and what was written since is what
    the component holds. *)
Definition synced (w : World) : Prop :=
  existsb isLoadCont (pending w) = false
  /\ (lastWrite (log w) None = None
      \/ lastWrite (log w) None = scannedItems (state w)).

(** The two flags of a scan are backed by requests that are outstanding. *)
Definition flagsBacked (w : World) : Prop :=
  (isCancelling w = true -> existsb isCancelCont (pending w) = true)
  /\ (isScanning (state w) = true -> existsb isScanCont (pending w) = true).

(** No session is bound and nothing is left that could bind one. *)
Definition neverBound (w : World) : Prop :=
  hceSession (state w) = None /\ existsb isSessionCont (pending w) = false.

(** The continuations of the calls to the HCE library. *)
Definition isHceCont (k : Cont) : bool :=
  match k with
  | K_getInstance | K_setApplication _ | K_setEnabled _ | K_toggleOff
  | K_deleteSetEnabled _ _ => true
  | _ => false
  end.

(** The HCE library has not been touched: no session, no call made, none
    waited for. *)
Definition hceUntouched (w : World) : Prop :=
  hceSession (state w) = None
  /\ existsb isHceCont (pending w) = false
  /\ existsb isHce (log w) = false.

Definition isSetApplicationCont (k : Cont) : bool :=
  match k with
  | K_setApplication _ => true
  | _ => false
  end.

(** Every [setEnabled(true)] of a log comes after a [setApplication];
    [seen] tells whether one came before the log. *)
Fixpoint enabledAfterSet (l : list Effect) (seen : bool) : bool :=
  match l with
  | [] => true
  | setApplication _ :: rest => enabledAfterSet rest true
  | setEnabled true :: rest => seen && enabledAfterSet rest seen
  | _ :: rest => enabledAfterSet rest seen
  end.

Definition applicationFirst (w : World) : Prop :=
  enabledAfterSet (log w) false = true
  /\ (existsb isSetApplicationCont (pending w) = true ->
      existsb isSetApplication (log w) = true).

Definition isStoreWrite (e : Effect) : bool :=
  match e with
  | SecureStore_setItemAsync _ => true
  | _ => false
  end.

(** The store is read once and its key is never deleted. *)
Definition storeDiscipline (w : World) : Prop :=
  List.length (filter isStoreRead (log w)) = 1%nat
  /\ existsb isStoreDelete (log w) = false.

(** *** The checks made at mount *)

Definition isStartCont (k : Cont) : bool :=
  match k with
  | K_start => true
  | _ => false
  end.

Definition isSupportedCont (k : Cont) : bool :=
  match k with
  | K_isSupported => true
  | _ => false
  end.

Definition isStart (e : Effect) : bool :=
  match e with
  | NfcManager_start => true
  | _ => false
  end.

Definition isSupportedQuery (e : Effect) : bool :=
  match e with
  | NfcManager_isSupported => true
  | _ => false
  end.

Definition isEnabledQuery (e : Effect) : bool :=
  match e with
  | NfcManager_isEnabled => true
  | _ => false
  end.

Definition isGetInstance (e : Effect) : bool :=
  match e with
  | HCESession_getInstance => true
  | _ => false
  end.

(** How many elements of a list satisfy [f]. *)
Definition count {A : Type} (f : A -> bool) (l : list A) : nat :=
  List.length (filter f l).

(** The calls of the mount effect that were made, with those that are still
    to come. *)
Definition checkedOnce (w : World) : Prop :=
  (count isStart (log w) = 1
   /\ count isSupportedQuery (log w) + count isStartCont (pending w) <= 1
   /\ count isEnabledQuery (log w) + count isSupportedCont (pending w)
      + count isStartCont (pending w) <= 1
   /\ count isGetInstance (log w) + count isStartCont (pending w) <= 1)%nat.

(** * Properties *)

(** ** The codec round trip *)

Lemma string_of_bytes_of_string (s : string) :
  string_of_bytes (bytes_of_string s) = s.
Proof.
  unfold string_of_bytes, bytes_of_string.
  rewrite map_map.
  rewrite (map_ext _ (fun a => a)).
  - rewrite map_id. apply string_of_list_ascii_of_string.
  - intros a. rewrite Nat2Z.id. apply ascii_nat_embedding.
Qed.

Lemma bytes_of_string_app (s t : string) :
  bytes_of_string (s ++ t) = (bytes_of_string s ++ bytes_of_string t)%list.
Proof.
  unfold bytes_of_string.
  induction s as [|a s IH]; simpl; [reflexivity|].
  now rewrite IH.
Qed.

Lemma utf8_ok_ascii (s : string) :
  forallb (fun a => (nat_of_ascii a <? 128)%nat) (list_ascii_of_string s) = true ->
  Ndef.utf8_ok (bytes_of_string s) = true.
Proof.
  unfold bytes_of_string.
  induction s as [|a s IH]; intros H; [reflexivity|].
  cbn [list_ascii_of_string forallb map] in *.
  apply andb_true_iff in H as [Ha Hs].
  apply Nat.ltb_lt in Ha.
  cbn [Ndef.utf8_ok].
  replace ((0 <=? Z.of_nat (nat_of_ascii a)) && (Z.of_nat (nat_of_ascii a) <? 128))
    with true.
  - now apply IH.
  - symmetry. apply andb_true_iff. split; [apply Z.leb_le | apply Z.ltb_lt]; lia.
Qed.

Lemma printableASCII_lt128 (s : string) :
  printableASCII s ->
  forallb (fun a => (nat_of_ascii a <? 128)%nat) (list_ascii_of_string s) = true.
Proof.
  unfold printableASCII. intros H.
  rewrite forallb_forall in *. intros a Ha. specialize (H a Ha).
  unfold printable in H. apply andb_true_iff in H as [_ H].
  apply Nat.leb_le in H. apply Nat.ltb_lt. lia.
Qed.

(** Text whose bytes are well-formed UTF-8 survives encoding and decoding. *)
Lemma decodePayload_textRecord (s : string) :
  Ndef.utf8_ok (bytes_of_string s) = true ->
  Ndef.text.decodePayload (NdefRecord.payload (Ndef.textRecord s)) = Ok s.
Proof.
  intros Hok.
  unfold Ndef.textRecord, Ndef.text.decodePayload. cbn [NdefRecord.payload].
  change (Z.land (Z.of_nat (String.length Ndef.lang)) 63) with 2.
  change (Z.land (Z.of_nat (String.length Ndef.lang)) 128) with 0.
  cbn [Z.eqb negb].
  change (skipn (Z.to_nat 2) (bytes_of_string Ndef.lang ++ bytes_of_string s))
    with (bytes_of_string s).
  unfold Ndef.bytesToString. rewrite Hok.
  now rewrite string_of_bytes_of_string.
Qed.

Lemma Uint8Array_bytes_of_string (s : string) :
  Uint8Array (bytes_of_string s) = bytes_of_string s.
Proof.
  unfold Uint8Array, bytes_of_string. rewrite map_map.
  apply map_ext. intros a.
  pose proof (nat_ascii_bounded a).
  apply Z.mod_small. lia.
Qed.

(** C4. Codec round trip: for every printable ASCII string [s], the record
    [Ndef.textRecord s] is a well-known text record, decoding its payload
    gives back exactly [s], and so does the text branch of the renderer. *)
Theorem C4_codec_round_trip (s : string) :
  printableASCII s ->
  Ndef.isType (Ndef.textRecord s) Ndef.TNF_WELL_KNOWN Ndef.RTD_TEXT = true
  /\ Ndef.text.decodePayload (NdefRecord.payload (Ndef.textRecord s)) = Ok s
  /\ valueLine Ndef_codec (Ndef.textRecord s) = Ok (Decoded s).
Proof.
  intros Hs.
  assert (Hdec : Ndef.text.decodePayload (NdefRecord.payload (Ndef.textRecord s)) = Ok s).
  { apply decodePayload_textRecord, utf8_ok_ascii, printableASCII_lt128, Hs. }
  split; [reflexivity|]. split; [exact Hdec|].
  unfold valueLine.
  change (Ndef.isType (Ndef.textRecord s) Ndef.TNF_WELL_KNOWN Ndef.RTD_TEXT) with true.
  cbn [text_decodePayload Ndef_codec].
  replace (Uint8Array (NdefRecord.payload (Ndef.textRecord s)))
    with (NdefRecord.payload (Ndef.textRecord s)).
  - now rewrite Hdec.
  - unfold Ndef.textRecord. cbn [NdefRecord.payload].
    change (Z.of_nat (String.length Ndef.lang)
              :: bytes_of_string Ndef.lang ++ bytes_of_string s)%list
      with (bytes_of_string (String (ascii_of_nat 2) Ndef.lang)
              ++ bytes_of_string s)%list.
    rewrite <- bytes_of_string_app.
    now rewrite Uint8Array_bytes_of_string.
Qed.

Lemma C4_codec_round_trip_witness :
  printableASCII "04a1b2c31730000000000"
  /\ Ndef.isType (Ndef.textRecord "04a1b2c31730000000000")
       Ndef.TNF_WELL_KNOWN Ndef.RTD_TEXT = true
  /\ Ndef.text.decodePayload
       (NdefRecord.payload (Ndef.textRecord "04a1b2c31730000000000"))
     = Ok "04a1b2c31730000000000"
  /\ valueLine Ndef_codec (Ndef.textRecord "04a1b2c31730000000000")
     = Ok (Decoded "04a1b2c31730000000000").
Proof.
  split; [reflexivity|].
  apply (C4_codec_round_trip "04a1b2c31730000000000"). reflexivity.
Defined.

(** ** Rendering *)

Lemma append_assoc (a b c : string) : ((a ++ b) ++ c = a ++ (b ++ c))%string.
Proof. induction a as [|x a IH]; simpl; [reflexivity | now rewrite IH]. Qed.

Lemma entries_length (codec : NdefCodec) (records : list NdefRecord.t) (index : nat) :
  List.length (entries codec index records) = List.length records.
Proof.
  revert index. induction records as [|r rest IH]; intros index; simpl;
    [reflexivity | now rewrite IH].
Qed.

(** When every entry is produced, [forEach] appends them in order. *)
Lemma forEach_ok (codec : NdefCodec) (records : list NdefRecord.t) :
  forall index result es,
    entries codec index records = map Ok es ->
    forEach codec index records result = Ok (result ++ concatAll es).
Proof.
  induction records as [|r rest IH]; intros index result es H.
  - destruct es; [|discriminate]. simpl.
    f_equal. clear.
    induction result as [|x s IHs]; simpl; [reflexivity | now rewrite <- IHs].
  - destruct es as [|e es]; [discriminate|].
    simpl in H. injection H as He Hrest.
    cbn [forEach]. rewrite He. cbn [bind].
    rewrite (IH _ _ _ Hrest). cbn [concatAll]. now rewrite append_assoc.
Qed.

(** The first entry that is not produced ends [forEach] with its error. *)
Lemma forEach_throws (codec : NdefCodec) (before : list NdefRecord.t) :
  forall index result r after e,
    (forall r', In r' before -> exists v, valueLine codec r' = Ok v) ->
    valueLine codec r = Throws e ->
    forEach codec index (before ++ r :: after) result = Throws e.
Proof.
  induction before as [|b before IH]; intros index result r after e Hb Hr.
  - cbn [app forEach]. unfold entry. rewrite Hr. reflexivity.
  - cbn [app forEach]. unfold entry at 1.
    destruct (Hb b (or_introl eq_refl)) as [v Hv]. rewrite Hv. cbn [bind].
    apply IH; [|exact Hr]. intros r' Hin. apply Hb. now right.
Qed.

Lemma entries_all_ok (codec : NdefCodec) (records : list NdefRecord.t) :
  forall index,
    (forall r, In r records -> exists v, valueLine codec r = Ok v) ->
    exists es, entries codec index records = map Ok es.
Proof.
  induction records as [|r rest IH]; intros index H.
  - now exists [].
  - destruct (H r (or_introl eq_refl)) as [v Hv].
    destruct (IH (S index)) as [es Hes]; [intros r' Hin; apply H; now right|].
    exists ((header index r ++ showValueLine v)%string :: es).
    cbn [entries map]. unfold entry at 1. rewrite Hv. cbn [bind]. now rewrite Hes.
Qed.

(** The hex line is chosen by the TNF and the type of the record alone. *)
Lemma valueLine_Payload (codec : NdefCodec) (r : NdefRecord.t) (hex : string) :
  valueLine codec r = Ok (Payload hex) <->
  Ndef.isType r Ndef.TNF_WELL_KNOWN Ndef.RTD_TEXT = false
  /\ Ndef.isType r Ndef.TNF_WELL_KNOWN Ndef.RTD_URI = false
  /\ hex = Ndef.bytesToHexString (NdefRecord.payload r).
Proof.
  unfold valueLine.
  destruct (Ndef.isType r Ndef.TNF_WELL_KNOWN Ndef.RTD_TEXT).
  - split; [|intros [H _]; discriminate].
    destruct (text_decodePayload codec _); cbn [bind]; discriminate.
  - destruct (Ndef.isType r Ndef.TNF_WELL_KNOWN Ndef.RTD_URI).
    + split; [|intros [_ [H _]]; discriminate].
      destruct (uri_decodePayload codec _); cbn [bind]; discriminate.
    + split.
      * intros H. injection H as H. auto.
      * intros [_ [_ H]]. now subst.
Qed.

(** C2 (as amended). For every record sequence and whatever the decoders of
    the library do: there is one entry for each record; the hex-payload line
    is chosen by the TNF and type of a record alone, never by a decoding
    failure; when every text and URI payload decodes, the rendering is the
    entries in order; and a payload that does not decode is not caught: the
    first such record aborts the whole rendering with its error. *)
Theorem C2_render_no_fallback (codec : NdefCodec) (records : list NdefRecord.t) :
  List.length (entries codec 0 records) = List.length records
  /\ (forall r hex,
        valueLine codec r = Ok (Payload hex) <->
        Ndef.isType r Ndef.TNF_WELL_KNOWN Ndef.RTD_TEXT = false
        /\ Ndef.isType r Ndef.TNF_WELL_KNOWN Ndef.RTD_URI = false
        /\ hex = Ndef.bytesToHexString (NdefRecord.payload r))
  /\ (records <> [] ->
      (forall r, In r records -> exists v, valueLine codec r = Ok v) ->
      exists es,
        entries codec 0 records = map Ok es
        /\ parseNdefMessage codec (Some (Records records)) = Ok (trim (concatAll es)))
  /\ (forall before r after e,
        records = (before ++ r :: after)%list ->
        (forall r', In r' before -> exists v, valueLine codec r' = Ok v) ->
        valueLine codec r = Throws e ->
        parseNdefMessage codec (Some (Records records)) = Throws e
        /\ forall item,
             ScannedItem.ndefMessage item = records ->
             renderItem_text codec item = Throws e).
Proof.
  split; [apply entries_length|].
  split; [intros r hex; apply valueLine_Payload|].
  split.
  - intros Hne Hall.
    destruct (entries_all_ok codec records 0 Hall) as [es Hes].
    exists es. split; [exact Hes|].
    unfold parseNdefMessage.
    destruct records as [|r rest]; [congruence|].
    rewrite (forEach_ok codec (r :: rest) 0 "" es Hes). reflexivity.
  - intros before r after e Heq Hb Hr. subst records.
    assert (Hp : parseNdefMessage codec (Some (Records (before ++ r :: after))) = Throws e).
    { unfold parseNdefMessage.
      rewrite (forEach_throws codec before 0 "" r after e Hb Hr).
      destruct before; reflexivity. }
    split; [exact Hp|].
    intros item Hitem. unfold renderItem_text. rewrite Hitem.
    destruct before; cbn [app] in Hp |- *; now rewrite Hp.
Qed.

Lemma C2_render_no_fallback_witness :
  (exists es,
     entries Ndef_codec 0 [validTextRecord; validUriRecord] = map Ok es
     /\ parseNdefMessage Ndef_codec (Some (Records [validTextRecord; validUriRecord]))
        = Ok (trim (concatAll es)))
  /\ parseNdefMessage Ndef_codec
       (Some (Records [validTextRecord; validUriRecord; truncatedTextRecord;
                       validUriRecord]))
     = Throws "text payload truncated: no status byte".
Proof.
  split.
  - apply (C2_render_no_fallback Ndef_codec [validTextRecord; validUriRecord]).
    + discriminate.
    + intros r [<-|[<-|[]]]; eexists; vm_compute; reflexivity.
  - refine (proj1 (proj2 (proj2 (proj2 (C2_render_no_fallback Ndef_codec
             [validTextRecord; validUriRecord; truncatedTextRecord; validUriRecord])))
             [validTextRecord; validUriRecord] truncatedTextRecord [validUriRecord]
             _ _ _ _)).
    + reflexivity.
    + intros r [<-|[<-|[]]]; eexists; vm_compute; reflexivity.
    + reflexivity.
Defined.

(** C2 (as stated) fails.  With the codec of the specification the rendering
    of [validTextRecord; truncatedTextRecord; validUriRecord] is aborted by
    the truncated record; and whatever the codec does, the truncated text
    record is not shown as hex payload. *)
Lemma C2_counterexample :
  parseNdefMessage Ndef_codec
    (Some (Records [validTextRecord; truncatedTextRecord; validUriRecord]))
  = Throws "text payload truncated: no status byte"
  /\ ~ (exists codec hex, valueLine codec truncatedTextRecord = Ok (Payload hex)).
Proof.
  split; [reflexivity|].
  intros [codec [hex H]].
  apply valueLine_Payload in H as [H _]. discriminate.
Qed.

(** ** Runs of the component *)

Lemma nth_error_last {A : Type} (l : list A) (k : A) :
  nth_error (l ++ [k]) (List.length l) = Some k.
Proof. induction l as [|a l IH]; simpl; [reflexivity | exact IH]. Qed.

Lemma remove_nth_last {A : Type} (l : list A) (k : A) :
  remove_nth (List.length l) (l ++ [k]) = l.
Proof. induction l as [|a l IH]; simpl; [reflexivity | now rewrite IH]. Qed.

Lemma remove_nth_In {A : Type} (i : nat) (l : list A) (x : A) :
  In x (remove_nth i l) -> In x l.
Proof.
  revert i. induction l as [|a l IH]; intros i H; [destruct i; exact H|].
  destruct i as [|i]; simpl in H.
  - now right.
  - destruct H as [H|H]; [now left | right; eapply IH; eauto].
Qed.

Lemma remove_nth_app {A : Type} (i : nat) (l : list A) (k : A) :
  (i < List.length l)%nat ->
  remove_nth i (l ++ [k]) = (remove_nth i l ++ [k])%list
  /\ S (List.length (remove_nth i l)) = List.length l.
Proof.
  revert i. induction l as [|a l IH]; intros i Hi; simpl in Hi; [lia|].
  destruct i as [|i]; simpl; [split; reflexivity|].
  destruct (IH i) as [H1 H2]; [lia|]. now rewrite H1, H2.
Qed.

Lemma existsb_remove_nth {A : Type} (f : A -> bool) (i : nat) (l : list A) :
  existsb f l = false -> existsb f (remove_nth i l) = false.
Proof.
  revert i. induction l as [|a l IH]; intros i H; [destruct i; reflexivity|].
  cbn in H. apply orb_false_iff in H as [Ha Hl].
  destruct i as [|i]; cbn; [exact Hl|]. now rewrite Ha, IH.
Qed.

Lemma existsb_nth_error {A : Type} (f : A -> bool) (i : nat) (l : list A) (a : A) :
  nth_error l i = Some a -> f a = true -> existsb f l = true.
Proof.
  intros Hn Ha. apply existsb_exists. exists a. split; [|exact Ha].
  eapply nth_error_In; eauto.
Qed.

(** Resuming the continuation an [await] has just queued. *)
Lemma drop_pending_await (e : Effect) (k : Cont) (w : World) :
  nth_error (pending (await e k w)) (List.length (pending w)) = Some k
  /\ drop_pending (List.length (pending w)) (await e k w) = perform e w.
Proof.
  split; [apply nth_error_last|].
  unfold drop_pending, await, perform; simpl. now rewrite remove_nth_last.
Qed.

Lemma run_app codec android (l1 l2 : list Event) : forall w,
  run codec android w (l1 ++ l2) =
  match run codec android w l1 with
  | Some w1 => run codec android w1 l2
  | None => None
  end.
Proof.
  induction l1 as [|ev l1 IH]; intros w; simpl; [reflexivity|].
  destruct (step codec android w ev); [apply IH | reflexivity].
Qed.

Lemma step_resume_await codec android e k w r n :
  mounted w = true -> n = List.length (pending w) ->
  step codec android (await e k w) (Resume n r) = resume android k r (perform e w).
Proof.
  intros Hm ->. unfold step. change (mounted (await e k w)) with (mounted w).
  rewrite Hm. cbn [negb].
  destruct (drop_pending_await e k w) as [H1 H2]. now rewrite H1, H2.
Qed.

Lemma step_Resume codec android w i k r :
  mounted w = true ->
  nth_error (pending w) i = Some k ->
  step codec android w (Resume i r) = resume android k r (drop_pending i w).
Proof. intros Hm Hk. unfold step. now rewrite Hm, Hk. Qed.

Lemma step_Press_scan codec android w :
  mounted w = true -> emittingItem_truthy (state w) = false ->
  step codec android w Press_scan = Some (readNdef (state w) w).
Proof. intros Hm He. unfold step. now rewrite Hm, He. Qed.

Lemma step_Press_emit codec android w row item :
  mounted w = true ->
  android = true ->
  isScanning (state w) = false ->
  nth_error (items_or_empty (state w)) row = Some item ->
  step codec android w (Press_emit row) = Some (handleEmitItem codec (state w) item w).
Proof. intros Hm -> Hs Hrow. unfold step. now rewrite Hm, Hs, Hrow. Qed.

Lemma step_Press_delete codec android w row item :
  mounted w = true ->
  nth_error (items_or_empty (state w)) row = Some item ->
  emittingItem_is (state w) (ScannedItem.id item) = false ->
  step codec android w (Press_delete row)
  = Some (handleDeleteItem_filter (state w) (ScannedItem.id item) w).
Proof.
  intros Hm Hrow He. unfold step. rewrite Hm, Hrow. cbn [negb].
  unfold handleDeleteItem. now rewrite He.
Qed.

(** The cases of a step: the five events. *)
Ltac step_cases H :=
  unfold step in H;
  match type of H with
  | (if negb (mounted ?w) then _ else _) = _ =>
      destruct (negb (mounted w)); [discriminate|]
  end;
  match type of H with
  | match ?ev with Press_scan => _ | _ => _ end = _ =>
      destruct ev as [|?row|?row|?i ?r|]
  end.

(** The cases of a resumed continuation [k]: the responses it takes, with
    the world it leaves substituted in the goal. *)
Ltac resume_cases H :=
  match type of H with
  | resume _ ?k ?r _ = Some _ =>
      destruct k; cbn [resume] in H;
      unfold resume_getItemAsync, resume_start, resume_getInstance,
        resume_isSupported, resume_isEnabled, resume_cancelTechnologyRequest,
        resume_requestTechnology, resume_getTag, resume_deleteSetEnabled,
        resume_toggleOff, resume_setApplication, resume_setEnabled in H;
      destruct r as [| ?ex | [|] | ?session | [?tag|] ?clock | [?parsed|]];
      try discriminate; injection H as <-
  end.

Lemma readyWorld_reachable codec (items : list ScannedItem.t) :
  run codec true mount (startUp items) = Some (readyWorld items).
Proof. reflexivity. Qed.

Lemma scanningWorld_reachable codec (items : list ScannedItem.t) :
  run codec true mount (startUp items ++ [Press_scan]) = Some (scanningWorld items).
Proof. reflexivity. Qed.

Lemma emittingA_reachable :
  run Ndef_codec true mount (startUp [itemA; itemB] ++ emitEvents 0 0) = Some emittingA.
Proof. reflexivity. Qed.

(** ** The archive *)

Lemma append_length (a b : string) :
  String.length (a ++ b) = (String.length a + String.length b)%nat.
Proof. induction a as [|x a IH]; simpl; [reflexivity | now rewrite IH]. Qed.

Lemma byteToHex_length (b : Z) : String.length (Ndef.byteToHex b) = 2%nat.
Proof.
  unfold Ndef.byteToHex.
  assert (H : forallb (fun k => (String.length (padStart0 2 (toString16 (Z.of_nat k))) =? 2)%nat)
                (seq 0 256) = true) by (vm_compute; reflexivity).
  rewrite forallb_forall in H.
  pose proof (Z.mod_pos_bound b 256 ltac:(lia)) as Hb.
  specialize (H (Z.to_nat (b mod 256))).
  rewrite Z2Nat.id in H by lia.
  apply Nat.eqb_eq, H, in_seq. lia.
Qed.

Lemma bytesToHexString_length (bytes : list Z) :
  String.length (Ndef.bytesToHexString bytes) = (2 * List.length bytes)%nat.
Proof.
  unfold Ndef.bytesToHexString.
  induction bytes as [|b bytes IH]; [reflexivity|].
  cbn [map concatAll List.length]. rewrite append_length, byteToHex_length, IH. lia.
Qed.


Lemma scan_run codec android w tag clock :
  mounted w = true -> isScanning (state w) = false -> emittingItem_truthy (state w) = false ->
  run codec android w (scanEvents (List.length (pending w)) tag clock) =
  Some (readNdef_finally (setNfcStatus "Scan successful!"
         (setScannedItems (Some (newItemOf tag clock :: items_or_empty (state w)))
            (perform NfcManager_getTag (perform NfcManager_requestTechnology
               (setNfcStatus "Scanning..." (setIsScanning true w))))))).
Proof.
  intros Hm Hs He.
  unfold scanEvents. cbn [run].
  rewrite (step_Press_scan codec android w Hm He).
  unfold readNdef. rewrite Hs, He. cbv zeta.
  rewrite (step_resume_await codec android _ _
             (setNfcStatus "Scanning..." (setIsScanning true w)) _ _ Hm eq_refl).
  cbn [resume resume_requestTechnology].
  rewrite (step_resume_await codec android _ _
             (perform NfcManager_requestTechnology
                (setNfcStatus "Scanning..." (setIsScanning true w))) _ _ Hm eq_refl).
  reflexivity.
Qed.

(** The world a scan that finds [tag] leaves. *)
Lemma scan_run_facts codec android w tag clock :
  mounted w = true -> isScanning (state w) = false -> emittingItem_truthy (state w) = false ->
  exists w',
    run codec android w (scanEvents (List.length (pending w)) tag clock) = Some w'
    /\ state w' =
       {| nfcStatus := "Scan successful!"; isScanning := false;
          scannedItems := Some (newItemOf tag clock :: items_or_empty (state w));
          emittingItem := emittingItem (state w);
          hceSession := hceSession (state w) |}
    /\ isCancelling w' = isCancelling w
    /\ pending w' = pending w
    /\ mounted w' = true
    /\ log w' = (log w ++ [NfcManager_requestTechnology; NfcManager_getTag;
                           SecureStore_setItemAsync
                             (newItemOf tag clock :: items_or_empty (state w))])%list.
Proof.
  intros Hm Hs He. eexists. split; [apply scan_run; assumption|].
  cbn. rewrite <- !app_assoc. repeat split; try reflexivity. exact Hm.
Qed.



(** C8. Item id derivation: every scan that finds a tag puts at the head of
    the archive, and hands to the store, an item whose id is the hex
    encoding of the tag id (two digits for each byte) followed by the
    decimal timestamp when the tag has an id, and the decimal timestamp
    alone when it has none.  This holds of every completion of [getTag]
    with a tag, and so of the scan run from an idle world. *)
Theorem C8_item_id (codec : NdefCodec) (android : bool) (w : World)
    (tag : TagEvent.t) (clock : Clock) :
  mounted w = true ->
  isScanning (state w) = false ->
  emittingItem_truthy (state w) = false ->
  (forall env w0,
     exists w1 item,
       resume_getTag env (ResolvedTag (Some tag) clock) w0 = Some w1
       /\ scannedItems (state w1) = Some (item :: items_or_empty env)
       /\ In (SecureStore_setItemAsync (item :: items_or_empty env)) (log w1)
       /\ ScannedItem.id item = idFromSpec (TagEvent.id tag) (now clock))
  /\ exists w' item,
       run codec android w (scanEvents (List.length (pending w)) tag clock) = Some w'
       /\ nfcStatus (state w') = "Scan successful!"
       /\ scannedItems (state w') = Some (item :: items_or_empty (state w))
       /\ log w' = (log w ++ [NfcManager_requestTechnology; NfcManager_getTag;
                              SecureStore_setItemAsync (item :: items_or_empty (state w))])%list
       /\ ScannedItem.createdAt item = toISOString clock
       /\ ScannedItem.id item = idFromSpec (TagEvent.id tag) (now clock)
       /\ (forall bytes,
             String.length (Ndef.bytesToHexString bytes) = (2 * List.length bytes)%nat).
Proof.
  intros Hm Hs He. split.
  - intros env w0. eexists. exists (newItemOf tag clock).
    split; [reflexivity|]. split; [reflexivity|]. split; [|reflexivity].
    cbn. apply in_or_app. right. now left.
  - destruct (scan_run_facts codec android w tag clock Hm Hs He)
      as (w' & Hrun & Hst & _ & _ & _ & Hlog).
    exists w', (newItemOf tag clock).
    split; [exact Hrun|]. rewrite Hst. cbn [nfcStatus scannedItems].
    repeat (split; [reflexivity || exact Hlog|]).
    apply bytesToHexString_length.
Qed.

Lemma C8_item_id_witness :
  mounted mount = true
  /\ isScanning (state mount) = false
  /\ emittingItem_truthy (state mount) = false
  /\ exists w' item,
       run Ndef_codec true mount (scanEvents 2 tagA clockA) = Some w'
       /\ scannedItems (state w') = Some [item]
       /\ ScannedItem.id item = "04a1b2c31730000000000".
Proof.
  repeat (split; [reflexivity|]).
  destruct (C8_item_id Ndef_codec true mount tagA clockA eq_refl eq_refl eq_refl)
    as (_ & w' & item & Hrun & _ & Hitems & _ & _ & Hid & _).
  exists w', item. repeat split; assumption.
Defined.

(** ** Cancellation *)

(** A scan continuation whose promise is rejected runs [catch] and
    [finally]. *)
Lemma resume_scan_Rejected android k env e w :
  k = K_requestTechnology env \/ k = K_getTag env ->
  resume android k (Rejected e) w = Some (readNdef_finally (readNdef_catch e w)).
Proof. intros [->| ->]; reflexivity. Qed.

Lemma readNdef_catch_status e w :
  nfcStatus (state (readNdef_catch e w)) =
  if isCancelling w || includes e "UserCancel" || includes e "cancelled"
  then status_cancelled else status_failed.
Proof.
  unfold readNdef_catch.
  destruct (isCancelling w || includes e "UserCancel" || includes e "cancelled");
    reflexivity.
Qed.

Lemma readNdef_catch_rest e w :
  isCancelling (readNdef_catch e w) = isCancelling w
  /\ pending (readNdef_catch e w) = pending w
  /\ mounted (readNdef_catch e w) = mounted w
  /\ log (readNdef_catch e w) = log w.
Proof.
  unfold readNdef_catch.
  destruct (isCancelling w || includes e "UserCancel" || includes e "cancelled");
    repeat split; reflexivity.
Qed.

Lemma statuses_distinct :
  status_cancelled <> status_failed
  /\ status_cancelled <> status_noTag
  /\ status_failed <> status_noTag.
Proof. repeat split; discriminate. Qed.

(** Stop pressed while a scan waits at position [i]: the discovery is
    rejected while the cancellation request is outstanding. *)
Lemma stop_then_reject codec android w i k env e rc :
  mounted w = true ->
  isScanning (state w) = true ->
  emittingItem_truthy (state w) = false ->
  nth_error (pending w) i = Some k ->
  k = K_requestTechnology env \/ k = K_getTag env ->
  rc = Resolved \/ (exists e', rc = Rejected e') ->
  exists w',
    run codec android w
      [Press_scan; Resume i (Rejected e); Resume (List.length (pending w) - 1) rc]
    = Some w'
    /\ nfcStatus (state w') = status_cancelled
    /\ isScanning (state w') = false
    /\ isCancelling w' = false
    /\ pending w' = remove_nth i (pending w).
Proof.
  intros Hm Hs He Hk Hscan Hrc.
  assert (Hi : (i < List.length (pending w))%nat).
  { apply nth_error_Some. congruence. }
  destruct (remove_nth_app i (pending w) K_cancelTechnologyRequest Hi) as [Hrem Hlen].
  cbn [run]. rewrite (step_Press_scan codec android w Hm He).
  unfold readNdef. rewrite Hs. cbv zeta.
  set (w1 := await NfcManager_cancelTechnologyRequest K_cancelTechnologyRequest
               (set_isCancelling true w)).
  assert (Hk1 : nth_error (pending w1) i = Some k).
  { cbn. rewrite nth_error_app1 by exact Hi. exact Hk. }
  rewrite (step_Resume codec android w1 i k _ Hm Hk1).
  rewrite (resume_scan_Rejected android k env e _ Hscan).
  set (w2 := readNdef_finally (readNdef_catch e (drop_pending i w1))).
  destruct (readNdef_catch_rest e (drop_pending i w1)) as (Hc2 & Hp2 & Hm2 & _).
  assert (Hp : pending w2 = (remove_nth i (pending w) ++ [K_cancelTechnologyRequest])%list).
  { unfold w2. cbn [readNdef_finally setIsScanning withState pending].
    rewrite Hp2. cbn. exact Hrem. }
  assert (Hmw2 : mounted w2 = true).
  { unfold w2. cbn [readNdef_finally setIsScanning withState mounted].
    rewrite Hm2. exact Hm. }
  assert (Hst2 : nfcStatus (state w2) = status_cancelled).
  { unfold w2. cbn [readNdef_finally setIsScanning withState state nfcStatus].
    rewrite readNdef_catch_status. reflexivity. }
  assert (Hk2 : nth_error (pending w2) (List.length (pending w) - 1)
                = Some K_cancelTechnologyRequest).
  { rewrite Hp. replace (List.length (pending w) - 1)%nat
      with (List.length (remove_nth i (pending w))) by lia.
    apply nth_error_last. }
  rewrite (step_Resume codec android w2 _ _ rc Hmw2 Hk2).
  cbn [resume]. unfold resume_cancelTechnologyRequest.
  clearbody w2.
  assert (Hfin : forall w3, w3 = setIsScanning false (set_isCancelling false
                   (drop_pending (List.length (pending w) - 1) w2)) ->
            nfcStatus (state w3) = status_cancelled
            /\ isScanning (state w3) = false
            /\ isCancelling w3 = false
            /\ pending w3 = remove_nth i (pending w)).
  { intros w3 ->. cbn. rewrite Hst2, Hp.
    replace (List.length (pending w) - 1)%nat
      with (List.length (remove_nth i (pending w))) by lia.
    rewrite remove_nth_last. repeat split; reflexivity. }
  destruct Hrc as [->|[e' ->]]; eexists; (split; [reflexivity|]); apply Hfin; reflexivity.
Qed.

(** Stop pressed while a scan waits at position [i]: the cancellation
    request settles first, then the discovery is rejected with an error of
    the cancellation class. *)
Lemma stop_then_cancel_class codec android w i k env e rc :
  mounted w = true ->
  isScanning (state w) = true ->
  emittingItem_truthy (state w) = false ->
  nth_error (pending w) i = Some k ->
  k = K_requestTechnology env \/ k = K_getTag env ->
  rc = Resolved \/ (exists e', rc = Rejected e') ->
  includes e "UserCancel" || includes e "cancelled" = true ->
  exists w',
    run codec android w
      [Press_scan; Resume (List.length (pending w)) rc; Resume i (Rejected e)]
    = Some w'
    /\ nfcStatus (state w') = status_cancelled
    /\ isScanning (state w') = false
    /\ isCancelling w' = false
    /\ pending w' = remove_nth i (pending w).
Proof.
  intros Hm Hs He Hk Hscan Hrc Hsig.
  cbn [run]. rewrite (step_Press_scan codec android w Hm He).
  unfold readNdef. rewrite Hs. cbv zeta.
  rewrite (step_resume_await codec android _ _ (set_isCancelling true w) rc _ Hm eq_refl).
  cbn [resume]. unfold resume_cancelTechnologyRequest.
  set (w2 := setIsScanning false (set_isCancelling false
               (perform NfcManager_cancelTechnologyRequest (set_isCancelling true w)))).
  assert (Hw2 : match rc with
                | Resolved | Rejected _ => Some w2
                | _ => None
                end = Some w2).
  { destruct Hrc as [->|[e' ->]]; reflexivity. }
  fold w2. rewrite Hw2.
  rewrite (step_Resume codec android w2 i k _ Hm Hk).
  rewrite (resume_scan_Rejected android k env e _ Hscan).
  eexists. split; [reflexivity|].
  destruct (readNdef_catch_rest e (drop_pending i w2)) as (Hc & Hp & _ & _).
  cbn [readNdef_finally setIsScanning withState state nfcStatus isScanning
         isCancelling pending].
  rewrite readNdef_catch_status, Hc, Hp.
  change (isCancelling (drop_pending i w2)) with false.
  cbn [orb]. rewrite Hsig. repeat split; reflexivity.
Qed.

(** X20. How the end of a scan is classified.  Stop is pressed while the
    scan waits: when the discovery is rejected while the cancellation call
    is outstanding the status is "Scan cancelled." whatever the error; when
    it is rejected after the call has settled the status is "Scan
    cancelled." for an error text that contains UserCancel or cancelled.  A
    discovery that completes with no tag ends with "No tag found. Try
    again.".  A rejection consumed while the cancellation flag is clear,
    with a text that contains neither word, ends with "Scan failed. Please
    try again.".  The three statuses are pairwise different, and a scan
    continuation that ends without a tag sets exactly one of them and
    clears [isScanning]. *)
Theorem scan_endings_classified (codec : NdefCodec) (android : bool) (w : World)
    (i : nat) (k : Cont) (env : State) (e : string) (rc : Response) :
  mounted w = true ->
  isScanning (state w) = true ->
  emittingItem_truthy (state w) = false ->
  nth_error (pending w) i = Some k ->
  k = K_requestTechnology env \/ k = K_getTag env ->
  rc = Resolved \/ (exists e', rc = Rejected e') ->
  (exists w',
     run codec android w
       [Press_scan; Resume i (Rejected e); Resume (List.length (pending w) - 1) rc]
     = Some w'
     /\ nfcStatus (state w') = status_cancelled
     /\ nfcStatus (state w') <> status_failed
     /\ nfcStatus (state w') <> status_noTag
     /\ isScanning (state w') = false
     /\ isCancelling w' = false)
  /\ (includes e "UserCancel" || includes e "cancelled" = true ->
      exists w',
        run codec android w
          [Press_scan; Resume (List.length (pending w)) rc; Resume i (Rejected e)]
        = Some w'
        /\ nfcStatus (state w') = status_cancelled
        /\ isScanning (state w') = false
        /\ isCancelling w' = false)
  /\ (forall w0 clock,
      mounted w0 = true ->
      isScanning (state w0) = false ->
      emittingItem_truthy (state w0) = false ->
      exists w',
        run codec android w0
          [Press_scan; Resume (List.length (pending w0)) Resolved;
           Resume (List.length (pending w0)) (ResolvedTag None clock)]
        = Some w'
        /\ nfcStatus (state w') = status_noTag
        /\ isScanning (state w') = false)
  /\ (isCancelling w = false ->
      includes e "UserCancel" = false ->
      includes e "cancelled" = false ->
      exists w',
        run codec android w [Resume i (Rejected e)] = Some w'
        /\ nfcStatus (state w') = status_failed
        /\ isScanning (state w') = false)
  /\ (status_cancelled <> status_failed
      /\ status_cancelled <> status_noTag
      /\ status_failed <> status_noTag)
  /\ (forall r w0 w1,
        resume android k r w0 = Some w1 ->
        (exists tag clock, r = ResolvedTag (Some tag) clock)
        \/ (r = Resolved /\ k = K_requestTechnology env)
        \/ (isScanning (state w1) = false
            /\ (nfcStatus (state w1) = status_cancelled
                \/ nfcStatus (state w1) = status_failed
                \/ nfcStatus (state w1) = status_noTag))).
Proof.
  intros Hm Hs He Hk Hscan Hrc.
  split; [|split; [|split; [|split; [|split]]]].
  - destruct (stop_then_reject codec android w i k env e rc Hm Hs He Hk Hscan Hrc)
      as (w' & Hrun & Hst & Hsc & Hc & _).
    exists w'. rewrite Hst. repeat split; try assumption; discriminate.
  - intros Hsig.
    destruct (stop_then_cancel_class codec android w i k env e rc Hm Hs He Hk Hscan Hrc Hsig)
      as (w' & Hrun & Hst & Hsc & Hc & _).
    exists w'. repeat split; assumption.
  - intros w0 clock Hm0 Hs0 He0.
    cbn [run]. rewrite (step_Press_scan codec android w0 Hm0 He0).
    unfold readNdef. rewrite Hs0, He0. cbv zeta.
    rewrite (step_resume_await codec android _ _
               (setNfcStatus "Scanning..." (setIsScanning true w0)) _ _ Hm0 eq_refl).
    cbn [resume resume_requestTechnology].
    rewrite (step_resume_await codec android _ _
               (perform NfcManager_requestTechnology
                  (setNfcStatus "Scanning..." (setIsScanning true w0))) _ _ Hm0 eq_refl).
    eexists. split; [reflexivity|]. split; reflexivity.
  - intros Hc Hu Hcl.
    cbn [run]. rewrite (step_Resume codec android w i k _ Hm Hk).
    rewrite (resume_scan_Rejected android k env e _ Hscan).
    eexists. split; [reflexivity|].
    cbn [readNdef_finally setIsScanning withState state nfcStatus isScanning].
    rewrite readNdef_catch_status.
    change (isCancelling (drop_pending i w)) with (isCancelling w).
    rewrite Hc, Hu, Hcl. split; reflexivity.
  - exact statuses_distinct.
  - intros r w0 w1 Hres.
    assert (Hcatch : forall ex,
              nfcStatus (state (readNdef_finally (readNdef_catch ex w0))) = status_cancelled
              \/ nfcStatus (state (readNdef_finally (readNdef_catch ex w0))) = status_failed).
    { intros ex.
      cbn [readNdef_finally setIsScanning withState state nfcStatus].
      rewrite readNdef_catch_status.
      destruct (isCancelling w0 || includes ex "UserCancel" || includes ex "cancelled");
        [left | right]; reflexivity. }
    destruct Hscan as [->| ->]; cbn [resume] in Hres.
    + unfold resume_requestTechnology in Hres.
      destruct r; try discriminate; injection Hres as <-.
      * right. left. split; reflexivity.
      * right. right. split; [reflexivity|].
        destruct (Hcatch e0) as [H|H]; [left | right; left]; exact H.
    + unfold resume_getTag in Hres.
      destruct r as [| ex | | |[tag|] clock|]; try discriminate; injection Hres as <-.
      * right. right. split; [reflexivity|].
        destruct (Hcatch ex) as [H|H]; [left | right; left]; exact H.
      * left. now exists tag, clock.
      * right. right. split; [reflexivity|]. right. right. reflexivity.
Qed.

Lemma scan_endings_classified_witness :
  mounted (scanningWorld []) = true
  /\ isScanning (state (scanningWorld [])) = true
  /\ emittingItem_truthy (state (scanningWorld [])) = false
  /\ nth_error (pending (scanningWorld [])) 0 = Some (K_requestTechnology (readyState []))
  /\ exists w',
       run Ndef_codec true (scanningWorld [])
         [Press_scan; Resume 0 (Rejected "Error"); Resume 0 Resolved] = Some w'
       /\ nfcStatus (state w') = "Scan cancelled.".
Proof.
  repeat (split; [reflexivity|]).
  destruct (scan_endings_classified Ndef_codec true (scanningWorld []) 0
              (K_requestTechnology (readyState [])) (readyState []) "Error" Resolved
              eq_refl eq_refl eq_refl eq_refl (or_introl eq_refl) (or_introl eq_refl))
    as ((w' & Hrun & Hst & _) & _).
  exists w'. split; assumption.
Defined.

(** C3 (violated by the code). The cancellation flag is set only while the
    call to [cancelTechnologyRequest] is outstanding, and the [catch] of the
    scan reads it when the discovery is rejected.  So a scan the user
    stopped is reported as failed when the cancellation call settles before
    the discovery is rejected with a text that names no cancellation: after
    start-up the user starts a scan and stops it, the cancellation call
    resolves, then the technology request is rejected with "Error"; the scan
    ends with "Scan failed. Please try again." and no tag was found.  With
    the same stop, a discovery that completes with no tag ends with "No tag
    found. Try again.".  And a scan the user never stopped, rejected with
    "Error: Tag was lost" while the cancellation call of the scan before it
    is still outstanding, ends with "Scan cancelled.". *)
Theorem C3_stopped_scan_reported_failed :
  (exists w,
     run Ndef_codec true mount
       (startUp [] ++ [Press_scan; Press_scan; Resume 1 Resolved;
                       Resume 0 (Rejected "Error")])
     = Some w
     /\ nfcStatus (state w) = status_failed
     /\ nfcStatus (state w) <> status_cancelled
     /\ isScanning (state w) = false
     /\ isCancelling w = false
     /\ pending w = []
     /\ scannedItems (state w) = Some []
     /\ log w = (startUpLog ++ [NfcManager_requestTechnology;
                                NfcManager_cancelTechnologyRequest])%list)
  /\ (exists w,
        run Ndef_codec true mount
          (startUp [] ++ [Press_scan; Press_scan; Resume 0 Resolved;
                          Resume 1 (ResolvedTag None clockA); Resume 0 Resolved])
        = Some w
        /\ nfcStatus (state w) = status_noTag
        /\ isScanning (state w) = false
        /\ pending w = []
        /\ scannedItems (state w) = Some []
        /\ log w = (startUpLog ++ [NfcManager_requestTechnology;
                                   NfcManager_cancelTechnologyRequest;
                                   NfcManager_getTag])%list)
  /\ (exists w,
        run Ndef_codec true mount
          (startUp [] ++ [Press_scan; Press_scan; Resume 0 (Rejected "Error");
                          Press_scan; Resume 1 (Rejected "Error: Tag was lost")])
        = Some w
        /\ nfcStatus (state w) = status_cancelled
        /\ includes "Error: Tag was lost" "UserCancel" = false
        /\ includes "Error: Tag was lost" "cancelled" = false
        /\ pending w = [K_cancelTechnologyRequest]
        /\ log w = (startUpLog ++ [NfcManager_requestTechnology;
                                   NfcManager_cancelTechnologyRequest;
                                   NfcManager_requestTechnology])%list).
Proof.
  split; [|split].
  - eexists. split; [vm_compute; reflexivity|]. split; [reflexivity|].
    split; [discriminate|]. repeat split; reflexivity.
  - eexists. split; [vm_compute; reflexivity|]. repeat split; reflexivity.
  - eexists. split; [vm_compute; reflexivity|]. repeat split; vm_compute; reflexivity.
Qed.

(** ** The HCE session *)

Lemma noSession_await (e : Effect) (k : Cont) (w : World) :
  k <> K_getInstance -> noSession w -> noSession (await e k w).
Proof.
  intros Hk [Hs Hp]. split; [exact Hs|].
  simpl. intros Hin. apply in_app_or in Hin as [Hin|[Hin|[]]]; [auto | congruence].
Qed.

Lemma noSession_state (w w' : World) :
  hceSession (state w') = hceSession (state w) ->
  pending w' = pending w ->
  noSession w -> noSession w'.
Proof. intros Hs Hp [H1 H2]. split; [congruence | now rewrite Hp]. Qed.

Ltac noSession_crush :=
  repeat match goal with
    | |- noSession (await _ _ _) => apply noSession_await; [discriminate|]
    | |- noSession (readNdef_catch ?e ?w) =>
        unfold readNdef_catch;
        destruct (isCancelling w || includes e "UserCancel" || includes e "cancelled")
    | |- noSession (checkNfcSupport _) => unfold checkNfcSupport
    | |- noSession (?f ?w) =>
        apply (noSession_state w (f w) eq_refl eq_refl)
    end.

Lemma noSession_step codec (w w' : World) (ev : Event) :
  noSession w -> step codec false w ev = Some w' -> noSession w'.
Proof.
  intros Hw Hstep. step_cases Hstep.
  - destruct (emittingItem_truthy (state w)); [discriminate|].
    injection Hstep as <-. unfold readNdef.
    destruct (isScanning (state w)); [|destruct (emittingItem_truthy (state w))];
      noSession_crush; exact Hw.
  - discriminate.
  - destruct (nth_error (items_or_empty (state w)) row); [|discriminate].
    injection Hstep as <-. unfold handleDeleteItem.
    destruct (emittingItem_is _ _); [destruct (hceSession (state w))|];
      noSession_crush; exact Hw.
  - destruct (nth_error (pending w) i) as [k|] eqn:Hk; [|discriminate].
    assert (Hd : noSession (drop_pending i w)).
    { destruct Hw as [H1 H2]. split; [exact H1|].
      intros Hin. apply H2. eapply remove_nth_In. exact Hin. }
    assert (Hne : k <> K_getInstance).
    { intros ->. apply (proj2 Hw). eapply nth_error_In; eauto. }
    resume_cases Hstep; try congruence; noSession_crush; exact Hd.
  - injection Hstep as <-. unfold cleanup. cbn [hceSession initialState].
    noSession_crush. exact Hw.
Qed.

Lemma noSession_run codec (evs : list Event) :
  forall w w', noSession w -> run codec false w evs = Some w' -> noSession w'.
Proof.
  induction evs as [|ev evs IH]; intros w w' Hw Hrun; simpl in Hrun.
  - now injection Hrun as <-.
  - destruct (step codec false w ev) as [w1|] eqn:Hstep; [|discriminate].
    eapply IH; [|exact Hrun]. eapply noSession_step; eauto.
Qed.

(** Off Android every reachable state has no HCE session. *)
Lemma reachable_noSession codec (w : World) :
  reachable codec false w -> hceSession (state w) = None.
Proof.
  intros [evs Hrun].
  refine (proj1 (noSession_run codec evs mount w _ Hrun)).
  split; [reflexivity|]. simpl. intros [H|[H|[]]]; discriminate.
Qed.

Lemma sessionBound_session (w : World) :
  hceSession (state w) <> None -> sessionBound w.
Proof. intros H. now left. Qed.

Lemma sessionBound_state (w w' : World) :
  hceSession (state w') = hceSession (state w) ->
  (emittingItem (state w) = None -> emittingItem (state w') = None) ->
  pending w' = pending w ->
  sessionBound w -> sessionBound w'.
Proof.
  intros Hh He Hp [H|[H1 H2]]; [left; congruence|].
  right. split; [auto | now rewrite Hp].
Qed.

Lemma sessionBound_await (e : Effect) (k : Cont) (w : World) :
  isEnabling k = false -> sessionBound w -> sessionBound (await e k w).
Proof.
  intros Hk [H|[H1 H2]]; [now left|]. right. split; [exact H1|].
  cbn. rewrite existsb_app, H2. cbn. now rewrite Hk.
Qed.

Lemma sessionBound_drop_pending (i : nat) (w : World) :
  sessionBound w -> sessionBound (drop_pending i w).
Proof.
  intros [H|[H1 H2]]; [now left|]. right. split; [exact H1|].
  cbn. now apply existsb_remove_nth.
Qed.

Ltac sessionBound_crush :=
  repeat match goal with
    | |- sessionBound (await _ _ _) => apply sessionBound_await; [reflexivity|]
    | |- sessionBound (readNdef_catch ?e ?w) =>
        unfold readNdef_catch;
        destruct (isCancelling w || includes e "UserCancel" || includes e "cancelled")
    | |- sessionBound (checkNfcSupport _) => unfold checkNfcSupport
    | |- sessionBound (handleDeleteItem_filter _ _ _) => unfold handleDeleteItem_filter
    | |- sessionBound (setEmittingItem None ?w) =>
        apply (sessionBound_state w (setEmittingItem None w) eq_refl (fun _ => eq_refl)
                 eq_refl)
    | |- sessionBound (?f ?w) =>
        apply (sessionBound_state w (f w) eq_refl (fun H => H) eq_refl)
    end.

Lemma sessionBound_step codec android (w w' : World) (ev : Event) :
  sessionBound w -> step codec android w ev = Some w' -> sessionBound w'.
Proof.
  intros Hw Hstep. step_cases Hstep.
  - destruct (emittingItem_truthy (state w)) eqn:Ht; [discriminate|].
    injection Hstep as <-. unfold readNdef. rewrite Ht.
    destruct (isScanning (state w)); sessionBound_crush; exact Hw.
  - destruct (android && negb (isScanning (state w))); [|discriminate].
    destruct (nth_error (items_or_empty (state w)) row) as [item|]; [|discriminate].
    injection Hstep as <-. unfold handleEmitItem.
    destruct (hceSession (state w)) as [s|] eqn:Hh.
    + apply sessionBound_session.
      destruct (isScanning (state w)); [cbn; congruence|].
      destruct (emittingItem_is (state w) (ScannedItem.id item)); [cbn; congruence|].
      destruct (text_decodePayload codec _); cbn; congruence.
    + sessionBound_crush. exact Hw.
  - destruct (nth_error (items_or_empty (state w)) row) as [item|]; [|discriminate].
    injection Hstep as <-. unfold handleDeleteItem.
    destruct (emittingItem_is _ _); [destruct (hceSession (state w))|];
      sessionBound_crush; exact Hw.
  - destruct (nth_error (pending w) i) as [k|] eqn:Hk; [|discriminate].
    pose proof (sessionBound_drop_pending i w Hw) as Hd.
    assert (Hen : isEnabling k = true -> hceSession (state w) <> None).
    { intros Hen. destruct Hw as [H|[_ H]]; [exact H|].
      rewrite (existsb_nth_error _ _ _ _ Hk Hen) in H. discriminate. }
    resume_cases Hstep;
      try (apply sessionBound_session; exact (Hen eq_refl));
      try (apply sessionBound_session; cbn; discriminate);
      try destruct android; sessionBound_crush; exact Hd.
  - injection Hstep as <-. unfold cleanup. cbn [hceSession initialState].
    sessionBound_crush. exact Hw.
Qed.

(** In a reachable state that emits, the session is bound, and the platform
    is Android. *)
Lemma reachable_emitting_session codec android (w : World) :
  reachable codec android w ->
  emittingItem (state w) <> None ->
  android = true /\ exists s, hceSession (state w) = Some s.
Proof.
  intros Hr Hem.
  assert (Hb : sessionBound w).
  { destruct Hr as [evs Hrun].
    assert (H : forall evs w0, sessionBound w0 -> run codec android w0 evs = Some w ->
                sessionBound w).
    { clear. induction evs as [|ev evs IH]; intros w0 H0 Hrun; cbn [run] in Hrun.
      - now injection Hrun as <-.
      - destruct (step codec android w0 ev) as [w1|] eqn:Hstep; [|discriminate].
        eapply IH; [|exact Hrun]. eapply sessionBound_step; eauto. }
    apply (H evs mount); [|exact Hrun]. right. split; reflexivity. }
  destruct Hb as [Hs|[He _]]; [|contradiction].
  split.
  - destruct android; [reflexivity|].
    rewrite (reachable_noSession codec w Hr) in Hs. contradiction.
  - destruct (hceSession (state w)) as [s|]; [now exists s | contradiction].
Qed.

(** C9. HCE-unavailable degradation: a request to emit made when no HCE
    session is bound (the session was not initialised, or the platform is
    not Android, where no reachable state binds one) only shows the alert
    that the feature is unavailable: the state, the waiting continuations
    and the mounted flag are unchanged, the alert is the only effect (no HCE
    call) and the handler returns. *)
Theorem C9_emit_without_session (codec : NdefCodec) (android : bool)
    (w : World) (item : ScannedItem.t) :
  hceSession (state w) = None
  \/ (android = false /\ reachable codec android w) ->
  let w' := handleEmitItem codec (state w) item w in
  state w' = state w
  /\ isCancelling w' = isCancelling w
  /\ pending w' = pending w
  /\ mounted w' = mounted w
  /\ log w' = (log w ++ [Alert_alert "Error" "HCE Session not initialized. Android only."])%list.
Proof.
  intros H.
  assert (Hs : hceSession (state w) = None).
  { destruct H as [H|[-> H]]; [exact H | eapply reachable_noSession; eauto]. }
  unfold handleEmitItem. rewrite Hs. cbn. repeat split; reflexivity.
Qed.

Lemma C9_emit_without_session_witness :
  hceSession (state mount) = None
  /\ state (handleEmitItem Ndef_codec (state mount) itemA mount) = state mount
  /\ pending (handleEmitItem Ndef_codec (state mount) itemA mount) = pending mount
  /\ log (handleEmitItem Ndef_codec (state mount) itemA mount)
     = (log mount ++ [Alert_alert "Error" "HCE Session not initialized. Android only."])%list.
Proof.
  split; [reflexivity|].
  destruct (C9_emit_without_session Ndef_codec true mount itemA (or_introl eq_refl))
    as (Hs & _ & Hp & _ & Hl).
  repeat split; assumption.
Defined.

(** ** Emission *)

(** The branch of [handleEmitItem] that puts [item] on the channel. *)
Lemma handleEmitItem_enable codec env item w s text :
  hceSession env = Some s ->
  isScanning env = false ->
  emittingItem_is env (ScannedItem.id item) = false ->
  text_decodePayload codec (NdefRecord.payload (textRecord codec (ScannedItem.id item)))
  = Ok text ->
  handleEmitItem codec env item w
  = await (setApplication {| content := text; writable := false |})
      (K_setApplication item) w.
Proof.
  intros Hh Hs He Hd. unfold handleEmitItem. now rewrite Hh, Hs, He, Hd.
Qed.

(** With the codec of the specification, the content put on the channel for
    an item with a printable id is the id itself. *)
Lemma handleEmitItem_content env item w s :
  hceSession env = Some s ->
  isScanning env = false ->
  emittingItem_is env (ScannedItem.id item) = false ->
  printableASCII (ScannedItem.id item) ->
  handleEmitItem Ndef_codec env item w
  = await (setApplication {| content := ScannedItem.id item; writable := false |})
      (K_setApplication item) w.
Proof.
  intros Hh Hs He Hp. apply (handleEmitItem_enable Ndef_codec env item w s); auto.
  apply decodePayload_textRecord, utf8_ok_ascii, printableASCII_lt128, Hp.
Qed.

(** An event sets [emittingItem] to an id only by resuming, with success,
    the continuation that waits for [setEnabled(true)] for that item. *)
Lemma emittingItem_set_only_after_enable codec android w0 ev w1 id :
  step codec android w0 ev = Some w1 ->
  emittingItem (state w1) = Some id ->
  emittingItem (state w0) = Some id
  \/ exists i item,
       ev = Resume i Resolved
       /\ nth_error (pending w0) i = Some (K_setEnabled item)
       /\ id = ScannedItem.id item.
Proof.
  intros Hstep Hid. step_cases Hstep.
  - destruct (emittingItem_truthy (state w0)) eqn:Ht; [discriminate|].
    injection Hstep as <-. left. revert Hid. unfold readNdef.
    rewrite Ht. destruct (isScanning (state w0)); exact (fun H => H).
  - destruct (android && negb (isScanning (state w0))); [|discriminate].
    destruct (nth_error (items_or_empty (state w0)) row) as [item|]; [|discriminate].
    injection Hstep as <-. left. revert Hid. unfold handleEmitItem.
    destruct (hceSession (state w0)); [|exact (fun H => H)].
    destruct (isScanning (state w0)); [exact (fun H => H)|].
    destruct (emittingItem_is (state w0) (ScannedItem.id item)); [exact (fun H => H)|].
    destruct (text_decodePayload codec _); exact (fun H => H).
  - destruct (nth_error (items_or_empty (state w0)) row) as [item|]; [|discriminate].
    injection Hstep as <-. left. revert Hid. unfold handleDeleteItem.
    destruct (emittingItem_is (state w0) (ScannedItem.id item));
      [destruct (hceSession (state w0))|]; cbn; congruence.
  - destruct (nth_error (pending w0) i) as [k|] eqn:Hk; [|discriminate].
    resume_cases Hstep;
      try (left; exact Hid);
      try (left; cbn in Hid; discriminate);
      try (left; revert Hid; destruct android; exact (fun H => H));
      try (left; revert Hid; unfold readNdef_catch;
           destruct (isCancelling _ || includes ex "UserCancel" || includes ex "cancelled");
           exact (fun H => H)).
    right. exists i, item. cbn in Hid. injection Hid as <-. auto.
  - injection Hstep as <-. left. exact Hid.
Qed.

(** C10. Emission atomicity on driver failure: when [setApplication] or
    [setEnabled(true)] is rejected during a request to emit, the state of
    the component, and with it [emittingItem], is what it was before the
    request (only the alert is added); and no event ever sets
    [emittingItem] to an id except the successful completion of
    [setEnabled(true)] for that item. *)
Theorem C10_emit_failure_atomic (codec : NdefCodec) (android : bool) (w : World)
    (row : nat) (item : ScannedItem.t) (s : HCESession) (text e : string) :
  mounted w = true ->
  android = true ->
  isScanning (state w) = false ->
  hceSession (state w) = Some s ->
  nth_error (items_or_empty (state w)) row = Some item ->
  emittingItem_is (state w) (ScannedItem.id item) = false ->
  text_decodePayload codec (NdefRecord.payload (textRecord codec (ScannedItem.id item)))
  = Ok text ->
  let n := List.length (pending w) in
  let tag := {| content := text; writable := false |} in
  let alert := Alert_alert "Emulation Error" "Failed to start HCE session." in
  (exists w',
     run codec android w [Press_emit row; Resume n (Rejected e)] = Some w'
     /\ state w' = state w
     /\ emittingItem (state w') = emittingItem (state w)
     /\ pending w' = pending w
     /\ log w' = (log w ++ [setApplication tag; alert])%list)
  /\ (exists w',
        run codec android w [Press_emit row; Resume n Resolved; Resume n (Rejected e)]
        = Some w'
        /\ state w' = state w
        /\ emittingItem (state w') = emittingItem (state w)
        /\ pending w' = pending w
        /\ log w' = (log w ++ [setApplication tag; setEnabled true; alert])%list)
  /\ (forall w0 ev w1 id,
        step codec android w0 ev = Some w1 ->
        emittingItem (state w1) = Some id ->
        emittingItem (state w0) = Some id
        \/ exists i item',
             ev = Resume i Resolved
             /\ nth_error (pending w0) i = Some (K_setEnabled item')
             /\ id = ScannedItem.id item').
Proof.
  intros Hm Ha Hs Hh Hrow He Hd n tag alert.
  split; [|split].
  - cbn [run]. rewrite (step_Press_emit codec android w row item Hm Ha Hs Hrow).
    rewrite (handleEmitItem_enable codec (state w) item w s text Hh Hs He Hd).
    rewrite (step_resume_await codec android _ _ w _ _ Hm eq_refl).
    eexists. split; [reflexivity|]. cbn. rewrite <- app_assoc.
    repeat split; reflexivity.
  - cbn [run]. rewrite (step_Press_emit codec android w row item Hm Ha Hs Hrow).
    rewrite (handleEmitItem_enable codec (state w) item w s text Hh Hs He Hd).
    rewrite (step_resume_await codec android _ _ w _ _ Hm eq_refl).
    cbn [resume resume_setApplication].
    rewrite (step_resume_await codec android _ _ (perform (setApplication tag) w) _ _
               Hm eq_refl).
    eexists. split; [reflexivity|]. cbn. rewrite <- !app_assoc.
    repeat split; reflexivity.
  - intros w0 ev w1 id. apply emittingItem_set_only_after_enable.
Qed.

Lemma C10_emit_failure_atomic_witness :
  mounted (readyWorld [itemA; itemB]) = true
  /\ hceSession (state (readyWorld [itemA; itemB])) = Some TheHCESession
  /\ nth_error (items_or_empty (state (readyWorld [itemA; itemB]))) 1 = Some itemB
  /\ text_decodePayload Ndef_codec
       (NdefRecord.payload (textRecord Ndef_codec (ScannedItem.id itemB)))
     = Ok (ScannedItem.id itemB)
  /\ exists w',
       run Ndef_codec true (readyWorld [itemA; itemB])
         [Press_emit 1; Resume 0 Resolved; Resume 0 (Rejected "IllegalStateException")]
       = Some w'
       /\ emittingItem (state w') = None.
Proof.
  repeat (split; [reflexivity|]).
  destruct (C10_emit_failure_atomic Ndef_codec true (readyWorld [itemA; itemB]) 1 itemB
              TheHCESession (ScannedItem.id itemB) "IllegalStateException"
              eq_refl eq_refl eq_refl eq_refl eq_refl eq_refl eq_refl)
    as (_ & (w' & Hrun & _ & Hem & _) & _).
  exists w'. split; assumption.
Defined.

(** C5 (as amended). Switching emission targets: in a reachable state
    emitting [id], a request to emit an archived item with another id calls
    [setApplication] with the new payload and then [setEnabled(true)], and
    when both succeed the state is emitting the other id; these two are the
    only effects: the channel is not disabled in between. *)
Theorem C5_switch_without_disable (codec : NdefCodec) (android : bool) (w : World)
    (id : string) (row : nat) (other : ScannedItem.t) (text : string) :
  reachable codec android w ->
  mounted w = true ->
  inMode (state w) (Emitting id) ->
  nth_error (items_or_empty (state w)) row = Some other ->
  ScannedItem.id other <> id ->
  text_decodePayload codec (NdefRecord.payload (textRecord codec (ScannedItem.id other)))
  = Ok text ->
  exists w',
    run codec android w (emitEvents (List.length (pending w)) row) = Some w'
    /\ emittingItem (state w') = Some (ScannedItem.id other)
    /\ isScanning (state w') = false
    /\ pending w' = pending w
    /\ log w' = (log w ++ [setApplication {| content := text; writable := false |};
                           setEnabled true])%list
    /\ (truthy (ScannedItem.id other) = true ->
        inMode (state w') (Emitting (ScannedItem.id other))).
Proof.
  intros Hr Hm Hmode Hrow Hne Hd.
  assert (Hflags : isScanning (state w) = false /\ emittingItem (state w) = Some id).
  { unfold inMode, activeModes in Hmode.
    destruct (isScanning (state w)); destruct (emittingItem (state w)) as [x|];
      try destruct (truthy x); try discriminate.
    injection Hmode as ->. auto. }
  destruct Hflags as [Hs Hem].
  destruct (reachable_emitting_session codec android w Hr) as (Ha & s & Hh);
    [congruence|].
  assert (He : emittingItem_is (state w) (ScannedItem.id other) = false).
  { unfold emittingItem_is. rewrite Hem. apply String.eqb_neq. congruence. }
  unfold emitEvents. cbn [run].
  rewrite (step_Press_emit codec android w row other Hm Ha Hs Hrow).
  rewrite (handleEmitItem_enable codec (state w) other w s text Hh Hs He Hd).
  rewrite (step_resume_await codec android _ _ w _ _ Hm eq_refl).
  cbn [resume resume_setApplication].
  rewrite (step_resume_await codec android _ _
             (perform (setApplication {| content := text; writable := false |}) w) _ _
             Hm eq_refl).
  eexists. split; [reflexivity|]. cbn. rewrite <- !app_assoc.
  repeat split; try reflexivity; try assumption.
  intros Ht. unfold activeModes. cbn. now rewrite Hs, Ht.
Qed.

Lemma C5_switch_without_disable_witness :
  reachable Ndef_codec true emittingA
  /\ mounted emittingA = true
  /\ inMode (state emittingA) (Emitting (ScannedItem.id itemA))
  /\ nth_error (items_or_empty (state emittingA)) 1 = Some itemB
  /\ ScannedItem.id itemB <> ScannedItem.id itemA
  /\ exists w',
       run Ndef_codec true emittingA (emitEvents 0 1) = Some w'
       /\ emittingItem (state w') = Some (ScannedItem.id itemB).
Proof.
  assert (Hne : ScannedItem.id itemB <> ScannedItem.id itemA) by (vm_compute; discriminate).
  assert (Hr : reachable Ndef_codec true emittingA).
  { exists (startUp [itemA; itemB] ++ emitEvents 0 0)%list. reflexivity. }
  split; [exact Hr|].
  repeat (split; [reflexivity || exact Hne|]).
  destruct (C5_switch_without_disable Ndef_codec true emittingA (ScannedItem.id itemA) 1 itemB
              (ScannedItem.id itemB) Hr eq_refl eq_refl eq_refl Hne eq_refl)
    as (w' & Hrun & Hem & _).
  exists w'. split; assumption.
Defined.

(** C5 (as stated) fails: from the reachable state that emits item A, the
    request to emit item B reaches the state that emits B, and the effects
    it adds are [setApplication] and [setEnabled(true)]: the channel is
    never disabled before it is enabled with the new payload. *)
Lemma C5_counterexample :
  run Ndef_codec true mount (startUp [itemA; itemB] ++ emitEvents 0 0) = Some emittingA
  /\ inMode (state emittingA) (Emitting (ScannedItem.id itemA))
  /\ exists w',
       run Ndef_codec true emittingA (emitEvents 0 1) = Some w'
       /\ emittingItem (state w') = Some (ScannedItem.id itemB)
       /\ log w' = (log emittingA ++ [setApplication
                                {| content := ScannedItem.id itemB; writable := false |};
                              setEnabled true])%list
       /\ existsb (isSetEnabled false) (log w') = false.
Proof.
  split; [reflexivity|]. split; [reflexivity|].
  eexists. split; [reflexivity|]. repeat split; reflexivity.
Qed.

(** ** Mutual exclusion of scanning and emitting *)

(** The guard of [handleEmitItem]: while scanning, a request to emit only
    shows an alert. *)
Lemma emit_rejected_while_scanning codec env item w :
  inMode env Scanning ->
  exists message,
    handleEmitItem codec env item w = perform message w
    /\ state (handleEmitItem codec env item w) = state w
    /\ pending (handleEmitItem codec env item w) = pending w
    /\ (hceSession env <> None ->
        message = Alert_alert "Cannot Emit" "Please stop scanning before emitting a card.").
Proof.
  intros Hmode.
  assert (Hs : isScanning env = true).
  { unfold inMode, activeModes in Hmode.
    destruct (isScanning env); [reflexivity|].
    destruct (emittingItem env) as [x|]; [destruct (truthy x)|]; discriminate. }
  unfold handleEmitItem. rewrite Hs.
  destruct (hceSession env); eexists; repeat split; congruence.
Qed.

(** The guard of [readNdef]: while emitting, a request to scan only shows
    an alert. *)
Lemma scan_rejected_while_emitting env id w :
  inMode env (Emitting id) ->
  readNdef env w
  = perform (Alert_alert "Cannot Scan"
               "Please stop emitting the current card before scanning.") w
  /\ state (readNdef env w) = state w
  /\ pending (readNdef env w) = pending w.
Proof.
  intros Hmode.
  assert (H : isScanning env = false /\ emittingItem_truthy env = true).
  { unfold inMode, activeModes in Hmode. unfold emittingItem_truthy.
    destruct (isScanning env); destruct (emittingItem env) as [x|];
      try destruct (truthy x); try discriminate; auto. }
  destruct H as [Hs Ht]. unfold readNdef. rewrite Hs, Ht. repeat split; reflexivity.
Qed.

Lemma exclusive_idle (w : World) : isScanning (state w) = false -> exclusive w.
Proof. intros H Hs. congruence. Qed.

Lemma exclusive_state (w w' : World) :
  isScanning (state w') = isScanning (state w) ->
  (emittingItem_truthy (state w) = false -> emittingItem_truthy (state w') = false) ->
  pending w' = pending w ->
  exclusive w -> exclusive w'.
Proof.
  intros Hs Ht Hp Hw Hs'. rewrite Hs in Hs'. destruct (Hw Hs') as [H1 H2].
  split; [auto | now rewrite Hp].
Qed.

Lemma exclusive_await (e : Effect) (k : Cont) (w : World) :
  isEnabling k = false -> exclusive w -> exclusive (await e k w).
Proof.
  intros Hk Hw Hs. destruct (Hw Hs) as [H1 H2]. split; [exact H1|].
  cbn. rewrite existsb_app, H2. cbn. now rewrite Hk.
Qed.

Lemma exclusive_drop_pending (i : nat) (w : World) :
  exclusive w -> exclusive (drop_pending i w).
Proof.
  intros Hw Hs. destruct (Hw Hs) as [H1 H2]. split; [exact H1|].
  cbn. now apply existsb_remove_nth.
Qed.

Ltac exclusive_crush :=
  repeat match goal with
    | |- exclusive (await _ _ _) => apply exclusive_await; [reflexivity|]
    | |- exclusive (readNdef_finally _) => apply exclusive_idle; reflexivity
    | |- exclusive (setIsScanning false _) => apply exclusive_idle; reflexivity
    | |- exclusive (checkNfcSupport _) => unfold checkNfcSupport
    | |- exclusive (handleDeleteItem_filter _ _ _) => unfold handleDeleteItem_filter
    | |- exclusive (setEmittingItem None ?w) =>
        apply (exclusive_state w (setEmittingItem None w) eq_refl (fun _ => eq_refl) eq_refl)
    | |- exclusive (?f ?w) =>
        apply (exclusive_state w (f w) eq_refl (fun H => H) eq_refl)
    end.

(** A step that does not overlap keeps scanning and emitting exclusive. *)
Lemma exclusive_step codec android (w w' : World) (ev : Event) :
  exclusive w ->
  overlaps w ev = false ->
  step codec android w ev = Some w' ->
  exclusive w'.
Proof.
  intros Hw Hov Hstep. step_cases Hstep.
  - destruct (emittingItem_truthy (state w)) eqn:Ht; [discriminate|].
    injection Hstep as <-. unfold readNdef. rewrite Ht.
    destruct (isScanning (state w)) eqn:Hs.
    + exclusive_crush. exact Hw.
    + intros _. split; [exact Ht|]. cbn in Hov |- *.
      rewrite existsb_app, Hov. reflexivity.
  - destruct android; [|discriminate].
    destruct (isScanning (state w)) eqn:Hs; [discriminate|].
    destruct (nth_error (items_or_empty (state w)) row) as [item|]; [|discriminate].
    injection Hstep as <-. apply exclusive_idle. unfold handleEmitItem.
    destruct (hceSession (state w)); [|exact Hs]. rewrite Hs.
    destruct (emittingItem_is (state w) (ScannedItem.id item)); [exact Hs|].
    destruct (text_decodePayload codec _); exact Hs.
  - destruct (nth_error (items_or_empty (state w)) row) as [item|]; [|discriminate].
    injection Hstep as <-. unfold handleDeleteItem.
    destruct (emittingItem_is _ _); [destruct (hceSession (state w))|];
      exclusive_crush; exact Hw.
  - destruct (nth_error (pending w) i) as [k|] eqn:Hk; [|discriminate].
    pose proof (exclusive_drop_pending i w Hw) as Hd.
    assert (Hen : isEnabling k = true -> isScanning (state w) = false).
    { intros Hen. destruct (isScanning (state w)) eqn:Hs; [|reflexivity].
      destruct (Hw Hs) as [_ H]. rewrite (existsb_nth_error _ _ _ _ Hk Hen) in H.
      discriminate. }
    resume_cases Hstep;
      try (apply exclusive_idle; exact (Hen eq_refl));
      try destruct android; exclusive_crush; exact Hd.
  - injection Hstep as <-. unfold cleanup. cbn [hceSession initialState].
    exclusive_crush. exact Hw.
Qed.

(** In the runs without overlap every state is in exactly one mode. *)
Lemma exclusive_runSerial codec android (evs : list Event) :
  forall w w',
    exclusive w -> runSerial codec android w evs = Some w' ->
    exists m, inMode (state w') m /\ forall m', inMode (state w') m' -> m' = m.
Proof.
  induction evs as [|ev evs IH]; intros w w' Hw Hrun; cbn [runSerial] in Hrun.
  - injection Hrun as <-. unfold exclusive, emittingItem_truthy in Hw.
    unfold inMode, activeModes.
    destruct (isScanning (state w)).
    + destruct (Hw eq_refl) as [Ht _].
      exists Scanning.
      destruct (emittingItem (state w)) as [x|]; [rewrite Ht|];
        (split; [reflexivity|]); intros [| |y]; cbn; congruence.
    + destruct (emittingItem (state w)) as [x|]; [destruct (truthy x)|].
      * exists (Emitting x). split; [reflexivity|]. intros [| |y]; cbn; congruence.
      * exists Idle. split; [reflexivity|]. intros [| |y]; cbn; congruence.
      * exists Idle. split; [reflexivity|]. intros [| |y]; cbn; congruence.
  - destruct (overlaps w ev) eqn:Hov; [discriminate|].
    destruct (step codec android w ev) as [w1|] eqn:Hstep; [|discriminate].
    eapply IH; [|exact Hrun]. eapply exclusive_step; eauto.
Qed.

(** From the mounted component, every state reached without overlap is in
    exactly one mode. *)
Lemma serial_reachable_one_mode codec android (evs : list Event) (w : World) :
  runSerial codec android mount evs = Some w ->
  exists m, inMode (state w) m /\ forall m', inMode (state w) m' -> m' = m.
Proof.
  apply exclusive_runSerial. apply exclusive_idle. reflexivity.
Qed.

(** C1 (violated by the code). The guards reject a scan while emitting and
    an emission while scanning, but a scan can be started while a request to
    emit is still enabling the channel: on Android, with item A archived,
    the user presses emit on A and then scan before [setApplication] has
    settled; when the two HCE calls then succeed the state has [isScanning]
    set and [emittingItem] the id of A, with the technology request
    outstanding and the channel enabled: it is in none of the modes idle,
    scanning, emitting. *)
Theorem C1_scan_started_while_enabling :
  exists w,
    run Ndef_codec true mount
      (startUp [itemA] ++ [Press_emit 0; Press_scan; Resume 0 Resolved; Resume 1 Resolved])
    = Some w
    /\ isScanning (state w) = true
    /\ emittingItem (state w) = Some (ScannedItem.id itemA)
    /\ activeModes (state w) = [Scanning; Emitting (ScannedItem.id itemA)]
    /\ (forall m, ~ inMode (state w) m)
    /\ pending w = [K_requestTechnology (readyState [itemA])]
    /\ hceEnabled (log w) false = true.
Proof.
  eexists. split; [reflexivity|].
  repeat (split; [reflexivity|]).
  split; [|split; reflexivity].
  intros [| |id]; cbn; discriminate.
Qed.

(** ** Teardown *)

(** The clean-up run with a render that has the session bound disables the
    channel. *)
Lemma cleanup_with_session (env : State) (s : HCESession) (w : World) :
  hceSession env = Some s ->
  log (cleanup env w) = (log w ++ [NfcManager_cancelTechnologyRequest; setEnabled false])%list.
Proof.
  intros H. unfold cleanup. rewrite H. cbn. now rewrite <- app_assoc.
Qed.

(** The clean-up the component registers is the one of the first render:
    whatever the state, unmounting requests the cancellation and nothing
    else. *)
Lemma unmount_effects codec android (w : World) :
  mounted w = true ->
  step codec android w Unmount
  = Some (unmounted (perform NfcManager_cancelTechnologyRequest w)).
Proof. intros Hm. unfold step. now rewrite Hm. Qed.

(** C6 (violated by the code). Teardown requests the cancellation of the
    technology request, but it does not disable the HCE channel: on
    Android, after item A has been put on the channel, unmounting adds the
    cancellation request as its only effect, and the channel is left
    enabled. *)
Theorem C6_teardown_leaves_channel_enabled :
  run Ndef_codec true mount (startUp [itemA; itemB] ++ emitEvents 0 0) = Some emittingA
  /\ inMode (state emittingA) (Emitting (ScannedItem.id itemA))
  /\ hceEnabled (log emittingA) false = true
  /\ exists w',
       step Ndef_codec true emittingA Unmount = Some w'
       /\ mounted w' = false
       /\ log w' = (log emittingA ++ [NfcManager_cancelTechnologyRequest])%list
       /\ existsb (isSetEnabled false) (log w') = false
       /\ hceEnabled (log w') false = true.
Proof.
  repeat (split; [reflexivity|]).
  eexists. split; [reflexivity|]. repeat split; reflexivity.
Qed.

(** * Further properties *)

(** ** Emission: toggling *)

Lemma step_Press_emit_toggle codec android w row item s :
  mounted w = true ->
  android = true ->
  isScanning (state w) = false ->
  hceSession (state w) = Some s ->
  nth_error (items_or_empty (state w)) row = Some item ->
  emittingItem_is (state w) (ScannedItem.id item) = true ->
  step codec android w (Press_emit row) = Some (await (setEnabled false) K_toggleOff w).
Proof.
  intros Hm Ha Hs Hh Hrow He.
  rewrite (step_Press_emit codec android w row item Hm Ha Hs Hrow).
  unfold handleEmitItem. now rewrite Hh, Hs, He.
Qed.

(** The world a successful request to emit leaves. *)
Lemma emit_run codec android w row item s text :
  mounted w = true ->
  android = true ->
  isScanning (state w) = false ->
  hceSession (state w) = Some s ->
  nth_error (items_or_empty (state w)) row = Some item ->
  emittingItem_is (state w) (ScannedItem.id item) = false ->
  text_decodePayload codec (NdefRecord.payload (textRecord codec (ScannedItem.id item)))
  = Ok text ->
  run codec android w (emitEvents (List.length (pending w)) row)
  = Some (setEmittingItem (Some (ScannedItem.id item))
            (perform (setEnabled true)
               (perform (setApplication {| content := text; writable := false |}) w))).
Proof.
  intros Hm Ha Hs Hh Hrow He Hd.
  unfold emitEvents. cbn [run].
  rewrite (step_Press_emit codec android w row item Hm Ha Hs Hrow).
  rewrite (handleEmitItem_enable codec (state w) item w s text Hh Hs He Hd).
  rewrite (step_resume_await codec android _ _ w _ _ Hm eq_refl).
  cbn [resume resume_setApplication].
  rewrite (step_resume_await codec android _ _
             (perform (setApplication {| content := text; writable := false |}) w) _ _
             Hm eq_refl).
  reflexivity.
Qed.

(** The world a request to emit the emitting item leaves when the channel
    is disabled. *)
Lemma toggle_off_run codec android w row item s :
  mounted w = true ->
  android = true ->
  isScanning (state w) = false ->
  hceSession (state w) = Some s ->
  nth_error (items_or_empty (state w)) row = Some item ->
  emittingItem_is (state w) (ScannedItem.id item) = true ->
  run codec android w [Press_emit row; Resume (List.length (pending w)) Resolved]
  = Some (setEmittingItem None (perform (setEnabled false) w)).
Proof.
  intros Hm Ha Hs Hh Hrow He. cbn [run].
  rewrite (step_Press_emit_toggle codec android w row item s Hm Ha Hs Hh Hrow He).
  rewrite (step_resume_await codec android _ _ w _ _ Hm eq_refl).
  reflexivity.
Qed.

(** X1. Emitting the same item again stops the emission (the channel is
    disabled and no item is emitting), and a third request starts it again
    with the same tag. *)
Theorem emit_toggle_cycle (codec : NdefCodec) (android : bool) (w : World) (row : nat)
    (item : ScannedItem.t) (s : HCESession) (text : string) :
  mounted w = true ->
  android = true ->
  isScanning (state w) = false ->
  hceSession (state w) = Some s ->
  nth_error (items_or_empty (state w)) row = Some item ->
  emittingItem_is (state w) (ScannedItem.id item) = false ->
  text_decodePayload codec (NdefRecord.payload (textRecord codec (ScannedItem.id item)))
  = Ok text ->
  let n := List.length (pending w) in
  let tag := {| content := text; writable := false |} in
  exists w1 w2 w3,
    run codec android w (emitEvents n row) = Some w1
    /\ emittingItem (state w1) = Some (ScannedItem.id item)
    /\ run codec android w1 [Press_emit row; Resume n Resolved] = Some w2
    /\ emittingItem (state w2) = None
    /\ log w2 = (log w ++ [setApplication tag; setEnabled true; setEnabled false])%list
    /\ run codec android w2 (emitEvents n row) = Some w3
    /\ state w3 = state w1
    /\ log w3 = (log w2 ++ [setApplication tag; setEnabled true])%list
    /\ pending w3 = pending w.
Proof.
  intros Hm Ha Hs Hh Hrow He Hd n tag.
  pose (w1 := setEmittingItem (Some (ScannedItem.id item))
                (perform (setEnabled true) (perform (setApplication tag) w))).
  pose (w2 := setEmittingItem None (perform (setEnabled false) w1)).
  exists w1, w2. eexists.
  split; [apply (emit_run codec android w row item s text); assumption|].
  split; [reflexivity|].
  split.
  { apply (toggle_off_run codec android w1 row item s); try assumption.
    unfold emittingItem_is. cbn. apply String.eqb_refl. }
  split; [reflexivity|].
  split; [cbn; now rewrite <- !app_assoc|].
  split.
  { apply (emit_run codec android w2 row item s text); try assumption; reflexivity. }
  split; [reflexivity|]. split; [cbn; now rewrite <- !app_assoc|]. reflexivity.
Qed.

Lemma emit_toggle_cycle_witness :
  mounted (readyWorld [itemA; itemB]) = true
  /\ nth_error (items_or_empty (state (readyWorld [itemA; itemB]))) 0 = Some itemA
  /\ exists w1 w2 w3,
       run Ndef_codec true (readyWorld [itemA; itemB]) (emitEvents 0 0) = Some w1
       /\ run Ndef_codec true w1 [Press_emit 0; Resume 0 Resolved] = Some w2
       /\ emittingItem (state w2) = None
       /\ run Ndef_codec true w2 (emitEvents 0 0) = Some w3
       /\ state w3 = state w1.
Proof.
  repeat (split; [reflexivity|]).
  destruct (emit_toggle_cycle Ndef_codec true (readyWorld [itemA; itemB]) 0 itemA
              TheHCESession (ScannedItem.id itemA)
              eq_refl eq_refl eq_refl eq_refl eq_refl eq_refl eq_refl)
    as (w1 & w2 & w3 & H1 & _ & H2 & H3 & _ & H4 & H5 & _).
  exists w1, w2, w3. repeat split; assumption.
Defined.

(** X2. A request to stop the emission whose [setEnabled(false)] is rejected
    changes nothing: the item stays recorded as emitting and no alert is
    shown (the call is outside the [try]). *)
Theorem emit_toggle_off_rejected (codec : NdefCodec) (android : bool) (w : World)
    (row : nat) (item : ScannedItem.t) (s : HCESession) (e : string) :
  mounted w = true ->
  android = true ->
  isScanning (state w) = false ->
  hceSession (state w) = Some s ->
  nth_error (items_or_empty (state w)) row = Some item ->
  emittingItem (state w) = Some (ScannedItem.id item) ->
  exists w',
    run codec android w [Press_emit row; Resume (List.length (pending w)) (Rejected e)]
    = Some w'
    /\ state w' = state w
    /\ emittingItem (state w') = Some (ScannedItem.id item)
    /\ pending w' = pending w
    /\ log w' = (log w ++ [setEnabled false])%list.
Proof.
  intros Hm Ha Hs Hh Hrow He.
  assert (He' : emittingItem_is (state w) (ScannedItem.id item) = true).
  { unfold emittingItem_is. rewrite He. apply String.eqb_refl. }
  cbn [run].
  rewrite (step_Press_emit_toggle codec android w row item s Hm Ha Hs Hh Hrow He').
  rewrite (step_resume_await codec android _ _ w _ _ Hm eq_refl).
  eexists. split; [reflexivity|]. repeat split; try reflexivity. exact He.
Qed.

Lemma emit_toggle_off_rejected_witness :
  mounted emittingA = true
  /\ emittingItem (state emittingA) = Some (ScannedItem.id itemA)
  /\ exists w',
       run Ndef_codec true emittingA [Press_emit 0; Resume 0 (Rejected "RemoteException")]
       = Some w'
       /\ state w' = state emittingA.
Proof.
  repeat (split; [reflexivity|]).
  destruct (emit_toggle_off_rejected Ndef_codec true emittingA 0 itemA TheHCESession
              "RemoteException" eq_refl eq_refl eq_refl eq_refl eq_refl eq_refl)
    as (w' & Hrun & Hst & _).
  exists w'. split; assumption.
Defined.

(** ** Deletion *)

Lemma step_Press_delete_emitting codec android w row item s :
  mounted w = true ->
  hceSession (state w) = Some s ->
  nth_error (items_or_empty (state w)) row = Some item ->
  emittingItem_is (state w) (ScannedItem.id item) = true ->
  step codec android w (Press_delete row)
  = Some (await (setEnabled false)
            (K_deleteSetEnabled (state w) (ScannedItem.id item)) w).
Proof.
  intros Hm Hh Hrow He. unfold step. rewrite Hm, Hrow. cbn [negb].
  unfold handleDeleteItem. now rewrite He, Hh.
Qed.

(** X3. Deleting the item that is being emitted first disables the channel;
    when that succeeds no item is emitting any more and the items with that
    id are removed and the rest saved; when it is rejected nothing is
    removed, nothing is saved and the item stays recorded as emitting. *)
Theorem delete_emitting_item (codec : NdefCodec) (android : bool) (w : World)
    (row : nat) (item : ScannedItem.t) (s : HCESession) (e : string) :
  mounted w = true ->
  hceSession (state w) = Some s ->
  nth_error (items_or_empty (state w)) row = Some item ->
  emittingItem (state w) = Some (ScannedItem.id item) ->
  let n := List.length (pending w) in
  let kept :=
    filter (fun x => negb (String.eqb (ScannedItem.id x) (ScannedItem.id item)))
      (items_or_empty (state w)) in
  (exists w',
     run codec android w [Press_delete row; Resume n Resolved] = Some w'
     /\ emittingItem (state w') = None
     /\ scannedItems (state w') = Some kept
     /\ ~ In item kept
     /\ log w' = (log w ++ [setEnabled false; SecureStore_setItemAsync kept])%list
     /\ pending w' = pending w)
  /\ (exists w',
        run codec android w [Press_delete row; Resume n (Rejected e)] = Some w'
        /\ state w' = state w
        /\ log w' = (log w ++ [setEnabled false])%list
        /\ pending w' = pending w).
Proof.
  intros Hm Hh Hrow He n kept.
  assert (He' : emittingItem_is (state w) (ScannedItem.id item) = true).
  { unfold emittingItem_is. rewrite He. apply String.eqb_refl. }
  split; cbn [run];
    rewrite (step_Press_delete_emitting codec android w row item s Hm Hh Hrow He');
    rewrite (step_resume_await codec android _ _ w _ _ Hm eq_refl);
    (eexists; split; [reflexivity|]).
  - cbn. rewrite <- app_assoc. repeat split; try reflexivity.
    intros Hin. apply filter_In in Hin as [_ Hin].
    rewrite String.eqb_refl in Hin. discriminate.
  - repeat split; reflexivity.
Qed.

Lemma delete_emitting_item_witness :
  mounted emittingA = true
  /\ nth_error (items_or_empty (state emittingA)) 0 = Some itemA
  /\ emittingItem (state emittingA) = Some (ScannedItem.id itemA)
  /\ exists w',
       run Ndef_codec true emittingA [Press_delete 0; Resume 0 Resolved] = Some w'
       /\ emittingItem (state w') = None
       /\ scannedItems (state w') = Some [itemB].
Proof.
  repeat (split; [reflexivity|]).
  destruct (delete_emitting_item Ndef_codec true emittingA 0 itemA TheHCESession ""
              eq_refl eq_refl eq_refl eq_refl)
    as ((w' & Hrun & Hem & Hitems & _) & _).
  exists w'. repeat split; assumption.
Defined.

(** ** Scans and the archive *)

(** X4. A scan that ends without a tag (none found, or the technology
    request or the tag read rejected) changes only the status and the
    scanning flag: the archive is the same and nothing is written to the
    store. *)
Theorem scan_without_tag_keeps_archive (codec : NdefCodec) (android : bool) (w : World)
    (e : string) (clock : Clock) :
  mounted w = true ->
  isScanning (state w) = false ->
  emittingItem_truthy (state w) = false ->
  let n := List.length (pending w) in
  forall evs,
    evs = [Press_scan; Resume n (Rejected e)]
    \/ evs = [Press_scan; Resume n Resolved; Resume n (Rejected e)]
    \/ evs = [Press_scan; Resume n Resolved; Resume n (ResolvedTag None clock)] ->
    exists w',
      run codec android w evs = Some w'
      /\ scannedItems (state w') = scannedItems (state w)
      /\ emittingItem (state w') = emittingItem (state w)
      /\ hceSession (state w') = hceSession (state w)
      /\ isScanning (state w') = false
      /\ pending w' = pending w
      /\ lastWrite (log w') None = lastWrite (log w) None
      /\ (log w' = (log w ++ [NfcManager_requestTechnology])%list
          \/ log w' = (log w ++ [NfcManager_requestTechnology; NfcManager_getTag])%list).
Proof.
  intros Hm Hs He n evs Hevs.
  assert (Hlw : forall l acc,
            lastWrite (l ++ [NfcManager_requestTechnology]) acc = lastWrite l acc
            /\ lastWrite (l ++ [NfcManager_requestTechnology; NfcManager_getTag]) acc
               = lastWrite l acc).
  { induction l as [|x l IH]; intros acc; [split; reflexivity|].
    destruct x; cbn [app lastWrite]; apply IH. }
  assert (Hstart :
            step codec android w Press_scan
            = Some (await NfcManager_requestTechnology (K_requestTechnology (state w))
                      (setNfcStatus "Scanning..." (setIsScanning true w)))).
  { rewrite (step_Press_scan codec android w Hm He). unfold readNdef.
    now rewrite Hs, He. }
  destruct Hevs as [->|[->| ->]]; cbn [run]; rewrite Hstart;
    rewrite (step_resume_await codec android _ _
               (setNfcStatus "Scanning..." (setIsScanning true w)) _ _ Hm eq_refl);
    cbn [resume resume_requestTechnology];
    try rewrite (step_resume_await codec android _ _
                   (perform NfcManager_requestTechnology
                      (setNfcStatus "Scanning..." (setIsScanning true w))) _ _ Hm eq_refl);
    cbn [resume resume_getTag];
    (eexists; split; [reflexivity|]);
    unfold readNdef_finally, readNdef_catch;
    repeat match goal with
      | |- context [if ?b then _ else _] => destruct b
      end;
    cbn; rewrite <- ?app_assoc; cbn;
    repeat (split; [reflexivity|]);
    try (split; [apply Hlw|]); auto.
Qed.

Lemma scan_without_tag_keeps_archive_witness :
  mounted (readyWorld [itemA]) = true
  /\ isScanning (state (readyWorld [itemA])) = false
  /\ emittingItem_truthy (state (readyWorld [itemA])) = false
  /\ exists w',
       run Ndef_codec true (readyWorld [itemA])
         [Press_scan; Resume 0 Resolved; Resume 0 (ResolvedTag None clockB)] = Some w'
       /\ scannedItems (state w') = Some [itemA]
       /\ lastWrite (log w') None = None.
Proof.
  repeat (split; [reflexivity|]).
  destruct (scan_without_tag_keeps_archive Ndef_codec true (readyWorld [itemA]) "" clockB
              eq_refl eq_refl eq_refl
              [Press_scan; Resume 0 Resolved; Resume 0 (ResolvedTag None clockB)]
              (or_intror (or_intror eq_refl)))
    as (w' & Hrun & Hitems & _ & _ & _ & _ & Hlw & _).
  exists w'. repeat split; assumption.
Defined.

(** X5. A scan adds its item to the archive as it was when the scan was
    started: an item deleted while the scan is outstanding is back in the
    archive, and in the store, when the scan finds a tag. *)
Theorem scan_restores_item_deleted_meanwhile (codec : NdefCodec) (android : bool)
    (w : World) (row : nat) (item : ScannedItem.t) (tag : TagEvent.t) (clock : Clock) :
  mounted w = true ->
  isScanning (state w) = false ->
  emittingItem (state w) = None ->
  nth_error (items_or_empty (state w)) row = Some item ->
  let n := List.length (pending w) in
  let old := items_or_empty (state w) in
  let kept :=
    filter (fun x => negb (String.eqb (ScannedItem.id x) (ScannedItem.id item))) old in
  exists w1 w2,
    run codec android w [Press_scan; Press_delete row] = Some w1
    /\ scannedItems (state w1) = Some kept
    /\ ~ In item kept
    /\ run codec android w1 [Resume n Resolved; Resume n (ResolvedTag (Some tag) clock)]
       = Some w2
    /\ scannedItems (state w2) = Some (newItemOf tag clock :: old)
    /\ In item (newItemOf tag clock :: old)
    /\ lastWrite (log w2) None = Some (newItemOf tag clock :: old).
Proof.
  intros Hm Hs He Hrow n old kept.
  assert (Ht : emittingItem_truthy (state w) = false).
  { unfold emittingItem_truthy. now rewrite He. }
  pose (w0 := await NfcManager_requestTechnology (K_requestTechnology (state w))
                (setNfcStatus "Scanning..." (setIsScanning true w))).
  pose (w1 := handleDeleteItem_filter (state w0) (ScannedItem.id item) w0).
  exists w1. eexists.
  assert (Hrun1 : run codec android w [Press_scan; Press_delete row] = Some w1).
  { cbn [run]. rewrite (step_Press_scan codec android w Hm Ht).
    unfold readNdef. rewrite Hs, Ht. cbv zeta. fold w0.
    rewrite (step_Press_delete codec android w0 row item Hm Hrow); [reflexivity|].
    unfold emittingItem_is. cbn. now rewrite He. }
  split; [exact Hrun1|]. split; [reflexivity|].
  split.
  { intros Hin. apply filter_In in Hin as [_ Hin].
    rewrite String.eqb_refl in Hin. discriminate. }
  split.
  { cbn [run].
    assert (Hk : nth_error (pending w1) n = Some (K_requestTechnology (state w))).
    { cbn. apply nth_error_last. }
    rewrite (step_Resume codec android w1 n _ _ Hm Hk).
    cbn [resume resume_requestTechnology].
    assert (Hd : pending (drop_pending n w1) = pending w).
    { cbn. apply remove_nth_last. }
    rewrite (step_resume_await codec android _ _ (drop_pending n w1) _ n Hm);
      [reflexivity | now rewrite Hd]. }
  split; [reflexivity|].
  split; [right; eapply nth_error_In; exact Hrow|].
  cbn. rewrite <- !app_assoc.
  assert (Hlast : forall l v acc,
            lastWrite (l ++ [SecureStore_setItemAsync v]) acc = Some v).
  { induction l as [|x l IH]; intros v acc; [reflexivity|].
    destruct x; cbn [app lastWrite]; apply IH. }
  rewrite !app_assoc. apply Hlast.
Qed.

Lemma scan_restores_item_deleted_meanwhile_witness :
  mounted (readyWorld [itemA; itemB]) = true
  /\ nth_error (items_or_empty (state (readyWorld [itemA; itemB]))) 1 = Some itemB
  /\ exists w1 w2,
       run Ndef_codec true (readyWorld [itemA; itemB]) [Press_scan; Press_delete 1]
       = Some w1
       /\ scannedItems (state w1) = Some [itemA]
       /\ run Ndef_codec true w1
            [Resume 0 Resolved; Resume 0 (ResolvedTag (Some tagC) clockC)] = Some w2
       /\ scannedItems (state w2) = Some [itemC; itemA; itemB].
Proof.
  repeat (split; [reflexivity|]).
  destruct (scan_restores_item_deleted_meanwhile Ndef_codec true (readyWorld [itemA; itemB])
              1 itemB tagC clockC eq_refl eq_refl eq_refl eq_refl)
    as (w1 & w2 & H1 & H2 & _ & H3 & H4 & _).
  exists w1, w2. repeat split; assumption.
Defined.

(** ** Item ids *)

Lemma toString10_inj (a b : Z) : toString10 a = toString10 b -> a = b.
Proof.
  unfold toString10. intros H.
  assert (Hn : forall z, Z.to_int z <> Decimal.Pos Decimal.Nil
                         /\ Z.to_int z <> Decimal.Neg Decimal.Nil).
  { intros [|p|p]; cbn; split; try discriminate;
      intros Hp; injection Hp as Hp;
      exact (DecimalPos.Unsigned.to_uint_nonnil p Hp). }
  apply DecimalZ.to_int_inj.
  pose proof (DecimalString.NilZero.isi (Z.to_int a) (proj1 (Hn a)) (proj2 (Hn a))) as Ha.
  pose proof (DecimalString.NilZero.isi (Z.to_int b) (proj1 (Hn b)) (proj2 (Hn b))) as Hb.
  rewrite H in Ha. congruence.
Qed.

Lemma append_inj_l (p a b : string) : (p ++ a = p ++ b)%string -> a = b.
Proof.
  induction p as [|x p IH]; cbn; intros H; [exact H|].
  injection H as H. auto.
Qed.

(** X6. The id of an item tells scans of one tag apart: two scans of the
    same tag at different times get different ids, so after both the
    deletion of the later one keeps the earlier one in the archive. *)
Theorem rescanned_tag_gets_new_id (codec : NdefCodec) (android : bool) (w : World)
    (tag : TagEvent.t) (c1 c2 : Clock) :
  mounted w = true ->
  isScanning (state w) = false ->
  emittingItem (state w) = None ->
  now c1 <> now c2 ->
  let n := List.length (pending w) in
  let first := newItemOf tag c1 in
  let second := newItemOf tag c2 in
  ScannedItem.id first <> ScannedItem.id second
  /\ exists w2 w3 kept,
       run codec android w (scanEvents n tag c1 ++ scanEvents n tag c2) = Some w2
       /\ scannedItems (state w2) = Some (second :: first :: items_or_empty (state w))
       /\ step codec android w2 (Press_delete 0) = Some w3
       /\ scannedItems (state w3) = Some kept
       /\ In first kept
       /\ ~ In second kept.
Proof.
  intros Hm Hs He Hnow n first second.
  assert (Hid : ScannedItem.id first <> ScannedItem.id second).
  { unfold first, second, newItemOf. cbn [ScannedItem.id].
    destruct (TagEvent.id tag) as [bytes|]; intros H.
    - apply append_inj_l, toString10_inj in H. contradiction.
    - apply toString10_inj in H. contradiction. }
  split; [exact Hid|].
  assert (Ht : forall s, emittingItem s = None -> emittingItem_truthy s = false).
  { intros s H. unfold emittingItem_truthy. now rewrite H. }
  destruct (scan_run_facts codec android w tag c1 Hm Hs (Ht _ He))
    as (w1 & Hrun1 & Hst1 & _ & Hp1 & Hm1 & _).
  assert (Hs1 : isScanning (state w1) = false) by now rewrite Hst1.
  assert (He1 : emittingItem (state w1) = None) by now rewrite Hst1.
  destruct (scan_run_facts codec android w1 tag c2 Hm1 Hs1 (Ht _ He1))
    as (w2 & Hrun2 & Hst2 & _ & Hp2 & Hm2 & _).
  rewrite Hp1 in Hrun2.
  assert (Hitems : scannedItems (state w2)
                   = Some (second :: first :: items_or_empty (state w))).
  { rewrite Hst2. cbn. unfold items_or_empty at 1. now rewrite Hst1. }
  exists w2. eexists. eexists.
  split; [rewrite run_app; fold n in Hrun1; rewrite Hrun1; exact Hrun2|].
  split; [exact Hitems|].
  split.
  { apply (step_Press_delete codec android w2 0 second Hm2).
    - unfold items_or_empty. now rewrite Hitems.
    - unfold emittingItem_is. rewrite Hst2. cbn. now rewrite He1. }
  unfold handleDeleteItem_filter, items_or_empty. rewrite Hitems.
  split; [reflexivity|].
  split.
  - apply filter_In. split; [right; now left|].
    apply negb_true_iff, String.eqb_neq. exact Hid.
  - intros Hin. apply filter_In in Hin as [_ Hin].
    rewrite String.eqb_refl in Hin. discriminate.
Qed.

Lemma rescanned_tag_gets_new_id_witness :
  mounted (readyWorld []) = true
  /\ now clockA <> now clockB
  /\ ScannedItem.id (newItemOf tagA clockA) <> ScannedItem.id (newItemOf tagA clockB).
Proof.
  assert (Hnow : now clockA <> now clockB) by discriminate.
  split; [reflexivity|]. split; [exact Hnow|].
  apply (rescanned_tag_gets_new_id Ndef_codec true (readyWorld []) tagA clockA clockB
           eq_refl eq_refl eq_refl Hnow).
Defined.

(** ** Invariants of the runs *)

Lemma run_invariant codec android (I : World -> Prop) :
  (forall w w' ev, I w -> step codec android w ev = Some w' -> I w') ->
  forall evs w w', I w -> run codec android w evs = Some w' -> I w'.
Proof.
  intros Hstep. induction evs as [|ev evs IH]; intros w w' Hw Hrun; cbn [run] in Hrun.
  - now injection Hrun as <-.
  - destruct (step codec android w ev) as [w1|] eqn:H1; [|discriminate].
    eapply IH; [|exact Hrun]. eapply Hstep; eauto.
Qed.

Lemma existsb_remove_other {A : Type} (f : A -> bool) (i : nat) (l : list A) (a : A) :
  nth_error l i = Some a -> f a = false ->
  existsb f l = true -> existsb f (remove_nth i l) = true.
Proof.
  revert i. induction l as [|x l IH]; intros i Hn Ha H; [destruct i; discriminate|].
  destruct i as [|i]; cbn in *.
  - injection Hn as ->. now rewrite Ha in H.
  - destruct (f x); [reflexivity|]. cbn in *. eapply IH; eauto.
Qed.

(** *** The store *)

Lemma lastWrite_snoc (l : list Effect) (e : Effect) :
  forall acc,
    lastWrite (l ++ [e]) acc
    = match e with
      | SecureStore_setItemAsync v => Some v
      | _ => lastWrite l acc
      end.
Proof.
  induction l as [|x l IH]; intros acc; [destruct e; reflexivity|].
  destruct x; cbn [app lastWrite]; apply IH.
Qed.

Lemma synced_state (w w' : World) :
  pending w' = pending w ->
  log w' = log w ->
  scannedItems (state w') = scannedItems (state w) ->
  synced w -> synced w'.
Proof. intros Hp Hl Hs [H1 H2]. split; [now rewrite Hp | now rewrite Hl, Hs]. Qed.

Lemma synced_perform (e : Effect) (w : World) :
  isStoreWrite e = false -> synced w -> synced (perform e w).
Proof.
  intros He [H1 H2]. split; [exact H1|]. cbn. rewrite lastWrite_snoc.
  destruct e; try discriminate; exact H2.
Qed.

Lemma synced_await (e : Effect) (k : Cont) (w : World) :
  isStoreWrite e = false -> isLoadCont k = false -> synced w -> synced (await e k w).
Proof.
  intros He Hk [H1 H2]. split.
  - cbn. rewrite existsb_app, H1. cbn. now rewrite Hk.
  - cbn. rewrite lastWrite_snoc. destruct e; try discriminate; exact H2.
Qed.

Lemma synced_setScannedItems (v : list ScannedItem.t) (w : World) :
  synced w -> synced (setScannedItems (Some v) w).
Proof.
  intros [H1 _]. split; [exact H1|]. right. cbn. now rewrite lastWrite_snoc.
Qed.

Lemma synced_drop_pending (i : nat) (w : World) :
  synced w -> synced (drop_pending i w).
Proof.
  intros [H1 H2]. split; [|exact H2]. cbn. now apply existsb_remove_nth.
Qed.

Ltac synced_crush :=
  repeat match goal with
    | |- synced (await _ _ _) => apply synced_await; [reflexivity | reflexivity |]
    | |- synced (setScannedItems (Some _) _) => apply synced_setScannedItems
    | |- synced (perform (SecureStore_setItemAsync ?v) (setValue (Some ?v) ?w)) =>
        apply (synced_setScannedItems v w)
    | |- synced (perform _ _) => apply synced_perform; [reflexivity|]
    | |- synced (readNdef_catch ?e ?w) =>
        unfold readNdef_catch;
        destruct (isCancelling w || includes e "UserCancel" || includes e "cancelled")
    | |- synced (checkNfcSupport _) => unfold checkNfcSupport
    | |- synced (handleDeleteItem_filter _ _ _) => unfold handleDeleteItem_filter
    | |- synced (handleEmitItem_catch _) => unfold handleEmitItem_catch
    | |- synced (readNdef_finally _) => unfold readNdef_finally
    | |- synced (cleanup _ _) => unfold cleanup; cbn [hceSession initialState]
    | |- synced (?f ?w) => apply (synced_state w (f w) eq_refl eq_refl eq_refl)
    end.

Lemma synced_step codec android (w w' : World) (ev : Event) :
  synced w -> step codec android w ev = Some w' -> synced w'.
Proof.
  intros Hw Hstep. step_cases Hstep.
  - destruct (emittingItem_truthy (state w)) eqn:Ht; [discriminate|].
    injection Hstep as <-. unfold readNdef. rewrite Ht.
    destruct (isScanning (state w)); synced_crush; exact Hw.
  - destruct (android && negb (isScanning (state w))); [|discriminate].
    destruct (nth_error (items_or_empty (state w)) row) as [item|]; [|discriminate].
    injection Hstep as <-. unfold handleEmitItem.
    destruct (hceSession (state w)); [|synced_crush; exact Hw].
    destruct (isScanning (state w)); [synced_crush; exact Hw|].
    destruct (emittingItem_is (state w) (ScannedItem.id item)); [synced_crush; exact Hw|].
    destruct (text_decodePayload codec _); synced_crush; exact Hw.
  - destruct (nth_error (items_or_empty (state w)) row) as [item|]; [|discriminate].
    injection Hstep as <-. unfold handleDeleteItem.
    destruct (emittingItem_is _ _); [destruct (hceSession (state w))|];
      synced_crush; exact Hw.
  - destruct (nth_error (pending w) i) as [k|] eqn:Hk; [|discriminate].
    pose proof (synced_drop_pending i w Hw) as Hd.
    assert (Hload : isLoadCont k = false).
    { destruct (isLoadCont k) eqn:Hl; [|reflexivity].
      pose proof (proj1 Hw) as H1.
      rewrite (existsb_nth_error _ _ _ _ Hk Hl) in H1. discriminate. }
    resume_cases Hstep; try discriminate; try destruct android; synced_crush; exact Hd.
  - injection Hstep as <-. synced_crush. exact Hw.
Qed.

Lemma lastWrite_no_write (l : list Effect) :
  forall acc, existsb isStoreWrite l = false -> lastWrite l acc = acc.
Proof.
  induction l as [|e l IH]; intros acc H; [reflexivity|].
  cbn [existsb] in H. apply orb_false_iff in H as [He Hl].
  destruct e; cbn [lastWrite]; try (apply IH; exact Hl). discriminate He.
Qed.

(** X7. When the read of the stored archive settles before the component
    has written to the store, then in every state it reaches afterwards
    while it is mounted the read stays settled and the value last handed to
    the store, when one was handed, is the archive the component holds. *)
Theorem archive_stays_in_sync_with_store (codec : NdefCodec) (android : bool)
    (evs1 evs2 : list Event) (w1 w2 : World) :
  run codec android mount evs1 = Some w1 ->
  existsb isLoadCont (pending w1) = false ->
  existsb isStoreWrite (log w1) = false ->
  run codec android w1 evs2 = Some w2 ->
  mounted w2 = true ->
  existsb isLoadCont (pending w2) = false
  /\ forall v, lastWrite (log w2) None = Some v -> scannedItems (state w2) = Some v.
Proof.
  intros _ Hload Hwrite Hrun _.
  assert (Hw : synced w1).
  { split; [exact Hload|]. left. now apply lastWrite_no_write. }
  destruct (run_invariant codec android synced (synced_step codec android)
              evs2 w1 w2 Hw Hrun) as [H1 H2].
  split; [exact H1|].
  intros v Hv. destruct H2 as [H2|H2]; [congruence|]. now rewrite <- H2.
Qed.

Lemma archive_stays_in_sync_with_store_witness :
  exists w2,
    run Ndef_codec true mount (startUp [itemA]) = Some (readyWorld [itemA])
    /\ run Ndef_codec true (readyWorld [itemA])
         (scanEvents 0 tagB clockB ++ [Press_delete 1]) = Some w2
    /\ lastWrite (log w2) None = Some [itemB]
    /\ scannedItems (state w2) = Some [itemB].
Proof.
  assert (H1 : run Ndef_codec true mount (startUp [itemA]) = Some (readyWorld [itemA]))
    by (vm_compute; reflexivity).
  eexists. split; [exact H1|].
  match goal with
  | |- ?r = Some ?w /\ _ =>
      assert (H2 : r = Some w) by (vm_compute; reflexivity); split; [exact H2|]
  end.
  split; [vm_compute; reflexivity|].
  refine (proj2 (archive_stays_in_sync_with_store Ndef_codec true (startUp [itemA])
                   (scanEvents 0 tagB clockB ++ [Press_delete 1])
                   (readyWorld [itemA]) _ H1 eq_refl eq_refl H2 eq_refl)
            [itemB] _).
  vm_compute; reflexivity.
Defined.

Lemma storeDiscipline_state (w w' : World) :
  log w' = log w -> storeDiscipline w -> storeDiscipline w'.
Proof. intros Hl H. unfold storeDiscipline. now rewrite Hl. Qed.

Lemma storeDiscipline_perform (e : Effect) (w : World) :
  isStoreRead e = false -> isStoreDelete e = false ->
  storeDiscipline w -> storeDiscipline (perform e w).
Proof.
  intros Hr Hd [H1 H2]. unfold storeDiscipline. cbn.
  rewrite filter_app, existsb_app, length_app, H1, H2. cbn. now rewrite Hr, Hd.
Qed.

Ltac storeDiscipline_crush :=
  repeat match goal with
    | |- storeDiscipline (await ?e ?k ?w) =>
        apply (storeDiscipline_state (perform e w) (await e k w) eq_refl)
    | |- storeDiscipline (perform _ _) =>
        apply storeDiscipline_perform; [reflexivity | reflexivity |]
    | |- storeDiscipline (readNdef_catch ?e ?w) =>
        unfold readNdef_catch;
        destruct (isCancelling w || includes e "UserCancel" || includes e "cancelled")
    | |- storeDiscipline (checkNfcSupport _) => unfold checkNfcSupport
    | |- storeDiscipline (handleDeleteItem_filter _ _ _) =>
        unfold handleDeleteItem_filter
    | |- storeDiscipline (setScannedItems _ _) =>
        unfold setScannedItems, setStorageItemAsync
    | |- storeDiscipline (handleEmitItem_catch _) => unfold handleEmitItem_catch
    | |- storeDiscipline (readNdef_finally _) => unfold readNdef_finally
    | |- storeDiscipline (cleanup _ _) => unfold cleanup; cbn [hceSession initialState]
    | |- storeDiscipline (?f ?w) => apply (storeDiscipline_state w (f w) eq_refl)
    end.

Lemma storeDiscipline_step codec android (w w' : World) (ev : Event) :
  storeDiscipline w -> step codec android w ev = Some w' -> storeDiscipline w'.
Proof.
  intros Hw Hstep. step_cases Hstep.
  - destruct (emittingItem_truthy (state w)) eqn:Ht; [discriminate|].
    injection Hstep as <-. unfold readNdef. rewrite Ht.
    destruct (isScanning (state w)); storeDiscipline_crush; exact Hw.
  - destruct (android && negb (isScanning (state w))); [|discriminate].
    destruct (nth_error (items_or_empty (state w)) row) as [item|]; [|discriminate].
    injection Hstep as <-. unfold handleEmitItem.
    destruct (hceSession (state w)); [|storeDiscipline_crush; exact Hw].
    destruct (isScanning (state w)); [storeDiscipline_crush; exact Hw|].
    destruct (emittingItem_is (state w) (ScannedItem.id item));
      [storeDiscipline_crush; exact Hw|].
    destruct (text_decodePayload codec _); storeDiscipline_crush; exact Hw.
  - destruct (nth_error (items_or_empty (state w)) row) as [item|]; [|discriminate].
    injection Hstep as <-. unfold handleDeleteItem.
    destruct (emittingItem_is _ _); [destruct (hceSession (state w))|];
      storeDiscipline_crush; exact Hw.
  - destruct (nth_error (pending w) i) as [k|] eqn:Hk; [|discriminate].
    assert (Hd : storeDiscipline (drop_pending i w)) by exact Hw.
    resume_cases Hstep; try destruct android; storeDiscipline_crush; exact Hd.
  - injection Hstep as <-. storeDiscipline_crush. exact Hw.
Qed.

(** X8. The component reads the store once, at mount, and never deletes the
    stored archive: whatever happens, its calls hold one [getItemAsync] and
    no [deleteItemAsync] (an emptied archive is saved as the empty list). *)
Theorem store_read_once_never_deleted (codec : NdefCodec) (android : bool) (w : World) :
  reachable codec android w ->
  List.length (filter isStoreRead (log w)) = 1%nat
  /\ existsb isStoreDelete (log w) = false.
Proof.
  intros [evs Hrun].
  refine (run_invariant codec android storeDiscipline (storeDiscipline_step codec android)
            evs mount w _ Hrun).
  split; reflexivity.
Qed.

(** *** The flags of a scan *)

Lemma flagsBacked_mono (w w' : World) :
  (isCancelling w' = true -> isCancelling w = true) ->
  (isScanning (state w') = true -> isScanning (state w) = true) ->
  (forall f, existsb f (pending w) = true -> existsb f (pending w') = true) ->
  flagsBacked w -> flagsBacked w'.
Proof. intros Hc Hs Hp [H1 H2]. split; intros H; apply Hp; auto. Qed.

Lemma flagsBacked_await (e : Effect) (k : Cont) (w : World) :
  flagsBacked w -> flagsBacked (await e k w).
Proof.
  apply flagsBacked_mono; try exact (fun H => H).
  intros f H. cbn. rewrite existsb_app, H. reflexivity.
Qed.

Ltac flagsBacked_crush :=
  repeat match goal with
    | |- flagsBacked (await _ _ _) => apply flagsBacked_await
    | |- flagsBacked (readNdef_catch ?e ?w) =>
        unfold readNdef_catch;
        destruct (isCancelling w || includes e "UserCancel" || includes e "cancelled")
    | |- flagsBacked (checkNfcSupport _) => unfold checkNfcSupport
    | |- flagsBacked (handleDeleteItem_filter _ _ _) => unfold handleDeleteItem_filter
    | |- flagsBacked (setScannedItems _ _) => unfold setScannedItems, setStorageItemAsync
    | |- flagsBacked (handleEmitItem_catch _) => unfold handleEmitItem_catch
    | |- flagsBacked (readNdef_finally _) => unfold readNdef_finally
    | |- flagsBacked (cleanup _ _) => unfold cleanup; cbn [hceSession initialState]
    | |- flagsBacked (setIsScanning false ?w) =>
        apply (flagsBacked_mono w (setIsScanning false w) (fun H => H)
                 (fun H => False_ind _ (Bool.diff_false_true H)) (fun _ H => H))
    | |- flagsBacked (?f ?w) =>
        apply (flagsBacked_mono w (f w) (fun H => H) (fun H => H) (fun _ H => H))
    end.

Lemma flagsBacked_step codec android (w w' : World) (ev : Event) :
  flagsBacked w -> step codec android w ev = Some w' -> flagsBacked w'.
Proof.
  intros Hw Hstep. step_cases Hstep.
  - destruct (emittingItem_truthy (state w)) eqn:Ht; [discriminate|].
    injection Hstep as <-. unfold readNdef. rewrite Ht.
    destruct (isScanning (state w)) eqn:Hs.
    + destruct Hw as [_ H2]. split; intros _; cbn; rewrite existsb_app.
      * cbn. apply orb_true_r.
      * now rewrite (H2 Hs).
    + destruct Hw as [H1 _]. split; intros H; cbn in H |- *; rewrite existsb_app.
      * now rewrite (H1 H).
      * cbn. apply orb_true_r.
  - destruct (android && negb (isScanning (state w))); [|discriminate].
    destruct (nth_error (items_or_empty (state w)) row) as [item|]; [|discriminate].
    injection Hstep as <-. unfold handleEmitItem.
    destruct (hceSession (state w)); [|flagsBacked_crush; exact Hw].
    destruct (isScanning (state w)); [flagsBacked_crush; exact Hw|].
    destruct (emittingItem_is (state w) (ScannedItem.id item));
      [flagsBacked_crush; exact Hw|].
    destruct (text_decodePayload codec _); flagsBacked_crush; exact Hw.
  - destruct (nth_error (items_or_empty (state w)) row) as [item|]; [|discriminate].
    injection Hstep as <-. unfold handleDeleteItem.
    destruct (emittingItem_is _ _); [destruct (hceSession (state w))|];
      flagsBacked_crush; exact Hw.
  - destruct (nth_error (pending w) i) as [k|] eqn:Hk; [|discriminate].
    assert (Hd : isCancelCont k = false -> isScanCont k = false ->
                 flagsBacked (drop_pending i w)).
    { intros Hc Hs. destruct Hw as [H1 H2].
      split; intros H; cbn; eapply existsb_remove_other; eauto. }
    assert (Hdc : isCancelCont k = false -> isCancelling w = true ->
                  existsb isCancelCont (remove_nth i (pending w)) = true).
    { intros Hc H. eapply existsb_remove_other; eauto. apply Hw, H. }
    resume_cases Hstep;
      try (try destruct android; flagsBacked_crush; apply Hd; reflexivity).
    + split; intros H; discriminate H.
    + split; intros H; discriminate H.
    + split; intros H; cbn in H |- *; rewrite existsb_app.
      * now rewrite (Hdc eq_refl H).
      * cbn. apply orb_true_r.
    + unfold readNdef_finally, readNdef_catch.
      destruct (isCancelling _ || includes ex "UserCancel" || includes ex "cancelled");
        (split; intros H; [exact (Hdc eq_refl H) | discriminate H]).
    + unfold readNdef_finally, readNdef_catch.
      destruct (isCancelling _ || includes ex "UserCancel" || includes ex "cancelled");
        (split; intros H; [exact (Hdc eq_refl H) | discriminate H]).
    + split; intros H; [exact (Hdc eq_refl H) | discriminate H].
    + split; intros H; [exact (Hdc eq_refl H) | discriminate H].
  - injection Hstep as <-. unfold cleanup. cbn [hceSession initialState].
    apply (flagsBacked_mono w _ (fun H => H) (fun H => H) (fun _ H => H)). exact Hw.
Qed.

(** X9. While the component is mounted the flags of a scan are never left
    set: in every state reached before the unmount, when the cancellation
    flag is set a cancellation request is outstanding, and when
    [isScanning] is set a technology request or a tag read is
    outstanding. *)
Theorem scan_flags_backed_by_requests (codec : NdefCodec) (android : bool) (w : World) :
  reachable codec android w ->
  mounted w = true ->
  (isCancelling w = true -> existsb isCancelCont (pending w) = true)
  /\ (isScanning (state w) = true -> existsb isScanCont (pending w) = true).
Proof.
  intros [evs Hrun] _.
  refine (run_invariant codec android flagsBacked (flagsBacked_step codec android)
            evs mount w _ Hrun).
  split; intros H; discriminate H.
Qed.

Lemma store_read_once_never_deleted_witness :
  reachable Ndef_codec true emittingA
  /\ List.length (filter isStoreRead (log emittingA)) = 1%nat
  /\ existsb isStoreDelete (log emittingA) = false.
Proof.
  assert (Hr : reachable Ndef_codec true emittingA).
  { exists (startUp [itemA; itemB] ++ emitEvents 0 0)%list. reflexivity. }
  split; [exact Hr|].
  exact (store_read_once_never_deleted Ndef_codec true emittingA Hr).
Defined.

Lemma scan_flags_backed_by_requests_witness :
  reachable Ndef_codec true (scanningWorld [])
  /\ isScanning (state (scanningWorld [])) = true
  /\ existsb isScanCont (pending (scanningWorld [])) = true.
Proof.
  assert (Hr : reachable Ndef_codec true (scanningWorld [])).
  { exists (startUp [] ++ [Press_scan])%list. reflexivity. }
  split; [exact Hr|]. split; [reflexivity|].
  exact (proj2 (scan_flags_backed_by_requests Ndef_codec true (scanningWorld []) Hr
                  eq_refl)
           eq_refl).
Defined.

(** *** The HCE session *)

Lemma neverBound_state (w w' : World) :
  hceSession (state w') = hceSession (state w) ->
  pending w' = pending w ->
  neverBound w -> neverBound w'.
Proof. intros Hh Hp [H1 H2]. split; [congruence | now rewrite Hp]. Qed.

Lemma neverBound_await (e : Effect) (k : Cont) (w : World) :
  isSessionCont k = false -> neverBound w -> neverBound (await e k w).
Proof.
  intros Hk [H1 H2]. split; [exact H1|].
  cbn. rewrite existsb_app, H2. cbn. now rewrite Hk.
Qed.

Ltac neverBound_crush :=
  repeat match goal with
    | |- neverBound (await _ _ _) => apply neverBound_await; [reflexivity|]
    | |- neverBound (readNdef_catch ?e ?w) =>
        unfold readNdef_catch;
        destruct (isCancelling w || includes e "UserCancel" || includes e "cancelled")
    | |- neverBound (checkNfcSupport _) => unfold checkNfcSupport
    | |- neverBound (handleDeleteItem_filter _ _ _) => unfold handleDeleteItem_filter
    | |- neverBound (setScannedItems _ _) => unfold setScannedItems, setStorageItemAsync
    | |- neverBound (handleEmitItem_catch _) => unfold handleEmitItem_catch
    | |- neverBound (readNdef_finally _) => unfold readNdef_finally
    | |- neverBound (cleanup _ _) => unfold cleanup; cbn [hceSession initialState]
    | |- neverBound (?f ?w) => apply (neverBound_state w (f w) eq_refl eq_refl)
    end.

Lemma neverBound_step codec android (w w' : World) (ev : Event) :
  neverBound w -> step codec android w ev = Some w' -> neverBound w'.
Proof.
  intros Hw Hstep. step_cases Hstep.
  - destruct (emittingItem_truthy (state w)) eqn:Ht; [discriminate|].
    injection Hstep as <-. unfold readNdef. rewrite Ht.
    destruct (isScanning (state w)); neverBound_crush; exact Hw.
  - destruct (android && negb (isScanning (state w))); [|discriminate].
    destruct (nth_error (items_or_empty (state w)) row) as [item|]; [|discriminate].
    injection Hstep as <-. unfold handleEmitItem. rewrite (proj1 Hw).
    neverBound_crush. exact Hw.
  - destruct (nth_error (items_or_empty (state w)) row) as [item|]; [|discriminate].
    injection Hstep as <-. unfold handleDeleteItem. rewrite (proj1 Hw).
    destruct (emittingItem_is _ _); neverBound_crush; exact Hw.
  - destruct (nth_error (pending w) i) as [k|] eqn:Hk; [|discriminate].
    assert (Hd : neverBound (drop_pending i w)).
    { destruct Hw as [H1 H2]. split; [exact H1|]. cbn. now apply existsb_remove_nth. }
    assert (Hne : isSessionCont k = false).
    { destruct (isSessionCont k) eqn:Hs; [|reflexivity].
      pose proof (proj2 Hw) as H2.
      rewrite (existsb_nth_error _ _ _ _ Hk Hs) in H2. discriminate. }
    resume_cases Hstep; try discriminate; neverBound_crush; exact Hd.
  - injection Hstep as <-. neverBound_crush. exact Hw.
Qed.

(** X10. When the initialisation fails before a session is bound
    ([NfcManager.start()] or [HCESession.getInstance()] is rejected, and
    nothing else is fetching a session), no session is ever bound
    afterwards: every later request to emit only shows the alert that the
    session is not initialised. *)
Theorem failed_init_disables_emission (codec : NdefCodec) (android : bool) (w : World)
    (i : nat) (k : Cont) (e : string) (evs : list Event) (w' : World)
    (item : ScannedItem.t) :
  mounted w = true ->
  hceSession (state w) = None ->
  nth_error (pending w) i = Some k ->
  k = K_start \/ k = K_getInstance ->
  existsb isSessionCont (remove_nth i (pending w)) = false ->
  run codec android w (Resume i (Rejected e) :: evs) = Some w' ->
  hceSession (state w') = None
  /\ handleEmitItem codec (state w') item w'
     = perform (Alert_alert "Error" "HCE Session not initialized. Android only.") w'.
Proof.
  intros Hm Hh Hk Hkind Hrest Hrun. cbn [run] in Hrun.
  rewrite (step_Resume codec android w i k _ Hm Hk) in Hrun.
  assert (Hw1 : neverBound (setNfcStatus "Initialization Error" (drop_pending i w))).
  { split; [exact Hh | exact Hrest]. }
  assert (Hres : resume android k (Rejected e) (drop_pending i w)
                 = Some (setNfcStatus "Initialization Error" (drop_pending i w))).
  { destruct Hkind as [->| ->]; reflexivity. }
  rewrite Hres in Hrun.
  pose proof (run_invariant codec android neverBound (neverBound_step codec android)
                evs _ w' Hw1 Hrun) as [Hnone _].
  split; [exact Hnone|]. unfold handleEmitItem. now rewrite Hnone.
Qed.

Lemma failed_init_disables_emission_witness :
  mounted mount = true
  /\ nth_error (pending mount) 1 = Some K_start
  /\ existsb isSessionCont (remove_nth 1 (pending mount)) = false
  /\ exists w',
       run Ndef_codec true mount
         [Resume 1 (Rejected "NFC unavailable"); Resume 0 (ResolvedItem (Some (Some [itemA])));
          Press_scan]
       = Some w'
       /\ hceSession (state w') = None.
Proof.
  repeat (split; [reflexivity|]).
  eexists. split; [reflexivity|].
  exact (proj1 (failed_init_disables_emission Ndef_codec true mount 1 K_start
                  "NFC unavailable"
                  [Resume 0 (ResolvedItem (Some (Some [itemA]))); Press_scan] _ itemA
                  eq_refl eq_refl eq_refl (or_introl eq_refl) eq_refl eq_refl)).
Defined.

Lemma hceUntouched_state (w w' : World) :
  hceSession (state w') = hceSession (state w) ->
  pending w' = pending w ->
  log w' = log w ->
  hceUntouched w -> hceUntouched w'.
Proof.
  intros Hh Hp Hl (H1 & H2 & H3). unfold hceUntouched. now rewrite Hh, Hp, Hl.
Qed.

Lemma hceUntouched_perform (e : Effect) (w : World) :
  isHce e = false -> hceUntouched w -> hceUntouched (perform e w).
Proof.
  intros He (H1 & H2 & H3). repeat split; [exact H1 | exact H2 |].
  cbn. rewrite existsb_app, H3. cbn. now rewrite He.
Qed.

Lemma hceUntouched_await (e : Effect) (k : Cont) (w : World) :
  isHce e = false -> isHceCont k = false -> hceUntouched w -> hceUntouched (await e k w).
Proof.
  intros He Hk (H1 & H2 & H3). repeat split; [exact H1 | |].
  - cbn. rewrite existsb_app, H2. cbn. now rewrite Hk.
  - cbn. rewrite existsb_app, H3. cbn. now rewrite He.
Qed.

Ltac hceUntouched_crush :=
  repeat match goal with
    | |- hceUntouched (await _ _ _) =>
        apply hceUntouched_await; [reflexivity | reflexivity |]
    | |- hceUntouched (perform _ _) => apply hceUntouched_perform; [reflexivity|]
    | |- hceUntouched (readNdef_catch ?e ?w) =>
        unfold readNdef_catch;
        destruct (isCancelling w || includes e "UserCancel" || includes e "cancelled")
    | |- hceUntouched (checkNfcSupport _) => unfold checkNfcSupport
    | |- hceUntouched (handleDeleteItem_filter _ _ _) => unfold handleDeleteItem_filter
    | |- hceUntouched (setScannedItems _ _) =>
        unfold setScannedItems, setStorageItemAsync
    | |- hceUntouched (handleEmitItem_catch _) => unfold handleEmitItem_catch
    | |- hceUntouched (readNdef_finally _) => unfold readNdef_finally
    | |- hceUntouched (cleanup _ _) => unfold cleanup; cbn [hceSession initialState]
    | |- hceUntouched (?f ?w) =>
        apply (hceUntouched_state w (f w) eq_refl eq_refl eq_refl)
    end.

Lemma hceUntouched_step codec (w w' : World) (ev : Event) :
  hceUntouched w -> step codec false w ev = Some w' -> hceUntouched w'.
Proof.
  intros Hw Hstep. step_cases Hstep.
  - destruct (emittingItem_truthy (state w)) eqn:Ht; [discriminate|].
    injection Hstep as <-. unfold readNdef. rewrite Ht.
    destruct (isScanning (state w)); hceUntouched_crush; exact Hw.
  - discriminate.
  - destruct (nth_error (items_or_empty (state w)) row) as [item|]; [|discriminate].
    injection Hstep as <-. unfold handleDeleteItem. rewrite (proj1 Hw).
    destruct (emittingItem_is _ _); hceUntouched_crush; exact Hw.
  - destruct (nth_error (pending w) i) as [k|] eqn:Hk; [|discriminate].
    assert (Hd : hceUntouched (drop_pending i w)).
    { destruct Hw as (H1 & H2 & H3). repeat split; [exact H1 | | exact H3].
      cbn. now apply existsb_remove_nth. }
    assert (Hne : isHceCont k = false).
    { destruct (isHceCont k) eqn:Hs; [|reflexivity].
      pose proof (proj1 (proj2 Hw)) as H2.
      rewrite (existsb_nth_error _ _ _ _ Hk Hs) in H2. discriminate. }
    resume_cases Hstep; try discriminate; hceUntouched_crush; exact Hd.
  - injection Hstep as <-. hceUntouched_crush. exact Hw.
Qed.

(** X11. Off Android the component never touches the HCE library: in every
    reachable state, the teardown included, no session is bound, no call to
    [getInstance], [setApplication] or [setEnabled] has been made, and none
    is waited for. *)
Theorem no_hce_call_off_android (codec : NdefCodec) (w : World) :
  reachable codec false w ->
  hceSession (state w) = None
  /\ existsb isHceCont (pending w) = false
  /\ existsb isHce (log w) = false.
Proof.
  intros [evs Hrun].
  refine (run_invariant codec false hceUntouched (hceUntouched_step codec)
            evs mount w _ Hrun).
  repeat split; reflexivity.
Qed.

Lemma no_hce_call_off_android_witness :
  exists w,
    run Ndef_codec false mount
      [Resume 0 (ResolvedItem (Some (Some [itemA]))); Resume 0 Resolved;
       Press_delete 0; Unmount] = Some w
    /\ reachable Ndef_codec false w
    /\ existsb isHce (log w) = false.
Proof.
  eexists. split; [reflexivity|].
  match goal with
  | |- reachable _ _ ?w /\ _ =>
      assert (Hr : reachable Ndef_codec false w)
        by (exists [Resume 0 (ResolvedItem (Some (Some [itemA]))); Resume 0 Resolved;
                    Press_delete 0; Unmount]; reflexivity);
      split; [exact Hr|];
      exact (proj2 (proj2 (no_hce_call_off_android Ndef_codec w Hr)))
  end.
Defined.

(** *** The order of the HCE calls *)

Lemma enabledAfterSet_snoc (l : list Effect) (e : Effect) :
  forall seen,
    enabledAfterSet (l ++ [e]) seen
    = enabledAfterSet l seen
      && match e with
         | setEnabled true => seen || existsb isSetApplication l
         | _ => true
         end.
Proof.
  induction l as [|x l IH]; intros seen.
  - destruct e as [| | | | | | | |[|]| | | |]; cbn; rewrite ?orb_false_r, ?andb_true_r;
      reflexivity.
  - destruct x as [| | | | | | | |[|]| | | |]; cbn [app enabledAfterSet existsb isSetApplication];
      rewrite IH; cbn [orb];
      try reflexivity.
    + destruct e as [| | | | | | | |[|]| | | |]; rewrite ?orb_true_r; reflexivity.
    + rewrite andb_assoc. reflexivity.
Qed.

Lemma applicationFirst_state (w w' : World) :
  pending w' = pending w -> log w' = log w ->
  applicationFirst w -> applicationFirst w'.
Proof. intros Hp Hl H. unfold applicationFirst. now rewrite Hp, Hl. Qed.

Lemma applicationFirst_perform (e : Effect) (w : World) :
  isSetEnabled true e = false -> applicationFirst w -> applicationFirst (perform e w).
Proof.
  intros He [H1 H2]. split.
  - cbn. rewrite enabledAfterSet_snoc, H1.
    destruct e as [| | | | | | | |[|]| | | |]; try reflexivity. discriminate.
  - intros H. cbn. rewrite existsb_app, (H2 H). reflexivity.
Qed.

Lemma applicationFirst_await (e : Effect) (k : Cont) (w : World) :
  isSetEnabled true e = false ->
  (isSetApplicationCont k = true -> isSetApplication e = true) ->
  applicationFirst w -> applicationFirst (await e k w).
Proof.
  intros He Hk [H1 H2]. split.
  - cbn. rewrite enabledAfterSet_snoc, H1.
    destruct e as [| | | | | | | |[|]| | | |]; try reflexivity. discriminate.
  - cbn. rewrite !existsb_app. cbn. rewrite !orb_false_r. intros H.
    apply orb_true_iff in H as [H|H]; [now rewrite (H2 H)|].
    rewrite (Hk H). apply orb_true_r.
Qed.

Ltac applicationFirst_crush :=
  repeat match goal with
    | |- applicationFirst (await _ _ _) =>
        apply applicationFirst_await;
        [reflexivity | first [reflexivity | intros; reflexivity | discriminate] |]
    | |- applicationFirst (perform _ _) =>
        apply applicationFirst_perform; [reflexivity|]
    | |- applicationFirst (readNdef_catch ?e ?w) =>
        unfold readNdef_catch;
        destruct (isCancelling w || includes e "UserCancel" || includes e "cancelled")
    | |- applicationFirst (checkNfcSupport _) => unfold checkNfcSupport
    | |- applicationFirst (handleDeleteItem_filter _ _ _) =>
        unfold handleDeleteItem_filter
    | |- applicationFirst (setScannedItems _ _) =>
        unfold setScannedItems, setStorageItemAsync
    | |- applicationFirst (handleEmitItem_catch _) => unfold handleEmitItem_catch
    | |- applicationFirst (readNdef_finally _) => unfold readNdef_finally
    | |- applicationFirst (cleanup _ _) => unfold cleanup; cbn [hceSession initialState]
    | |- applicationFirst (?f ?w) =>
        apply (applicationFirst_state w (f w) eq_refl eq_refl)
    end.

Lemma applicationFirst_step codec android (w w' : World) (ev : Event) :
  applicationFirst w -> step codec android w ev = Some w' -> applicationFirst w'.
Proof.
  intros Hw Hstep. step_cases Hstep.
  - destruct (emittingItem_truthy (state w)) eqn:Ht; [discriminate|].
    injection Hstep as <-. unfold readNdef. rewrite Ht.
    destruct (isScanning (state w)); applicationFirst_crush; exact Hw.
  - destruct (android && negb (isScanning (state w))); [|discriminate].
    destruct (nth_error (items_or_empty (state w)) row) as [item|]; [|discriminate].
    injection Hstep as <-. unfold handleEmitItem.
    destruct (hceSession (state w)); [|applicationFirst_crush; exact Hw].
    destruct (isScanning (state w)); [applicationFirst_crush; exact Hw|].
    destruct (emittingItem_is (state w) (ScannedItem.id item));
      [applicationFirst_crush; exact Hw|].
    destruct (text_decodePayload codec _); applicationFirst_crush; exact Hw.
  - destruct (nth_error (items_or_empty (state w)) row) as [item|]; [|discriminate].
    injection Hstep as <-. unfold handleDeleteItem.
    destruct (emittingItem_is _ _); [destruct (hceSession (state w))|];
      applicationFirst_crush; exact Hw.
  - destruct (nth_error (pending w) i) as [k|] eqn:Hk; [|discriminate].
    assert (Hd : applicationFirst (drop_pending i w)).
    { destruct Hw as [H1 H2]. split; [exact H1|]. intros H. apply H2.
      destruct (existsb isSetApplicationCont (pending w)) eqn:Hp; [reflexivity|].
      cbn in H. rewrite (existsb_remove_nth _ i _ Hp) in H. discriminate. }
    assert (Hset : isSetApplicationCont k = true ->
                   existsb isSetApplication (log w) = true).
    { intros Hs. apply Hw. eapply existsb_nth_error; eauto. }
    resume_cases Hstep; try (applicationFirst_crush; exact Hd);
      try (destruct android; applicationFirst_crush; exact Hd).
    destruct Hd as [H1 H2]. split.
    + cbn. rewrite enabledAfterSet_snoc. cbn in H1. rewrite H1, (Hset eq_refl).
      reflexivity.
    + intros _. cbn. rewrite existsb_app, (Hset eq_refl). reflexivity.
  - injection Hstep as <-. applicationFirst_crush. exact Hw.
Qed.

(** X12. The channel is never enabled before an application was set: in the
    calls of every reachable state, each [setEnabled(true)] comes after a
    [setApplication]. *)
Theorem enabled_only_after_setApplication (codec : NdefCodec) (android : bool)
    (w : World) :
  reachable codec android w ->
  enabledAfterSet (log w) false = true.
Proof.
  intros [evs Hrun].
  refine (proj1 (run_invariant codec android applicationFirst
                   (applicationFirst_step codec android) evs mount w _ Hrun)).
  split; [reflexivity | discriminate].
Qed.

Lemma enabled_only_after_setApplication_witness :
  reachable Ndef_codec true emittingA
  /\ enabledAfterSet (log emittingA) false = true.
Proof.
  assert (Hr : reachable Ndef_codec true emittingA).
  { exists (startUp [itemA; itemB] ++ emitEvents 0 0)%list. reflexivity. }
  split; [exact Hr|].
  exact (enabled_only_after_setApplication Ndef_codec true emittingA Hr).
Defined.

(** *** The checks made at mount *)

Lemma count_app {A : Type} (f : A -> bool) (l1 l2 : list A) :
  count f (l1 ++ l2) = (count f l1 + count f l2)%nat.
Proof. unfold count. now rewrite filter_app, length_app. Qed.

Lemma count_snoc {A : Type} (f : A -> bool) (l : list A) (a : A) :
  count f (l ++ [a]) = (count f l + (if f a then 1 else 0))%nat.
Proof. rewrite count_app. unfold count. cbn [filter]. now destruct (f a). Qed.

Lemma count_remove_nth {A : Type} (f : A -> bool) (i : nat) (l : list A) (a : A) :
  nth_error l i = Some a ->
  count f l = (count f (remove_nth i l) + (if f a then 1 else 0))%nat.
Proof.
  unfold count. revert i. induction l as [|x l IH]; intros i H; [destruct i; discriminate|].
  destruct i as [|i]; cbn [nth_error remove_nth filter] in H |- *.
  - injection H as ->. destruct (f a); cbn [List.length]; lia.
  - specialize (IH i H). destruct (f x); cbn [List.length]; lia.
Qed.

Lemma checkedOnce_state (w w' : World) :
  pending w' = pending w -> log w' = log w -> checkedOnce w -> checkedOnce w'.
Proof. intros Hp Hl H. unfold checkedOnce. now rewrite Hp, Hl. Qed.

Lemma checkedOnce_await (e : Effect) (k : Cont) (w : World) :
  isStart e = false -> isSupportedQuery e = false -> isEnabledQuery e = false ->
  isGetInstance e = false -> isStartCont k = false -> isSupportedCont k = false ->
  checkedOnce w -> checkedOnce (await e k w).
Proof.
  intros H1 H2 H3 H4 H5 H6 H. unfold checkedOnce in *. cbn [await log pending].
  rewrite !count_snoc, H1, H2, H3, H4, H5, H6. lia.
Qed.

Lemma checkedOnce_perform (e : Effect) (w : World) :
  isStart e = false -> isSupportedQuery e = false -> isEnabledQuery e = false ->
  isGetInstance e = false ->
  checkedOnce w -> checkedOnce (perform e w).
Proof.
  intros H1 H2 H3 H4 H. unfold checkedOnce in *. cbn [perform log pending].
  rewrite !count_snoc, H1, H2, H3, H4. lia.
Qed.

Ltac checkedOnce_crush :=
  repeat match goal with
    | |- checkedOnce (await _ _ _) =>
        apply checkedOnce_await; [reflexivity .. |]
    | |- checkedOnce (perform _ _) =>
        apply checkedOnce_perform; [reflexivity .. |]
    | |- checkedOnce (readNdef_catch ?e ?w) =>
        unfold readNdef_catch;
        destruct (isCancelling w || includes e "UserCancel" || includes e "cancelled")
    | |- checkedOnce (handleDeleteItem_filter _ _ _) => unfold handleDeleteItem_filter
    | |- checkedOnce (setScannedItems _ _) =>
        unfold setScannedItems, setStorageItemAsync
    | |- checkedOnce (handleEmitItem_catch _) => unfold handleEmitItem_catch
    | |- checkedOnce (readNdef_finally _) => unfold readNdef_finally
    | |- checkedOnce (cleanup _ _) => unfold cleanup; cbn [hceSession initialState]
    | |- checkedOnce (?f ?w) => apply (checkedOnce_state w (f w) eq_refl eq_refl)
    end.

Lemma checkedOnce_step codec android (w w' : World) (ev : Event) :
  checkedOnce w -> step codec android w ev = Some w' -> checkedOnce w'.
Proof.
  intros Hw Hstep. step_cases Hstep.
  - destruct (emittingItem_truthy (state w)) eqn:Ht; [discriminate|].
    injection Hstep as <-. unfold readNdef. rewrite Ht.
    destruct (isScanning (state w)); checkedOnce_crush; exact Hw.
  - destruct (android && negb (isScanning (state w))); [|discriminate].
    destruct (nth_error (items_or_empty (state w)) row) as [item|]; [|discriminate].
    injection Hstep as <-. unfold handleEmitItem.
    destruct (hceSession (state w)); [|checkedOnce_crush; exact Hw].
    destruct (isScanning (state w)); [checkedOnce_crush; exact Hw|].
    destruct (emittingItem_is (state w) (ScannedItem.id item));
      [checkedOnce_crush; exact Hw|].
    destruct (text_decodePayload codec _); checkedOnce_crush; exact Hw.
  - destruct (nth_error (items_or_empty (state w)) row) as [item|]; [|discriminate].
    injection Hstep as <-. unfold handleDeleteItem.
    destruct (emittingItem_is _ _); [destruct (hceSession (state w))|];
      checkedOnce_crush; exact Hw.
  - destruct (nth_error (pending w) i) as [k|] eqn:Hk; [|discriminate].
    pose proof (count_remove_nth isStartCont i _ _ Hk) as Hc1.
    pose proof (count_remove_nth isSupportedCont i _ _ Hk) as Hc2.
    assert (Hd : checkedOnce (drop_pending i w)).
    { unfold checkedOnce in *. cbn [drop_pending log pending]. lia. }
    resume_cases Hstep; try (checkedOnce_crush; exact Hd);
      unfold checkedOnce, checkNfcSupport in *;
      try destruct android;
      cbn [await perform drop_pending log pending isStartCont isSupportedCont] in *;
      rewrite ?count_snoc;
      cbn [isStart isSupportedQuery isEnabledQuery isGetInstance isStartCont
           isSupportedCont]; lia.
  - injection Hstep as <-. checkedOnce_crush. exact Hw.
Qed.

(** X13. The checks of the mount effect are made once: whatever happens
    afterwards, [NfcManager.start] has been called exactly once, and
    [isSupported], [isEnabled] and [HCESession.getInstance] at most once
    each; the status of NFC and the session are never asked for again. *)
Theorem mount_checks_made_once (codec : NdefCodec) (android : bool) (w : World) :
  reachable codec android w ->
  (count isStart (log w) = 1
   /\ count isSupportedQuery (log w) <= 1
   /\ count isEnabledQuery (log w) <= 1
   /\ count isGetInstance (log w) <= 1)%nat.
Proof.
  intros [evs Hrun].
  assert (H : checkedOnce w).
  { refine (run_invariant codec android checkedOnce (checkedOnce_step codec android)
              evs mount w _ Hrun).
    unfold checkedOnce. cbn. lia. }
  unfold checkedOnce in H. lia.
Qed.

Lemma mount_checks_made_once_witness :
  reachable Ndef_codec true emittingA
  /\ count isStart (log emittingA) = 1%nat
  /\ count isEnabledQuery (log emittingA) = 1%nat.
Proof.
  assert (Hr : reachable Ndef_codec true emittingA).
  { exists (startUp [itemA; itemB] ++ emitEvents 0 0)%list. reflexivity. }
  split; [exact Hr|].
  split; [exact (proj1 (mount_checks_made_once Ndef_codec true emittingA Hr))|].
  reflexivity.
Defined.

(** *** The first read of the store *)

(** X14. A stored archive that cannot be read counts as an empty one: when
    the read finds no value, a value that does not parse, or fails, the list
    stays empty and nothing is written; the next scan that finds a tag then
    saves an archive of that one item over whatever the store holds. *)
Theorem unreadable_store_is_empty_archive (codec : NdefCodec) (android : bool)
    (w : World) (i : nat) (r : Response) (tag : TagEvent.t) (clock : Clock) :
  mounted w = true ->
  scannedItems (state w) = None ->
  isScanning (state w) = false ->
  emittingItem (state w) = None ->
  nth_error (pending w) i = Some K_getItemAsync ->
  r = ResolvedItem None \/ r = ResolvedItem (Some None) \/ (exists e, r = Rejected e) ->
  exists w1 w2,
    step codec android w (Resume i r) = Some w1
    /\ items_or_empty (state w1) = []
    /\ log w1 = log w
    /\ run codec android w1 (scanEvents (List.length (pending w1)) tag clock) = Some w2
    /\ scannedItems (state w2) = Some [newItemOf tag clock]
    /\ lastWrite (log w2) None = Some [newItemOf tag clock].
Proof.
  intros Hm Hnone Hs He Hk Hr.
  assert (H1 : exists w1,
             step codec android w (Resume i r) = Some w1
             /\ scannedItems (state w1) = None
             /\ isScanning (state w1) = false
             /\ emittingItem (state w1) = None
             /\ mounted w1 = true
             /\ log w1 = log w).
  { rewrite (step_Resume codec android w i _ r Hm Hk). cbn [resume resume_getItemAsync].
    destruct Hr as [-> | [-> | [e ->]]]; eexists; (split; [reflexivity|]); cbn;
      repeat split; assumption. }
  destruct H1 as (w1 & Hstep & Hnone1 & Hs1 & He1 & Hm1 & Hl1).
  assert (Ht1 : emittingItem_truthy (state w1) = false).
  { unfold emittingItem_truthy. now rewrite He1. }
  destruct (scan_run_facts codec android w1 tag clock Hm1 Hs1 Ht1)
    as (w2 & Hrun & Hstate & _ & _ & _ & Hlog).
  assert (Hempty : items_or_empty (state w1) = []).
  { unfold items_or_empty. now rewrite Hnone1. }
  exists w1, w2. split; [exact Hstep|]. split; [exact Hempty|]. split; [exact Hl1|].
  split; [exact Hrun|].
  rewrite Hstate, Hlog, Hempty. split; [reflexivity|].
  change [NfcManager_requestTechnology; NfcManager_getTag;
          SecureStore_setItemAsync [newItemOf tag clock]]
    with ([NfcManager_requestTechnology; NfcManager_getTag]
          ++ [SecureStore_setItemAsync [newItemOf tag clock]])%list.
  rewrite app_assoc. apply lastWrite_snoc.
Qed.

Lemma unreadable_store_is_empty_archive_witness :
  exists w1 w2,
    step Ndef_codec true mount (Resume 0 (Rejected "unavailable")) = Some w1
    /\ items_or_empty (state w1) = []
    /\ log w1 = log mount
    /\ run Ndef_codec true w1 (scanEvents (List.length (pending w1)) tagA clockA) = Some w2
    /\ scannedItems (state w2) = Some [newItemOf tagA clockA]
    /\ lastWrite (log w2) None = Some [newItemOf tagA clockA].
Proof.
  apply (unreadable_store_is_empty_archive Ndef_codec true mount 0
           (Rejected "unavailable") tagA clockA);
    try reflexivity.
  right. right. now exists "unavailable".
Defined.

(** X15. A scan that finds a tag before the stored archive has been read
    saves an archive of its one item; when the read then gives the stored
    items, the list shows these and not the new item, while the last value
    handed to the store is the new item alone. *)
Theorem scan_before_load_is_overwritten (codec : NdefCodec) (android : bool)
    (w : World) (i : nat) (stored : list ScannedItem.t) (tag : TagEvent.t)
    (clock : Clock) :
  mounted w = true ->
  scannedItems (state w) = None ->
  isScanning (state w) = false ->
  emittingItem (state w) = None ->
  nth_error (pending w) i = Some K_getItemAsync ->
  exists w1 w2,
    run codec android w (scanEvents (List.length (pending w)) tag clock) = Some w1
    /\ scannedItems (state w1) = Some [newItemOf tag clock]
    /\ step codec android w1 (Resume i (ResolvedItem (Some (Some stored)))) = Some w2
    /\ scannedItems (state w2) = Some stored
    /\ lastWrite (log w2) None = Some [newItemOf tag clock].
Proof.
  intros Hm Hnone Hs He Hk.
  assert (Ht : emittingItem_truthy (state w) = false).
  { unfold emittingItem_truthy. now rewrite He. }
  destruct (scan_run_facts codec android w tag clock Hm Hs Ht)
    as (w1 & Hrun & Hstate & _ & Hp & Hm1 & Hlog).
  assert (Hempty : items_or_empty (state w) = []).
  { unfold items_or_empty. now rewrite Hnone. }
  rewrite Hempty in Hstate, Hlog.
  exists w1. eexists. split; [exact Hrun|].
  split; [now rewrite Hstate|].
  rewrite <- Hp in Hk.
  rewrite (step_Resume codec android w1 i _ _ Hm1 Hk). cbn [resume resume_getItemAsync].
  split; [reflexivity|]. split; [reflexivity|].
  cbn [setValue withState drop_pending log]. rewrite Hlog.
  change [NfcManager_requestTechnology; NfcManager_getTag;
          SecureStore_setItemAsync [newItemOf tag clock]]
    with ([NfcManager_requestTechnology; NfcManager_getTag]
          ++ [SecureStore_setItemAsync [newItemOf tag clock]])%list.
  rewrite app_assoc. apply lastWrite_snoc.
Qed.

Lemma scan_before_load_is_overwritten_witness :
  exists w1 w2,
    run Ndef_codec true mount (scanEvents (List.length (pending mount)) tagB clockB)
    = Some w1
    /\ scannedItems (state w1) = Some [newItemOf tagB clockB]
    /\ step Ndef_codec true w1 (Resume 0 (ResolvedItem (Some (Some [itemA])))) = Some w2
    /\ scannedItems (state w2) = Some [itemA]
    /\ lastWrite (log w2) None = Some [newItemOf tagB clockB].
Proof.
  apply (scan_before_load_is_overwritten Ndef_codec true mount 0 [itemA] tagB clockB);
    reflexivity.
Defined.

(** ** The scan button *)

Lemma exclusive_runSerial_world codec android (evs : list Event) :
  forall w w',
    exclusive w -> runSerial codec android w evs = Some w' -> exclusive w'.
Proof.
  induction evs as [|ev evs IH]; intros w w' Hw Hrun; cbn [runSerial] in Hrun.
  - now injection Hrun as <-.
  - destruct (overlaps w ev) eqn:Hov; [discriminate|].
    destruct (step codec android w ev) as [w1|] eqn:Hstep; [|discriminate].
    eapply IH; [|exact Hrun]. eapply exclusive_step; eauto.
Qed.

(** X16. In the runs in which the scan button is not pressed while a request
    to emit is enabling the channel, the button tells what a press does: while
    a scan is outstanding it is enabled, reads Stop Scanning and a press
    requests the cancellation; while an item is emitted it reads Cannot Scan
    and takes no press; otherwise it reads Start Scan and a press requests
    the technology. *)
Theorem scan_button_tells_what_a_press_does (codec : NdefCodec) (android : bool)
    (evs : list Event) (w : World) :
  runSerial codec android mount evs = Some w ->
  mounted w = true ->
  (isScanning (state w) = true ->
   scanButton_disabled (state w) = false
   /\ scanButton_label (state w) = "Stop Scanning"
   /\ step codec android w Press_scan
      = Some (await NfcManager_cancelTechnologyRequest K_cancelTechnologyRequest
                (set_isCancelling true w)))
  /\ (emittingItem_truthy (state w) = true ->
      scanButton_disabled (state w) = true
      /\ scanButton_label (state w) = "Cannot Scan (Emitting)"
      /\ step codec android w Press_scan = None)
  /\ (isScanning (state w) = false -> emittingItem_truthy (state w) = false ->
      scanButton_disabled (state w) = false
      /\ scanButton_label (state w) = "Start Scan"
      /\ step codec android w Press_scan
         = Some (await NfcManager_requestTechnology (K_requestTechnology (state w))
                   (setNfcStatus "Scanning..." (setIsScanning true w)))).
Proof.
  intros Hrun Hm.
  assert (Hex : exclusive w).
  { eapply exclusive_runSerial_world; [|exact Hrun]. apply exclusive_idle. reflexivity. }
  unfold scanButton_disabled, scanButton_label, step. rewrite Hm. cbn [negb].
  split; [|split].
  - intros Hs. destruct (Hex Hs) as [Ht _]. rewrite Ht.
    unfold readNdef. rewrite Hs. repeat split; reflexivity.
  - intros Ht.
    destruct (isScanning (state w)) eqn:Hs.
    + destruct (Hex Hs) as [Ht' _]. congruence.
    + rewrite Ht. repeat split; reflexivity.
  - intros Hs Ht. rewrite Hs, Ht. unfold readNdef. rewrite Hs, Ht.
    repeat split; reflexivity.
Qed.

Lemma scan_button_tells_what_a_press_does_witness :
  runSerial Ndef_codec true mount (startUp [itemA] ++ [Press_scan])
  = Some (scanningWorld [itemA])
  /\ scanButton_label (state (scanningWorld [itemA])) = "Stop Scanning"
  /\ step Ndef_codec true (scanningWorld [itemA]) Press_scan
     = Some (await NfcManager_cancelTechnologyRequest K_cancelTechnologyRequest
               (set_isCancelling true (scanningWorld [itemA]))).
Proof.
  assert (Hrun : runSerial Ndef_codec true mount (startUp [itemA] ++ [Press_scan])
                 = Some (scanningWorld [itemA])) by reflexivity.
  split; [exact Hrun|].
  exact (proj2 (proj1 (scan_button_tells_what_a_press_does Ndef_codec true _ _ Hrun
                         eq_refl) eq_refl)).
Defined.

(** ** The config plugin *)

Lemma prop_get_set {A : Type} (key : string) (v : A) (obj : list (string * A)) :
  prop_get key (prop_set key v obj) = Some v.
Proof.
  induction obj as [|[k v'] rest IH]; cbn [prop_set prop_get].
  - now rewrite String.eqb_refl.
  - destruct (String.eqb k key) eqn:E; cbn [prop_get]; rewrite E; [reflexivity | exact IH].
Qed.

Lemma prop_get_set_other {A : Type} (key key' : string) (v : A)
    (obj : list (string * A)) :
  key' <> key -> prop_get key' (prop_set key v obj) = prop_get key' obj.
Proof.
  intros Hne. induction obj as [|[k v'] rest IH]; cbn [prop_set prop_get].
  - destruct (String.eqb key key') eqn:E; [|reflexivity].
    apply String.eqb_eq in E. congruence.
  - destruct (String.eqb k key) eqn:E; cbn [prop_get].
    + apply String.eqb_eq in E. subst k.
      destruct (String.eqb key key') eqn:E'; [|reflexivity].
      apply String.eqb_eq in E'. congruence.
    + now rewrite IH.
Qed.

Lemma isCardService_CardService : isCardService CardService = Ok true.
Proof. reflexivity. Qed.

(** When no service is the card service, the pushed element is the one
    [find] gives. *)
Lemma find_pushed (services : list Xml.Node) :
  find services = Ok None ->
  find (services ++ [CardService]) = Ok (Some CardService).
Proof.
  induction services as [|s rest IH]; intros H; [reflexivity|].
  cbn [app find] in H |- *.
  destruct (isCardService s) as [[|]|e]; cbn [bind] in H |- *;
    [discriminate | now apply IH | discriminate].
Qed.

(** What a successful run of [withHceService] did. *)
Lemma withHceService_cases (manifest manifest' : Xml.Node) :
  withHceService manifest = Ok manifest' ->
  exists mainApplication others,
    prop_get "application" (Xml.children manifest) = Some (mainApplication :: others)
    /\ ((exists s, findCardService mainApplication = Ok (Some s) /\ manifest' = manifest)
        \/ (findCardService mainApplication = Ok None
            /\ manifest' =
               Xml.mk (Xml.attrs manifest)
                 (prop_set "application"
                    (Xml.mk (Xml.attrs mainApplication)
                       (prop_set "service"
                          (services_or_empty mainApplication ++ [CardService])%list
                          (Xml.children mainApplication)) :: others)
                    (Xml.children manifest)))).
Proof.
  unfold withHceService. intros H.
  destruct (prop_get "application" (Xml.children manifest)) as [[|app others]|];
    [discriminate | | discriminate].
  exists app, others. split; [reflexivity|].
  destruct (findCardService app) as [[s|]|e]; cbn [bind] in H; [| |discriminate].
  - left. exists s. injection H as <-. now split.
  - right. injection H as <-. now split.
Qed.

Lemma findCardService_pushed (mainApplication : Xml.Node) :
  findCardService mainApplication = Ok None ->
  findCardService
    (Xml.mk (Xml.attrs mainApplication)
       (prop_set "service" (services_or_empty mainApplication ++ [CardService])%list
          (Xml.children mainApplication)))
  = Ok (Some CardService).
Proof.
  unfold findCardService, services_or_empty. cbn [Xml.children].
  rewrite prop_get_set. intros H.
  destruct (prop_get "service" (Xml.children mainApplication)) as [services|];
    [now apply find_pushed | reflexivity].
Qed.

(** X17. After [withHceService] the first application of the manifest
    declares a service named [com.reactnativehce.services.CardService]: the
    one it had, or else the one the plugin pushes, last among the
    services. *)
Theorem withHceService_declares_CardService (manifest manifest' : Xml.Node) :
  withHceService manifest = Ok manifest' ->
  exists mainApplication s,
    mainApplicationOf manifest' = Some mainApplication
    /\ findCardService mainApplication = Ok (Some s)
    /\ isCardService s = Ok true
    /\ In s (services_or_empty mainApplication).
Proof.
  assert (Hfind : forall services s,
            find services = Ok (Some s) -> isCardService s = Ok true /\ In s services).
  { induction services as [|x rest IH]; intros s H; [discriminate|].
    cbn [find] in H. destruct (isCardService x) as [[|]|e] eqn:E; cbn [bind] in H;
      [| |discriminate].
    - injection H as <-. split; [exact E | now left].
    - destruct (IH s H) as [H1 H2]. split; [exact H1 | now right]. }
  assert (Hin : forall app s,
            findCardService app = Ok (Some s) ->
            isCardService s = Ok true /\ In s (services_or_empty app)).
  { intros app s. unfold findCardService, services_or_empty.
    destruct (prop_get "service" (Xml.children app)); [apply Hfind | discriminate]. }
  intros H. destruct (withHceService_cases _ _ H) as (app & others & Happ & Hcase).
  destruct Hcase as [[s [Hs ->]] | [Hnone ->]].
  - exists app, s. unfold mainApplicationOf. rewrite Happ.
    split; [reflexivity|]. split; [exact Hs|]. now apply Hin.
  - eexists. exists CardService. unfold mainApplicationOf. cbn [Xml.children].
    rewrite prop_get_set. split; [reflexivity|].
    pose proof (findCardService_pushed app Hnone) as Hp.
    split; [exact Hp|]. now apply Hin.
Qed.

Lemma withHceService_declares_CardService_witness :
  exists manifest',
    withHceService plainManifest = Ok manifest'
    /\ exists mainApplication s,
         mainApplicationOf manifest' = Some mainApplication
         /\ findCardService mainApplication = Ok (Some s)
         /\ isCardService s = Ok true
         /\ In s (services_or_empty mainApplication).
Proof.
  eexists. split; [reflexivity|].
  apply (withHceService_declares_CardService plainManifest). reflexivity.
Defined.

(** X18. [withHceService] is idempotent: run on its own result it changes
    nothing, so a second prebuild does not declare the service twice. *)
Theorem withHceService_idempotent (manifest manifest' : Xml.Node) :
  withHceService manifest = Ok manifest' ->
  withHceService manifest' = Ok manifest'.
Proof.
  intros H. destruct (withHceService_cases _ _ H) as (app & others & Happ & Hcase).
  destruct Hcase as [[s [Hs ->]] | [Hnone ->]]; [exact H|].
  unfold withHceService at 1. cbn [Xml.children]. rewrite prop_get_set.
  rewrite (findCardService_pushed app Hnone). reflexivity.
Qed.

Lemma withHceService_idempotent_witness :
  exists manifest',
    withHceService plainManifest = Ok manifest'
    /\ withHceService manifest' = Ok manifest'.
Proof.
  eexists. split; [reflexivity|].
  apply (withHceService_idempotent plainManifest). reflexivity.
Defined.

(** X19. [withHceService] touches nothing but the services of the first
    application: the attributes and the other children of the manifest, the
    other applications, the attributes and the other children of the first
    application stay, and its services are the ones it had, in their order,
    followed by the pushed element or by nothing.  A declaration of the
    service that is there already is left as it is, whatever its
    attributes. *)
Theorem withHceService_keeps_manifest (manifest manifest' : Xml.Node) :
  withHceService manifest = Ok manifest' ->
  Xml.attrs manifest' = Xml.attrs manifest
  /\ (forall key, key <> "application" ->
        prop_get key (Xml.children manifest') = prop_get key (Xml.children manifest))
  /\ exists mainApplication mainApplication' others,
       prop_get "application" (Xml.children manifest) = Some (mainApplication :: others)
       /\ prop_get "application" (Xml.children manifest')
          = Some (mainApplication' :: others)
       /\ Xml.attrs mainApplication' = Xml.attrs mainApplication
       /\ (forall key, key <> "service" ->
             prop_get key (Xml.children mainApplication')
             = prop_get key (Xml.children mainApplication))
       /\ (forall s, findCardService mainApplication = Ok (Some s) ->
             manifest' = manifest)
       /\ (findCardService mainApplication = Ok None ->
             services_or_empty mainApplication'
             = (services_or_empty mainApplication ++ [CardService])%list).
Proof.
  intros H. destruct (withHceService_cases _ _ H) as (app & others & Happ & Hcase).
  destruct Hcase as [[s [Hs ->]] | [Hnone ->]].
  - split; [reflexivity|]. split; [reflexivity|].
    exists app, app, others. repeat split; try assumption; try reflexivity.
    intros H'. rewrite Hs in H'. discriminate.
  - cbn [Xml.attrs Xml.children]. split; [reflexivity|].
    split; [intros key Hk; now apply prop_get_set_other|].
    exists app. eexists. exists others.
    split; [exact Happ|]. split; [apply prop_get_set|].
    cbn [Xml.attrs Xml.children]. split; [reflexivity|].
    split; [intros key Hk; now apply prop_get_set_other|].
    split; [intros s Hs; rewrite Hnone in Hs; discriminate|].
    intros _. unfold services_or_empty at 1. cbn [Xml.children].
    now rewrite prop_get_set.
Qed.

Lemma withHceService_keeps_manifest_witness :
  withHceService declaredManifest = Ok declaredManifest
  /\ exists manifest',
       withHceService plainManifest = Ok manifest'
       /\ prop_get "uses-permission" (Xml.children manifest') = Some [permission]
       /\ Xml.attrs manifest' = Xml.attrs plainManifest.
Proof.
  split; [reflexivity|].
  eexists. split; [reflexivity|].
  pose proof (withHceService_keeps_manifest plainManifest _ eq_refl) as (Ha & Hk & _).
  split; [|exact Ha].
  rewrite (Hk "uses-permission"); [reflexivity | discriminate].
Defined.
